(** * JSON_EXCEL: the report pipeline of [json_to_excel.js] and the query
    file reader of [process_queries.js]

    A shallow embedding of the duration codec, the month/unit gap filler,
    the rule-dispatched aggregator, the order of the units, the pivot
    builder and the lines it gives in the grid of a sheet, the sheet-name
    collision loop and the reader of the sections of the query file, with
    the properties stated about them.

    Conventions of the embedding.
    - A JavaScript number is [NaN], an infinity or an exact rational ([Qc],
      rationals in lowest terms, so that equal numbers are equal terms).
      Rounding to binary64 and the sign of zero are not modelled: sums,
      products and quotients are exact.
    - A string is a [string] of the Standard Library, one character per code
      unit; case mapping is the one of the ASCII letters.
    - An object is the list of its own properties in enumeration order
      (array-index keys first in ascending order, then the other keys in
      insertion order), a row being an object whose properties are values.
    - A call that raises a [TypeError] returns [None]. *)

From Stdlib Require Import ZArith QArith Qcanon Qround String Ascii List Bool Lia
  Sorted Permutation.
Import ListNotations.
Local Open Scope string_scope.
Local Open Scope Z_scope.

(** ** Numbers *)

Inductive number : Type :=
| NaN : number
| PInf : number
| NInf : number
| Fin (q : Qc) : number.

Definition QcZ (z : Z) : Qc := Q2Qc (inject_Z z).

Definition zero : number := Fin (QcZ 0).

Definition Qc_eqb (a b : Qc) : bool := if Qc_eq_dec a b then true else false.
Definition Qc_ltb (a b : Qc) : bool :=
  match Qccompare a b with Lt => true | _ => false end.

Definition Qc_sign_neg (q : Qc) : bool := Qc_ltb q (QcZ 0).

(** [a + b]. *)
Definition num_add (a b : number) : number :=
  match a, b with
  | NaN, _ | _, NaN => NaN
  | PInf, NInf | NInf, PInf => NaN
  | PInf, _ | _, PInf => PInf
  | NInf, _ | _, NInf => NInf
  | Fin x, Fin y => Fin (x + y)%Qc
  end.

Definition inf_of_sign (neg : bool) : number := if neg then NInf else PInf.

(** [a * b]. *)
Definition num_mul (a b : number) : number :=
  match a, b with
  | NaN, _ | _, NaN => NaN
  | Fin x, Fin y => Fin (x * y)%Qc
  | Fin x, PInf | PInf, Fin x =>
      if Qc_eqb x (QcZ 0) then NaN else inf_of_sign (Qc_sign_neg x)
  | Fin x, NInf | NInf, Fin x =>
      if Qc_eqb x (QcZ 0) then NaN else inf_of_sign (negb (Qc_sign_neg x))
  | PInf, PInf | NInf, NInf => PInf
  | PInf, NInf | NInf, PInf => NInf
  end.

(** [a / b]. *)
Definition num_div (a b : number) : number :=
  match a, b with
  | NaN, _ | _, NaN => NaN
  | Fin x, Fin y =>
      if Qc_eqb y (QcZ 0)
      then (if Qc_eqb x (QcZ 0) then NaN else inf_of_sign (Qc_sign_neg x))
      else Fin (x / y)%Qc
  | Fin _, PInf | Fin _, NInf => zero
  | PInf, Fin y => inf_of_sign (Qc_sign_neg y)
  | NInf, Fin y => inf_of_sign (negb (Qc_sign_neg y))
  | _, _ => NaN
  end.

Definition Qc_floor (q : Qc) : Z := Qfloor q.

(** Rounding towards zero, as the quotient of [%] is rounded. *)
Definition Qc_trunc (q : Qc) : Z :=
  if Qc_sign_neg q then - Qc_floor (- q)%Qc else Qc_floor q.

(** [a % b]: the remainder has the sign of the dividend. *)
Definition num_mod (a b : number) : number :=
  match a, b with
  | NaN, _ | _, NaN => NaN
  | PInf, _ | NInf, _ => NaN
  | Fin x, PInf | Fin x, NInf => Fin x
  | Fin x, Fin y =>
      if Qc_eqb y (QcZ 0) then NaN
      else Fin (x - y * QcZ (Qc_trunc (x / y)%Qc))%Qc
  end.

(** [Math.floor]. *)
Definition num_floor (a : number) : number :=
  match a with
  | Fin x => Fin (QcZ (Qc_floor x))
  | other => other
  end.

(** [a < b] and [a > b] on numbers: false as soon as one side is [NaN]. *)
Definition num_lt (a b : number) : bool :=
  match a, b with
  | NaN, _ | _, NaN => false
  | Fin x, Fin y => Qc_ltb x y
  | NInf, NInf => false
  | NInf, _ => true
  | _, PInf => match a with PInf => false | _ => true end
  | _, _ => false
  end.

Definition num_gt (a b : number) : bool := num_lt b a.

Definition num_is_nan (a : number) : bool :=
  match a with NaN => true | _ => false end.

(** Truthiness of a number: every number but [NaN] and zero. *)
Definition num_truthy (a : number) : bool :=
  match a with
  | NaN => false
  | Fin x => negb (Qc_eqb x (QcZ 0))
  | _ => true
  end.

(** [n || 0]. *)
Definition or0 (a : number) : number := if num_truthy a then a else zero.

(** ** Characters and strings *)

Definition is_digit (c : ascii) : bool :=
  let n := nat_of_ascii c in (48 <=? n)%nat && (n <=? 57)%nat.

Definition digit_val (c : ascii) : Z := Z.of_nat (nat_of_ascii c) - 48.

Definition digit_char (d : Z) : ascii := ascii_of_nat (48 + Z.to_nat d).

(** White space of the numeric grammars, within the modelled characters. *)
Definition is_ws (c : ascii) : bool :=
  let n := nat_of_ascii c in
  (n =? 32)%nat || ((9 <=? n)%nat && (n <=? 13)%nat) || (n =? 160)%nat.

Fixpoint trim_left (s : string) : string :=
  match s with
  | String c s' => if is_ws c then trim_left s' else s
  | EmptyString => s
  end.

Fixpoint rev_string (s acc : string) : string :=
  match s with
  | EmptyString => acc
  | String c s' => rev_string s' (String c acc)
  end.

Definition trim (s : string) : string :=
  rev_string (trim_left (rev_string (trim_left s) "")) "".

(** The longest run of decimal digits at the head of [s]: its value
    accumulated onto [acc], the number of digits read and what follows. *)
Fixpoint read_digits (s : string) (acc : Z) (cnt : nat) : Z * nat * string :=
  match s with
  | String c s' =>
      if is_digit c then read_digits s' (acc * 10 + digit_val c) (S cnt)
      else (acc, cnt, s)
  | EmptyString => (acc, cnt, s)
  end.

(** An optional sign: [true] for a minus. *)
Definition read_sign (s : string) : bool * string :=
  match s with
  | String "-" s' => (true, s')
  | String "+" s' => (false, s')
  | _ => (false, s)
  end.

(** [s.includes(sub)]. *)
Fixpoint includes (s sub : string) : bool :=
  if prefix sub s then true
  else match s with
       | EmptyString => false
       | String _ s' => includes s' sub
       end.

(** [s.startsWith(p)]. *)
Definition startsWith (s p : string) : bool := prefix p s.

(** [s.split(":")]. *)
Fixpoint split_colon_aux (s cur : string) : list string :=
  match s with
  | EmptyString => [rev_string cur ""]
  | String c s' =>
      if Ascii.eqb c ":" then rev_string cur "" :: split_colon_aux s' ""
      else split_colon_aux s' (String c cur)
  end.

Definition split_colon (s : string) : list string := split_colon_aux s "".

Definition upper_char (c : ascii) : ascii :=
  let n := nat_of_ascii c in
  if (97 <=? n)%nat && (n <=? 122)%nat then ascii_of_nat (n - 32) else c.

(** [s.toUpperCase()]. *)
Fixpoint toUpperCase (s : string) : string :=
  match s with
  | EmptyString => EmptyString
  | String c s' => String (upper_char c) (toUpperCase s')
  end.

(** [s.substring(0, n)]. *)
Definition substring0 (n : nat) (s : string) : string := substring 0 n s.

(** [s.replace(/\.json$/i, "")]: a final [.json], in any letter case, is
    removed. *)
Definition strip_json (s : string) : string :=
  let n := String.length s in
  if (5 <=? n)%nat && String.eqb (toUpperCase (substring (n - 5) 5 s)) ".JSON"
  then substring 0 (n - 5) s else s.

(** ** Printing numbers *)

(** The decimal digits of a natural number, most significant first; [fuel]
    bounds the number of digits. *)
Fixpoint dec_aux (fuel : nat) (n : Z) (acc : string) : string :=
  match fuel with
  | O => acc
  | S f =>
      let acc' := String (digit_char (n mod 10)) acc in
      if n / 10 =? 0 then acc' else dec_aux f (n / 10) acc'
  end.

Definition nat_dec (n : Z) : string := dec_aux (S (Z.to_nat (Z.log2 n))) n "".

(** [String(z)] for an integer [z], in positional notation (the notation of
    every integer below [10^21] in magnitude). *)
Definition int_to_string (z : Z) : string :=
  if z <? 0 then String "-" (nat_dec (- z)) else nat_dec z.

(** Digits after the decimal point of [r / d], for [0 <= r < d]. *)
Fixpoint frac_digits (fuel : nat) (r d : Z) : string :=
  match fuel with
  | O => EmptyString
  | S f =>
      if r =? 0 then EmptyString
      else String (digit_char (r * 10 / d)) (frac_digits f (r * 10 mod d) d)
  end.

(** [String(n)]. A fraction is printed with the digits of its exact value
    (at most 20 after the point), which is the text of the decimal literals
    a report carries. *)
Definition number_to_string (a : number) : string :=
  match a with
  | NaN => "NaN"
  | PInf => "Infinity"
  | NInf => "-Infinity"
  | Fin q =>
      let n := Qnum q in
      let d := Zpos (Qden q) in
      if d =? 1 then int_to_string n
      else
        let m := Z.abs n in
        (if n <? 0 then "-" else "") ++
        nat_dec (m / d) ++ "." ++ frac_digits 20 (m mod d) d
  end.

(** [s.padStart(2, "0")]. *)
Definition padStart2 (s : string) : string :=
  match String.length s with
  | O => "00"
  | S O => String "0" s
  | _ => s
  end.

(** [x.toFixed(2)]: the nearest multiple of [1/100], the larger one on a
    tie, printed with two decimals. *)
Definition toFixed2 (a : number) : string :=
  match a with
  | Fin q =>
      let neg := Qc_sign_neg q in
      let m := if neg then (- q)%Qc else q in
      if Qc_ltb m (QcZ (10 ^ 21)) then
        let n := Qc_floor (m * QcZ 100 + Q2Qc (1 # 2))%Qc in
        (if neg then "-" else "") ++
        nat_dec (n / 100) ++ "." ++
        String (digit_char (n / 10 mod 10)) (String (digit_char (n mod 10)) "")
      else number_to_string a
  | other => number_to_string other
  end.

(** ** Reading numbers *)

Fixpoint drop (n : nat) (s : string) : string :=
  match n, s with
  | S n', String _ s' => drop n' s'
  | _, _ => s
  end.

(** The exponent part of a decimal literal, when one is well formed. *)
Definition read_exponent (s : string) : Z * string :=
  match s with
  | String c s1 =>
      if Ascii.eqb c "e" || Ascii.eqb c "E" then
        let '(neg, s2) := read_sign s1 in
        let '(e, n, s3) := read_digits s2 0 0 in
        match n with
        | O => (0, s)
        | _ => (if neg then - e else e, s3)
        end
      else (0, s)
  | EmptyString => (0, s)
  end.

Definition decimal_value (neg : bool) (mant : Z) (exp10 : Z) : number :=
  Fin (Q2Qc (inject_Z (if neg then - mant else mant) * (inject_Z 10) ^ exp10)).

(** The longest prefix of [s] that is a signed decimal literal
    ([StrDecimalLiteral]) with its value, and the rest of [s]. *)
Definition read_decimal (s : string) : option (number * string) :=
  let '(neg, s1) := read_sign s in
  if prefix "Infinity" s1 then Some (inf_of_sign neg, drop 8 s1)
  else
    let '(i, n1, s2) := read_digits s1 0 0 in
    match s2 with
    | String "." s3 =>
        let '(m, n2, s4) := read_digits s3 i 0 in
        match n1, n2 with
        | O, O => None
        | _, _ =>
            let '(e, s5) := read_exponent s4 in
            Some (decimal_value neg m (e - Z.of_nat n2), s5)
        end
    | _ =>
        match n1 with
        | O => None
        | _ =>
            let '(e, s5) := read_exponent s2 in
            Some (decimal_value neg i e, s5)
        end
    end.

(** [parseInt(s, 10)] on a string. *)
Definition parseInt10 (s : string) : number :=
  let '(neg, s1) := read_sign (trim_left s) in
  let '(v, n, _) := read_digits s1 0 0 in
  match n with
  | O => NaN
  | _ => Fin (QcZ (if neg then - v else v))
  end.

(** [parseFloat(s)] on a string. *)
Definition parseFloat_string (s : string) : number :=
  match read_decimal (trim_left s) with
  | Some (n, _) => n
  | None => NaN
  end.

Definition radix_digit (c : ascii) : option Z :=
  let n := nat_of_ascii c in
  if is_digit c then Some (digit_val c)
  else if (97 <=? n)%nat && (n <=? 102)%nat then Some (Z.of_nat n - 87)
  else if (65 <=? n)%nat && (n <=? 70)%nat then Some (Z.of_nat n - 55)
  else None.

(** A string made of digits of the given radix only. *)
Fixpoint read_radix (base : Z) (s : string) (acc : Z) : option Z :=
  match s with
  | EmptyString => Some acc
  | String c s' =>
      match radix_digit c with
      | Some d => if d <? base then read_radix base s' (acc * base + d) else None
      | None => None
      end
  end.

Definition radix_literal (base : Z) (s : string) : number :=
  match s with
  | EmptyString => NaN
  | _ => match read_radix base s 0 with
         | Some v => Fin (QcZ v)
         | None => NaN
         end
  end.

(** [Number(s)] on a string ([StringToNumber]). *)
Definition string_to_number (s : string) : number :=
  let t := trim s in
  match t with
  | EmptyString => zero
  | String "0" (String c t') =>
      if Ascii.eqb c "x" || Ascii.eqb c "X" then radix_literal 16 t'
      else if Ascii.eqb c "o" || Ascii.eqb c "O" then radix_literal 8 t'
      else if Ascii.eqb c "b" || Ascii.eqb c "B" then radix_literal 2 t'
      else match read_decimal t with
           | Some (n, EmptyString) => n
           | _ => NaN
           end
  | _ => match read_decimal t with
         | Some (n, EmptyString) => n
         | _ => NaN
         end
  end.

(** ** Values *)

Inductive value : Type :=
| VUndef : value
| VNull : value
| VBool (b : bool) : value
| VNum (n : number) : value
| VStr (s : string) : value.

(** [Number(v)]. *)
Definition to_number (v : value) : number :=
  match v with
  | VUndef => NaN
  | VNull => zero
  | VBool true => Fin (QcZ 1)
  | VBool false => zero
  | VNum n => n
  | VStr s => string_to_number s
  end.

(** [String(v)], also the property key a value denotes. *)
Definition to_string (v : value) : string :=
  match v with
  | VUndef => "undefined"
  | VNull => "null"
  | VBool true => "true"
  | VBool false => "false"
  | VNum n => number_to_string n
  | VStr s => s
  end.

Definition truthy (v : value) : bool :=
  match v with
  | VUndef | VNull => false
  | VBool b => b
  | VNum n => num_truthy n
  | VStr s => negb (String.eqb s "")
  end.

(** [parseFloat(v)]: the argument is first turned into a string; the text
    printed for a number reads back as that number. *)
Definition parseFloat (v : value) : number :=
  match v with
  | VNum n => n
  | other => parseFloat_string (to_string other)
  end.

Definition number_eq_dec (a b : number) : {a = b} + {a <> b}.
Proof. decide equality. apply Qc_eq_dec. Defined.

Definition value_eq_dec (a b : value) : {a = b} + {a <> b}.
Proof.
  decide equality.
  - apply bool_dec.
  - apply number_eq_dec.
  - apply string_dec.
Defined.

(** [a === b]: no number is strictly equal to [NaN]. *)
Definition strict_eq (a b : value) : bool :=
  match a, b with
  | VNum NaN, _ | _, VNum NaN => false
  | _, _ => if value_eq_dec a b then true else false
  end.

(** [a < b] on values: two strings compare by code units, anything else as
    numbers. *)
Definition js_lt (a b : value) : bool :=
  match a, b with
  | VStr s, VStr t => String.ltb s t
  | _, _ => num_lt (to_number a) (to_number b)
  end.

Definition vnum (z : Z) : value := VNum (Fin (QcZ z)).

(** ** Duration codec *)

Definition num (z : Z) : number := Fin (QcZ z).

(** [parts[i]] of an array of strings. *)
Definition part (parts : list string) (i : nat) : value :=
  match nth_error parts i with
  | Some s => VStr s
  | None => VUndef
  end.

Definition parseDuration (durationStr : value) : number :=
  match durationStr with
  | VStr s =>
      if negb (truthy durationStr) then zero
      else
        let parts := split_colon s in
        if (List.length parts <? 2)%nat then zero
        else
          let hours := or0 (parseInt10 (to_string (part parts 0))) in
          let minutes := or0 (parseInt10 (to_string (part parts 1))) in
          let seconds := or0 (parseFloat (part parts 2)) in
          num_add (num_add (num_mul hours (num 3600)) (num_mul minutes (num 60)))
                  seconds
  | _ => zero
  end.

Definition formatDuration (totalSeconds : number) : string :=
  let hours := num_floor (num_div totalSeconds (num 3600)) in
  let remainder := num_mod totalSeconds (num 3600) in
  let minutes := num_floor (num_div remainder (num 60)) in
  let seconds := num_floor (num_mod remainder (num 60)) in
  number_to_string hours ++ ":" ++ padStart2 (number_to_string minutes) ++ ":"
    ++ padStart2 (number_to_string seconds).

(** ** Objects and rows *)

Definition obj (A : Type) : Type := list (string * A).

Fixpoint all_digits (s : string) : bool :=
  match s with
  | EmptyString => true
  | String c s' => is_digit c && all_digits s'
  end.

(** The array index a property key denotes, if any: a canonical decimal
    numeral below [2^32 - 1]. *)
Definition array_index (k : string) : option Z :=
  match k with
  | EmptyString => None
  | String c k' =>
      if all_digits k && (negb (Ascii.eqb c "0") || String.eqb k' "") then
        let '(v, _, _) := read_digits k 0 0 in
        if v <? 2 ^ 32 - 1 then Some v else None
      else None
  end.

Section Objects.
Context {A : Type}.

Fixpoint obj_get (o : obj A) (k : string) : option A :=
  match o with
  | [] => None
  | (k', v) :: o' => if String.eqb k' k then Some v else obj_get o' k
  end.

Definition obj_has (o : obj A) (k : string) : bool :=
  match obj_get o k with Some _ => true | None => false end.

Fixpoint obj_replace (o : obj A) (k : string) (v : A) : obj A :=
  match o with
  | [] => []
  | (k', v') :: o' =>
      if String.eqb k' k then (k', v) :: o' else (k', v') :: obj_replace o' k v
  end.

(** A new array-index key goes before the first key that is not an array
    index or is a larger one. *)
Fixpoint obj_insert_index (o : obj A) (i : Z) (k : string) (v : A) : obj A :=
  match o with
  | [] => [(k, v)]
  | (k', v') :: o' =>
      match array_index k' with
      | Some j => if j <? i then (k', v') :: obj_insert_index o' i k v
                  else (k, v) :: o
      | None => (k, v) :: o
      end
  end.

(** [o[k] = v]. *)
Definition obj_set (o : obj A) (k : string) (v : A) : obj A :=
  if obj_has o k then obj_replace o k v
  else match array_index k with
       | Some i => obj_insert_index o i k v
       | None => (o ++ [(k, v)])%list
       end.

(** [Object.keys(o)]. *)
Definition keys (o : obj A) : list string := map fst o.
End Objects.

Definition row : Type := obj value.

(** [r[k]]: [undefined] where the row has no such column. *)
Definition get (r : row) (k : string) : value :=
  match obj_get r k with
  | Some v => v
  | None => VUndef
  end.

Definition Mes_Anio : string := "Mes_Anio".
Definition Nombre_Unidad : string := "Nombre_Unidad".

(** ** Aggregation *)

(** [rows.reduce((acc, r) => acc + (Number(r[key]) || 0), 0)]. *)
Definition sum_column (key : string) (rows : list row) : number :=
  fold_left (fun acc r => num_add acc (or0 (to_number (get r key)))) rows zero.

(** [rows.every((r) => !isNaN(Number(r[key])))]. *)
Definition column_is_numeric (key : string) (rows : list row) : bool :=
  forallb (fun r => negb (num_is_nan (to_number (get r key)))) rows.

(** One turn of the loop over the keys of the first row. *)
Definition generic_step (rows : list row) (summaryRow : row) (key : string) : row :=
  if String.eqb key Mes_Anio || String.eqb key Nombre_Unidad then summaryRow
  else if column_is_numeric key rows
       then obj_set summaryRow key (VNum (sum_column key rows))
       else obj_set summaryRow key (VStr "").

(** [processGenericCounts]: the summary row after the call; [rows[0]] of an
    empty array has no keys to enumerate and the call raises. *)
Definition processGenericCounts (summaryRow : row) (rows : list row) : option row :=
  match rows with
  | [] => None
  | r0 :: _ => Some (fold_left (generic_step rows) (keys r0) summaryRow)
  end.

Definition processGlitches (summaryRow : row) (rows : list row) : option row :=
  processGenericCounts summaryRow rows.

Definition Cantidad_Tickets : string := "Cantidad_Tickets".
Definition Total_Tiempo_Productivo : string := "Total_Tiempo_Productivo".
Definition Promedio_Tiempo_Productivo : string := "Promedio_Tiempo_Productivo".
Definition Promedio_Tiempo_Estimado : string := "Promedio_Tiempo_Estimado".
Definition Porcentaje_Cumplimiento : string := "Porcentaje_Cumplimiento".

(** The sum of the parsed durations of a column. *)
Definition totalTimeProdSec (rows : list row) : number :=
  fold_left (fun acc r => num_add acc (parseDuration (get r Total_Tiempo_Productivo)))
            rows zero.

(** The estimated total rebuilt from the averages, each weighted by the
    ticket count of its row. *)
Definition totalEstSec (rows : list row) : number :=
  fold_left
    (fun total r =>
       let estSec := parseDuration (get r Promedio_Tiempo_Estimado) in
       let count := or0 (to_number (get r Cantidad_Tickets)) in
       num_add total (num_mul estSec count))
    rows zero.

Definition processTicketsGeneral (summaryRow : row) (rows : list row) : row :=
  let s1 := obj_set summaryRow Cantidad_Tickets (VNum (sum_column Cantidad_Tickets rows)) in
  let prod := totalTimeProdSec rows in
  let s2 := obj_set s1 Total_Tiempo_Productivo (VStr (formatDuration prod)) in
  let s3 :=
    if num_gt (to_number (get s2 Cantidad_Tickets)) zero
    then obj_set s2 Promedio_Tiempo_Productivo
           (VStr (formatDuration (num_div prod (to_number (get s2 Cantidad_Tickets)))))
    else obj_set s2 Promedio_Tiempo_Productivo (VStr "0:00:00") in
  let est := totalEstSec rows in
  if num_gt (to_number (get s3 Cantidad_Tickets)) zero then
    let s4 := obj_set s3 Promedio_Tiempo_Estimado
                (VStr (formatDuration (num_div est (to_number (get s3 Cantidad_Tickets))))) in
    if num_gt prod zero
    then obj_set s4 Porcentaje_Cumplimiento
           (VStr (toFixed2 (num_mul (num_div est prod) (num 100))))
    else obj_set s4 Porcentaje_Cumplimiento (VStr "0.00")
  else
    obj_set (obj_set s3 Promedio_Tiempo_Estimado (VStr "0:00:00"))
            Porcentaje_Cumplimiento (VStr "0.00").

(** The five branches of the rule cascade, in the order they are tried. *)
Inductive rule : Type :=
| RuleCounts       (* MANTENIMIENTO, TECNOLOGIA or LOST_AND_FOUND in the name *)
| RuleGlitches     (* GLITCHES in the name *)
| RuleTickets      (* the general tickets and general data reports *)
| RuleTags         (* ETIQUETAS_UNIDAD_DEPARTAMENTO *)
| RuleFallback.

(** [filename.replace(/\.json$/i, "").toUpperCase()]. *)
Definition report_name (filename : string) : string :=
  toUpperCase (strip_json filename).

Definition select_rule (name : string) : rule :=
  if includes name "MANTENIMIENTO" || includes name "TECNOLOGIA"
     || includes name "LOST_AND_FOUND"
  then RuleCounts
  else if includes name "GLITCHES" then RuleGlitches
  else if String.eqb name "TICKETS_GENERAL"
          || String.eqb name "DATOS_GENERALES_UNIDAD_DEPARTAMENTO"
          || startsWith name "DATOS_GENERALES"
  then RuleTickets
  else if String.eqb name "ETIQUETAS_UNIDAD_DEPARTAMENTO" then RuleTags
  else RuleFallback.

Definition apply_rule (r : rule) (summaryRow : row) (rows : list row) : option row :=
  match r with
  | RuleCounts => processGenericCounts summaryRow rows
  | RuleGlitches => processGlitches summaryRow rows
  | RuleTickets => Some (processTicketsGeneral summaryRow rows)
  | RuleTags => processGenericCounts summaryRow rows
  | RuleFallback => processGenericCounts summaryRow rows
  end.

(** The names an empty object literal inherits: looked up in [groups], they
    answer with a member of [Object.prototype]. *)
Definition inherited_names : list string :=
  ["constructor"; "__defineGetter__"; "__defineSetter__"; "hasOwnProperty";
   "__lookupGetter__"; "__lookupSetter__"; "isPrototypeOf";
   "propertyIsEnumerable"; "toString"; "valueOf"; "__proto__";
   "toLocaleString"].

(** [row["Nombre_Unidad"] || "N/A"], as the property key it is used as. *)
Definition unit_key (r : row) : string :=
  let u := get r Nombre_Unidad in
  to_string (if truthy u then u else VStr "N/A").

(** One turn of the grouping loop. A key that is not an own property but an
    inherited name is found truthy, no group is created, and pushing onto
    the missing [rows] raises. The [count] field is never read and is left
    out. *)
Definition add_to_group (groups : obj (list row)) (r : row) : option (obj (list row)) :=
  let unit := unit_key r in
  match obj_get groups unit with
  | Some rows => Some (obj_set groups unit (rows ++ [r])%list)
  | None =>
      if existsb (String.eqb unit) inherited_names then None
      else Some (obj_set groups unit [r])
  end.

Fixpoint group_rows (data : list row) (groups : obj (list row)) : option (obj (list row)) :=
  match data with
  | [] => Some groups
  | r :: data' =>
      match add_to_group groups r with
      | Some groups' => group_rows data' groups'
      | None => None
      end
  end.

Definition new_summary (unit : string) : row :=
  [(Mes_Anio, VStr "Acumulado 2025"); (Nombre_Unidad, VStr unit)].

(** The loop over [Object.entries(groups)]. *)
Fixpoint summarize (name : string) (entries : obj (list row)) : option (list row) :=
  match entries with
  | [] => Some []
  | (unit, rows) :: entries' =>
      if String.eqb unit "N/A" then summarize name entries'
      else
        match apply_rule (select_rule name) (new_summary unit) rows with
        | None => None
        | Some summaryRow =>
            match summarize name entries' with
            | None => None
            | Some rest => Some (summaryRow :: rest)
            end
        end
  end.

Definition aggregateData (filename : string) (data : list row) : option (list row) :=
  match data with
  | [] => Some []
  | _ =>
      match group_rows data [] with
      | None => None
      | Some groups => summarize (report_name filename) groups
      end
  end.

(** ** Filling the missing months *)

Definition MONTHS_2025 : list string :=
  ["Enero 2025"; "Febrero 2025"; "Marzo 2025"; "Abril 2025"; "Mayo 2025";
   "Junio 2025"; "Julio 2025"; "Agosto 2025"; "Septiembre 2025";
   "Octubre 2025"; "Noviembre 2025"; "Diciembre 2025"].

Definition value_eqb (a b : value) : bool :=
  if value_eq_dec a b then true else false.

(** [[...new Set(l)]]: the first occurrence of every value, in order. *)
Fixpoint distinct_acc (l seen : list value) : list value :=
  match l with
  | [] => []
  | v :: l' =>
      if existsb (value_eqb v) seen then distinct_acc l' seen
      else v :: distinct_acc l' (v :: seen)
  end.

Definition distinct (l : list value) : list value := distinct_acc l [].

(** The default a synthesized row gives to a column. *)
Definition zero_value (month : string) (unit : value) (key : string) : value :=
  if String.eqb key Mes_Anio then VStr month
  else if String.eqb key Nombre_Unidad then unit
  else if startsWith key "Cantidad" || startsWith key "Total_Tickets"
          || String.eqb key "insertId" || String.eqb key "affectedRows"
  then vnum 0
  else if includes key "Tiempo" then VStr "00:00:00"
  else if includes key "Porcentaje" then VStr "0.00"
  else vnum 0.

Definition zeroRow (keys : list string) (month : string) (unit : value) : row :=
  fold_left (fun z key => obj_set z key (zero_value month unit key)) keys [].

(** The rows pushed for one unit and one month. *)
Definition month_rows (keys : list string) (unit : value) (unitRows : list row)
    (month : string) : list row :=
  if existsb (fun r => value_eqb (get r Mes_Anio) (VStr month)) unitRows then
    match find (fun r => strict_eq (get r Mes_Anio) (VStr month)) unitRows with
    | Some existing => [existing]
    | None => []
    end
  else [zeroRow keys month unit].

Definition unit_rows (data : list row) (keys : list string) (unit : value) : list row :=
  let unitRows := filter (fun r => strict_eq (get r Nombre_Unidad) unit) data in
  flat_map (month_rows keys unit unitRows) MONTHS_2025.

Fixpoint index_of (s : string) (l : list string) (i : nat) : option nat :=
  match l with
  | [] => None
  | x :: l' => if String.eqb x s then Some i else index_of s l' (S i)
  end.

(** [monthIndex[label]]. *)
Definition monthIndex (label : value) : option nat :=
  index_of (to_string label) MONTHS_2025 0.

Definition option_nat_eqb (a b : option nat) : bool :=
  match a, b with
  | Some x, Some y => Nat.eqb x y
  | None, None => true
  | _, _ => false
  end.

(** The comparator of the final sort. A difference with [undefined] is
    [NaN], which a sort reads as 0. *)
Definition compare_rows (a b : row) : Z :=
  let ma := monthIndex (get a Mes_Anio) in
  let mb := monthIndex (get b Mes_Anio) in
  if negb (option_nat_eqb ma mb) then
    match ma, mb with
    | Some x, Some y => Z.of_nat x - Z.of_nat y
    | _, _ => 0
    end
  else if js_lt (get a Nombre_Unidad) (get b Nombre_Unidad) then -1
  else if js_lt (get b Nombre_Unidad) (get a Nombre_Unidad) then 1
  else 0.

Section Sort.
Context {A : Type} (cmp : A -> A -> Z).

Fixpoint sort_insert (x : A) (l : list A) : list A :=
  match l with
  | [] => [x]
  | y :: l' => if cmp x y <=? 0 then x :: l else y :: sort_insert x l'
  end.

(** [l.sort(cmp)]: the sort is stable, so that with a comparator that
    orders the elements consistently every implementation returns this
    list. *)
Definition js_sort (l : list A) : list A := fold_right sort_insert [] l.
End Sort.

Definition fillMissingMonths (data : list row) : list row :=
  match data with
  | [] => data
  | r0 :: _ =>
      if negb (obj_has r0 Mes_Anio) || negb (obj_has r0 Nombre_Unidad) then data
      else
        let units := distinct (map (fun r => get r Nombre_Unidad) data) in
        let filledData := flat_map (unit_rows data (keys r0)) units in
        js_sort compare_rows filledData
  end.

(** ** The order of the units *)

Definition UNIT_ORDER : list string :=
  ["Palacio Mundo Imperial"; "Princess Mundo Imperial"; "Pierre Mundo Imperial"].

Section UnitOrder.
(** [a.localeCompare(b)], a collation of the host locale. *)
Variable localeCompare : string -> string -> Z.

(** The comparator of [sortUnits]. *)
Definition compare_units (a b : string) : Z :=
  match index_of a UNIT_ORDER 0, index_of b UNIT_ORDER 0 with
  | None, None => localeCompare a b
  | None, Some _ => 1
  | Some _, None => -1
  | Some ia, Some ib => Z.of_nat ia - Z.of_nat ib
  end.

(** [sortUnits(units)] on an array of strings. *)
Definition sortUnits (units : list string) : list string :=
  js_sort compare_units units.
End UnitOrder.

(** ** Pivot tables *)

(** The cell of a period row: the metric of the first row of the series for
    that period and unit, 0 where there is none or it is not set. *)
Definition pivot_cell (data : list row) (metric : string) (month unit : value) : value :=
  let record :=
    find (fun r => strict_eq (get r Mes_Anio) month
                   && strict_eq (get r Nombre_Unidad) unit) data in
  let val := match record with Some r => get r metric | None => vnum 0 end in
  match val with
  | VUndef | VNull => vnum 0
  | _ => val
  end.

Definition period_row (data : list row) (metric : string) (units : list value)
    (month : value) : row :=
  fold_left (fun rowObj unit => obj_set rowObj (to_string unit)
                                  (pivot_cell data metric month unit))
            units [("Mes", month)].

Definition table_rows (data : list row) (metric : string) (units months : list value)
    : list row :=
  map (period_row data metric units) months.

(** The cells of one unit column, period by period. *)
Definition column (tableRows : list row) (unit : string) : list value :=
  map (fun r => get r unit) tableRows.

Definition is_time (firstVal : value) : bool :=
  match firstVal with
  | VStr s => includes s ":"
  | _ => false
  end.

Definition sum_durations (cells : list value) : number :=
  fold_left (fun acc c => num_add acc (parseDuration c)) cells zero.

Definition sum_floats (cells : list value) : number :=
  fold_left (fun acc c => num_add acc (parseFloat c)) cells zero.

Definition sum_numbers (cells : list value) : number :=
  fold_left (fun acc c => num_add acc (or0 (to_number c))) cells zero.

Definition count_of (n : nat) : number := num (Z.of_nat n).

(** The cell of the totals row under a unit column whose cells are [cells],
    [firstVal] being the cell of the first period row. *)
Definition total_cell (metric : string) (firstVal : value) (cells : list value) : value :=
  let isTime := is_time firstVal in
  let isPct := includes metric "Porcentaje" in
  if isTime then
    let totalSec := sum_durations cells in
    if startsWith metric "Promedio" then
      let count := List.length (filter (fun c => num_gt (parseDuration c) zero) cells) in
      if (0 <? count)%nat
      then VStr (formatDuration (num_div totalSec (count_of count)))
      else VStr (formatDuration totalSec)
    else VStr (formatDuration totalSec)
  else if isPct then
    let validRows := filter (fun c => num_gt (to_number c) zero) cells in
    let sum := sum_floats validRows in
    if (0 <? List.length validRows)%nat
    then VStr (toFixed2 (num_div sum (count_of (List.length validRows))))
    else VStr "0.00"
  else VNum (sum_numbers cells).

Definition total_step (metric : string) (tableRows : list row) (totalRow : row)
    (unit : value) : row :=
  match tableRows with
  | [] => totalRow
  | first :: _ =>
      obj_set totalRow (to_string unit)
        (total_cell metric (get first (to_string unit))
                    (column tableRows (to_string unit)))
  end.

Definition total_row (metric : string) (units : list value) (tableRows : list row) : row :=
  fold_left (total_step metric tableRows) units [("Mes", VStr "TOTAL")].

Definition column_header (units : list value) : row :=
  fold_left (fun h u => obj_set h (to_string u) u) units [("Mes", VStr "Mes")].

(** The rows pushed for one metric: spacer, title, header, period rows and
    totals row. *)
Definition pivot_table (data : list row) (units months : list value) (metric : string)
    : list row :=
  let tableRows := table_rows data metric units months in
  ([] : row) :: [("pivot_title", VStr ("COMPARATIVA: " ++ metric))]
    :: column_header units
    :: (tableRows ++ [total_row metric units tableRows])%list.

Definition known_metrics : list string :=
  ["Cantidad_Tickets"; "Cantidad_Total_Tickets_Glitch";
   "Total_Tickets_Mantenimiento"; "Total_Tickets_TI";
   "Total_Tickets_LostAndFound"; "Total_Tiempo_Productivo";
   "Promedio_Tiempo_Productivo"; "Promedio_Tiempo_Estimado";
   "Porcentaje_Cumplimiento"].

(** [monthIndex[label] !== undefined ? monthIndex[label] : 999]: the index of
    a label of the calendar, 999 for another label; a label that is the name
    of a member of [Object.prototype] finds that member, which is no number
    ([None]). *)
Definition month_rank (label : value) : option Z :=
  match monthIndex label with
  | Some i => Some (Z.of_nat i)
  | None =>
      if existsb (String.eqb (to_string label)) inherited_names then None
      else Some 999
  end.

(** The comparator of the period sort; the difference with a member is
    [NaN], which a sort reads as 0. *)
Definition compare_months (a b : value) : Z :=
  match month_rank a, month_rank b with
  | Some x, Some y => x - y
  | _, _ => 0
  end.

Definition is_undefined (v : value) : bool :=
  match v with VUndef => true | _ => false end.

(** [l.sort(cmp)] on an array of values: the comparator orders the elements
    other than [undefined], which go last. *)
Definition sort_values (cmp : value -> value -> Z) (l : list value) : list value :=
  (js_sort cmp (filter (fun v => negb (is_undefined v)) l)
   ++ filter is_undefined l)%list.

(** The periods of a series, in display order. *)
Definition pivot_months_of (data : list row) : list value :=
  sort_values compare_months (distinct (map (fun r => get r Mes_Anio) data)).

(** [generatePivotTables], given the unit columns in the display order
    [sortUnits] puts them in (a collation of the host locale). *)
Definition generatePivotTables (units : list value) (data : list row) : list row :=
  match data with
  | [] => []
  | sample :: _ =>
      let metrics_to_pivot := filter (obj_has sample) known_metrics in
      flat_map (pivot_table data units (pivot_months_of data)) metrics_to_pivot
  end.

(** ** The lines of the pivot tables in the grid of a sheet *)

(** What a cell of the grid holds: a value or, where a column bears the name
    of a member of [Object.prototype] and the row has no such column, that
    member. *)
Inductive cell : Type :=
| Cell (v : value) : cell
| Member (name : string) : cell.

(** [r[k]] with the prototype chain. *)
Definition read (r : row) (k : string) : cell :=
  match obj_get r k with
  | Some v => Cell v
  | None => if existsb (String.eqb k) inherited_names then Member k else Cell VUndef
  end.

(** The line of a row of the pivot tables: a spacer for an empty row, the
    title alone for a title row, else the period label and the cells of the
    units in display order. *)
Definition pivot_line (unitsForPivot : list value) (r : row) : list cell :=
  match keys r with
  | [] => []
  | _ =>
      if truthy (get r "pivot_title") then [Cell (get r "pivot_title")]
      else
        Cell (if truthy (get r "Mes") then get r "Mes" else VStr "")
        :: map (fun u => read r (to_string u)) unitsForPivot
  end.

(** ** Sheet names *)

Definition MAX_SHEET_NAME_LENGTH : nat := 31.

Definition forbidden (c : ascii) : bool :=
  existsb (Ascii.eqb c) [":"; "\"; "/"; "?"; "*"; "["; "]"]%char.

Fixpoint replace_forbidden (s : string) : string :=
  match s with
  | EmptyString => EmptyString
  | String c s' => String (if forbidden c then "_"%char else c) (replace_forbidden s')
  end.

Definition cleanSheetName (name : string) : string :=
  let clean := replace_forbidden (strip_json name) in
  if (MAX_SHEET_NAME_LENGTH <? String.length clean)%nat
  then substring0 MAX_SHEET_NAME_LENGTH clean
  else clean.

(** The name tried for a given counter. *)
Definition suffixed (sheetName : string) (counter : Z) : string :=
  substring0 (MAX_SHEET_NAME_LENGTH - 3) sheetName ++ "_" ++ int_to_string counter.

(** The collision loop, [fuel] bounding its turns: the name it leaves in
    [finalSheetName]. Every turn but one follows a hit on a different entry
    of [sheetNames] (the clean name can be its own first suffixed name), so
    one turn more than there are entries is enough. *)
Fixpoint collision_loop (fuel : nat) (sheetNames : list string) (sheetName : string)
    (finalSheetName : string) (counter : Z) : option string :=
  if existsb (String.eqb finalSheetName) sheetNames then
    match fuel with
    | O => None
    | S fuel' =>
        collision_loop fuel' sheetNames sheetName (suffixed sheetName counter)
                       (counter + 1)
    end
  else Some finalSheetName.

Definition finalSheetName (sheetNames : list string) (sheetName : string) : option string :=
  collision_loop (S (List.length sheetNames)) sheetNames sheetName sheetName 1.

(** ** The sections of the query file ([process_queries.js]) *)

(** [s.endsWith(suffix)]. *)
Definition endsWith (s suffix : string) : bool :=
  let n := String.length s in
  let k := String.length suffix in
  (k <=? n)%nat && String.eqb (substring (n - k) k s) suffix.

(** The 26 dashes that end the line of a title. *)
Definition SEPARATOR : string := "--------------------------".

Definition is_separator (line : string) : bool := endsWith (trim line) SEPARATOR.

(** [line.replace(/--------------------------$/, "")]. *)
Definition strip_separator (line : string) : string :=
  if endsWith line SEPARATOR
  then substring 0 (String.length line - String.length SEPARATOR) line
  else line.

(** The title a separator line gives. *)
Definition heading (line : string) : string := trim (strip_separator line).

Record query_section : Type := { title : string; sql : string }.

(** [currentSql.join("\n")]. *)
Definition join_lines (currentSql : list string) : string :=
  String.concat (String "010" "") currentSql.

(** The truthiness of [currentTitle], which is [null] or a string. *)
Definition is_set (currentTitle : option string) : bool :=
  match currentTitle with
  | Some (String _ _) => true
  | _ => false
  end.

Definition push_section (sections : list query_section) (currentTitle : option string)
    (currentSql : list string) : list query_section :=
  match currentTitle with
  | Some t => (sections ++ [{| title := t; sql := join_lines currentSql |}])%list
  | None => sections
  end.

(** The state of the loop over the lines: [sections], [currentTitle] and
    [currentSql]. *)
Definition reader : Type := list query_section * option string * list string.

(** One turn of the loop. *)
Definition read_line (st : reader) (line : string) : reader :=
  let '(sections, currentTitle, currentSql) := st in
  if is_separator line then
    ((if is_set currentTitle then push_section sections currentTitle currentSql
      else sections),
     Some (heading line), [])
  else if is_set currentTitle then (sections, currentTitle, (currentSql ++ [line])%list)
  else st.

(** The push after the loop. *)
Definition last_push (st : reader) : list query_section :=
  let '(sections, currentTitle, currentSql) := st in
  if is_set currentTitle && (0 <? List.length currentSql)%nat
  then push_section sections currentTitle currentSql
  else sections.

(** The sections read from the lines of the file. *)
Definition read_sections (lines : list string) : list query_section :=
  last_push (fold_left read_line lines ([], None, [])).

Definition is_alnum (c : ascii) : bool :=
  let n := nat_of_ascii c in
  ((48 <=? n)%nat && (n <=? 57)%nat) || ((65 <=? n)%nat && (n <=? 90)%nat)
  || ((97 <=? n)%nat && (n <=? 122)%nat).

(** [s.replace(/[^a-zA-Z0-9]/g, "_")]. *)
Fixpoint replace_non_alnum (s : string) : string :=
  match s with
  | EmptyString => EmptyString
  | String c s' => String (if is_alnum c then c else "_"%char) (replace_non_alnum s')
  end.

Definition safeTitle (section : query_section) : string :=
  replace_non_alnum (title section).

(** The name of the file the result of a section is written to. *)
Definition filename (section : query_section) : string := safeTitle section ++ ".json".

(** * Notions used in the statements

    The sum of a list of numbers, the rule table of the aggregator, the
    order of the filled series, the totals rule of the pivot tables, the
    decimal value of a digit string, the units of [UNIT_ORDER], the titles
    of the separator lines of the query file, and the sample reports the
    statements are tried on. *)

(** The sum of a list of numbers, from the right. *)
Definition sum_list (l : list number) : number := fold_right num_add zero l.

(** The two column-aggregation strategies. *)
Inductive strategy : Type := GenericCounts | TicketsGeneral.

(** The strategy a branch of the cascade applies. *)
Definition strategy_of (r : rule) : strategy :=
  match r with
  | RuleTickets => TicketsGeneral
  | _ => GenericCounts
  end.

Definition run_strategy (s : strategy) (summaryRow : row) (rows : list row) : option row :=
  match s with
  | GenericCounts => processGenericCounts summaryRow rows
  | TicketsGeneral => Some (processTicketsGeneral summaryRow rows)
  end.

(** The patterns of the rules, on the upper-cased name without extension. *)
Definition has_counts_marker (name : string) : bool :=
  includes name "MANTENIMIENTO" || includes name "TECNOLOGIA"
  || includes name "LOST_AND_FOUND".

Definition has_glitches_marker (name : string) : bool := includes name "GLITCHES".

Definition is_general_report (name : string) : bool :=
  String.eqb name "TICKETS_GENERAL"
  || String.eqb name "DATOS_GENERALES_UNIDAD_DEPARTAMENTO"
  || startsWith name "DATOS_GENERALES".

Definition is_tags_report (name : string) : bool :=
  String.eqb name "ETIQUETAS_UNIDAD_DEPARTAMENTO".

(** The rule table: predicate and strategy, in precedence order. *)
Definition rule_table : list ((string -> bool) * strategy) :=
  [(has_counts_marker, GenericCounts);
   (has_glitches_marker, GenericCounts);
   (is_general_report, TicketsGeneral);
   (is_tags_report, GenericCounts);
   (fun _ => true, GenericCounts)].

(** The strategy of the first rule of a table that matches. *)
Fixpoint first_match (table : list ((string -> bool) * strategy)) (name : string)
    : option strategy :=
  match table with
  | [] => None
  | (p, s) :: table' => if p name then Some s else first_match table' name
  end.

(** A row of the general tickets report. *)
Definition tickets_row (count : Z) (prod est : string) : row :=
  [(Mes_Anio, VStr "Enero 2025"); (Nombre_Unidad, VStr "Palacio Mundo Imperial");
   (Cantidad_Tickets, vnum count); (Total_Tiempo_Productivo, VStr prod);
   (Promedio_Tiempo_Estimado, VStr est)].

(** The two key columns, which no strategy aggregates. *)
Definition privileged (key : string) : bool :=
  String.eqb key Mes_Anio || String.eqb key Nombre_Unidad.

(** What Generic Counts leaves in a column. *)
Definition generic_value (rows : list row) (key : string) : value :=
  if column_is_numeric key rows then VNum (sum_column key rows) else VStr "".

(** A row of a count report with a text column. *)
Definition counts_row (month : string) (count : value) (label : value) : row :=
  [(Mes_Anio, VStr month); (Nombre_Unidad, VStr "Pierre Mundo Imperial");
   ("Total_Tickets_TI", count); ("Departamento", label)].

(** The key of the rows without a unit. *)
Definition NA : string := "N/A".

(** The rows that are not grouped under the sentinel key. *)
Definition has_unit (r : row) : bool := negb (String.eqb (unit_key r) NA).

(** The groups without the one of the rows without a unit. *)
Definition drop_na (groups : obj (list row)) : obj (list row) :=
  filter (fun e => negb (String.eqb (fst e) NA)) groups.

(** A property whose key is not an array index. *)
Definition plain_key {A : Type} (e : string * A) : bool :=
  match array_index (fst e) with Some _ => false | None => true end.

(** Array-index keys come before the other keys. *)
Fixpoint indices_first {A : Type} (o : obj A) : bool :=
  match o with
  | [] => true
  | e :: o' => if plain_key e then forallb plain_key o' else indices_first o'
  end.

(** A row of a count report with the given unit. *)
Definition unit_row (unit : value) (count : Z) : row :=
  [(Mes_Anio, VStr "Enero 2025"); (Nombre_Unidad, unit); ("Total_Tickets_TI", vnum count)].

(** The period and the unit of a row. *)
Definition period_unit (r : row) : value * value :=
  (get r Mes_Anio, get r Nombre_Unidad).

(** The units of a series, in order of first appearance. *)
Definition units_of (data : list row) : list value :=
  distinct (map (fun r => get r Nombre_Unidad) data).

(** What a row is ordered by: the index of its period in the calendar and
    the text of its unit key. *)
Definition sort_key (r : row) : option (nat * string) :=
  match monthIndex (get r Mes_Anio) with
  | Some i => Some (i, to_string (get r Nombre_Unidad))
  | None => None
  end.

(** Lexicographic order on pairs of a period index and a unit text. *)
Definition key_le (a b : nat * string) : Prop :=
  (fst a < fst b)%nat \/ (fst a = fst b /\ String.leb (snd a) (snd b) = true).

(** Period-major, unit-minor: [a] may come before [b]. *)
Definition period_major (a b : row) : Prop :=
  match sort_key a, sort_key b with
  | Some ka, Some kb => key_le ka kb
  | _, _ => False
  end.

(** A row of the calendar whose unit is a text. *)
Definition text_row (r : row) : Prop :=
  exists i s, monthIndex (get r Mes_Anio) = Some i /\ get r Nombre_Unidad = VStr s.

(** Every pair of a canonical period and a unit, unit by unit. *)
Definition calendar_pairs (units : list value) : list (value * value) :=
  flat_map (fun u => map (fun m => (VStr m, u)) MONTHS_2025) units.

(** A row of a series with both key columns. *)
Definition series_row (month : string) (unit : value) (count : Z) : row :=
  [(Mes_Anio, VStr month); (Nombre_Unidad, unit); (Cantidad_Tickets, vnum count);
   (Total_Tiempo_Productivo, VStr "1:00:00"); (Porcentaje_Cumplimiento, VStr "80.00")].

(** Two units that are texts, and a row of another year. *)
Definition text_series : list row :=
  [series_row "Marzo 2025" (VStr "Princess Mundo Imperial") 4;
   series_row "Enero 2025" (VStr "Palacio Mundo Imperial") 2;
   series_row "Acumulado 2024" (VStr "Palacio Mundo Imperial") 9].

(** Two units that are numbers: 10, met first, and 9. *)
Definition numeric_series : list row :=
  [series_row "Enero 2025" (vnum 10) 4; series_row "Enero 2025" (vnum 9) 2].

(** The totals cell as the rules of the totals row read, over the cells of
    the unit column; [positive] tells which durations count for the average
    of an averaging metric. *)
Definition totals_by_rule (positive : number -> bool) (metric : string)
    (firstVal : value) (cells : list value) : value :=
  if is_time firstVal then
    let total := sum_list (map parseDuration cells) in
    let counted := filter (fun c => positive (parseDuration c)) cells in
    match startsWith metric "Promedio", counted with
    | true, _ :: _ => VStr (formatDuration (num_div total (count_of (List.length counted))))
    | _, _ => VStr (formatDuration total)
    end
  else if includes metric "Porcentaje" then
    match filter (fun c => num_gt (to_number c) zero) cells with
    | [] => VStr "0.00"
    | valid =>
        VStr (toFixed2 (num_div (sum_list (map parseFloat valid))
                                (count_of (List.length valid))))
    end
  else VNum (sum_list (map (fun c => or0 (to_number c)) cells)).

(** Durations other than zero. *)
Definition nonzero (n : number) : bool :=
  if number_eq_dec n zero then false else true.

(** Durations above zero. *)
Definition strictly_positive (n : number) : bool := num_gt n zero.

(** A series with an averaging metric, one duration being negative. *)
Definition pivot_series : list row :=
  [[(Mes_Anio, VStr "Enero 2025"); (Nombre_Unidad, VStr "Palacio Mundo Imperial");
    (Promedio_Tiempo_Productivo, VStr "2:00:00"); (Porcentaje_Cumplimiento, VStr "80.00");
    (Cantidad_Tickets, vnum 3)];
   [(Mes_Anio, VStr "Febrero 2025"); (Nombre_Unidad, VStr "Palacio Mundo Imperial");
    (Promedio_Tiempo_Productivo, VStr "-1:00:00"); (Porcentaje_Cumplimiento, VStr "0.00");
    (Cantidad_Tickets, VStr "4")]].

(** Its unit column and its periods, in display order. *)
Definition pivot_units : list value := [VStr "Palacio Mundo Imperial"].
Definition pivot_months : list value := [VStr "Enero 2025"; VStr "Febrero 2025"].

(** The period rows of its table for a metric. *)
Definition pivot_rows (metric : string) : list row :=
  table_rows pivot_series metric pivot_units pivot_months.

(** The sheet names of the workbook after one more file: the name the loop
    settles on is appended. *)
Definition add_sheet (sheetNames : list string) (file : string) : list string :=
  match finalSheetName sheetNames (cleanSheetName file) with
  | Some name => (sheetNames ++ [name])%list
  | None => sheetNames
  end.

(** A hundred and one reports of one directory whose names agree on their
    first 31 characters. *)
Definition preventive_file (n : nat) : string :=
  "Tickets_Mantenimiento_Preventivo_" ++ int_to_string (Z.of_nat n) ++ ".json".

(** The sheet names of the workbook after the first [n] of them. *)
Definition preventive_sheets (n : nat) : list string :=
  fold_left add_sheet (map preventive_file (seq 1 n)) [].

(** The number a digit string denotes, read onto [a]. *)
Fixpoint dec_value (p : string) (a : Z) : Z :=
  match p with
  | EmptyString => a
  | String c p' => dec_value p' (a * 10 + digit_val c)
  end.

(** The two digits of a number below 100. *)
Definition two_digits (n : Z) : string :=
  String (digit_char (n / 10)) (String (digit_char (n mod 10)) "").

(** The text of a duration whose floor is [F]. *)
Definition duration_text (F : Z) : string :=
  nat_dec (F / 3600) ++ ":" ++ two_digits (F / 60 mod 60) ++ ":"
    ++ two_digits (F mod 60).

(** Every character of [s] satisfies [p]. *)
Fixpoint string_forall (p : ascii -> bool) (s : string) : bool :=
  match s with
  | EmptyString => true
  | String c s' => p c && string_forall p s'
  end.

(** A unit of [UNIT_ORDER]. *)
Definition known (u : string) : bool := existsb (String.eqb u) UNIT_ORDER.

(** The titles the separator lines give, those that are not empty. *)
Definition headings (lines : list string) : list string :=
  filter (fun t => negb (String.eqb t "")) (map heading (filter is_separator lines)).

(** The title of the section being read, if there is one. *)
Definition current (currentTitle : option string) : list string :=
  match currentTitle with
  | Some (String c t) => [String c t]
  | _ => []
  end.

(** A collation for the examples: the order of the character codes. *)
Definition code_order (a b : string) : Z := if String.leb a b then -1 else 1.

(** * Properties *)

(** ** Objects *)

Section ObjectFacts.
Context {A : Type}.
Implicit Types (o : obj A) (k : string) (v : A).

Lemma obj_get_replace_same o k v :
  obj_has o k = true -> obj_get (obj_replace o k v) k = Some v.
Proof.
  unfold obj_has. induction o as [|[k' v'] o IH]; simpl; [discriminate|].
  destruct (String.eqb k' k) eqn:E; simpl; rewrite E; auto.
Qed.

Lemma obj_get_replace_other o k v k2 :
  k <> k2 -> obj_get (obj_replace o k v) k2 = obj_get o k2.
Proof.
  intros Hne. induction o as [|[k' v'] o IH]; simpl; [reflexivity|].
  destruct (String.eqb k' k) eqn:E; simpl.
  - apply String.eqb_eq in E. subst k'.
    destruct (String.eqb k k2) eqn:E2; [|reflexivity].
    apply String.eqb_eq in E2. contradiction.
  - rewrite IH. reflexivity.
Qed.

Lemma obj_get_insert_same o i k v :
  obj_get o k = None -> obj_get (obj_insert_index o i k v) k = Some v.
Proof.
  induction o as [|[k' v'] o IH]; simpl; intros H.
  - rewrite String.eqb_refl. reflexivity.
  - destruct (String.eqb k' k) eqn:E; [discriminate|].
    destruct (array_index k') as [j|]; [destruct (j <? i)|]; simpl;
      rewrite ?E, ?String.eqb_refl; auto.
Qed.

Lemma obj_get_insert_other o i k v k2 :
  k <> k2 -> obj_get (obj_insert_index o i k v) k2 = obj_get o k2.
Proof.
  intros Hne. apply String.eqb_neq in Hne.
  induction o as [|[k' v'] o IH]; simpl.
  - rewrite Hne. reflexivity.
  - destruct (array_index k') as [j|]; [destruct (j <? i)|]; simpl;
      rewrite ?Hne, ?IH; reflexivity.
Qed.

Lemma obj_get_app o o2 k :
  obj_get (o ++ o2)%list k =
  match obj_get o k with Some x => Some x | None => obj_get o2 k end.
Proof.
  induction o as [|[k' v'] o IH]; simpl; [reflexivity|].
  destruct (String.eqb k' k); auto.
Qed.

Lemma obj_get_set_same o k v : obj_get (obj_set o k v) k = Some v.
Proof.
  unfold obj_set. destruct (obj_has o k) eqn:H.
  - apply obj_get_replace_same. exact H.
  - assert (Hn : obj_get o k = None).
    { unfold obj_has in H. destruct (obj_get o k); [discriminate|reflexivity]. }
    destruct (array_index k).
    + apply obj_get_insert_same. exact Hn.
    + rewrite obj_get_app, Hn. simpl. rewrite String.eqb_refl. reflexivity.
Qed.

Lemma obj_get_set_other o k v k2 :
  k <> k2 -> obj_get (obj_set o k v) k2 = obj_get o k2.
Proof.
  intros Hne. unfold obj_set. destruct (obj_has o k).
  - apply obj_get_replace_other. exact Hne.
  - destruct (array_index k).
    + apply obj_get_insert_other. exact Hne.
    + rewrite obj_get_app. destruct (obj_get o k2); [reflexivity|].
      simpl. apply String.eqb_neq in Hne. rewrite Hne. reflexivity.
Qed.

Lemma obj_has_keys o k : obj_has o k = true <-> In k (keys o).
Proof.
  unfold obj_has, keys. induction o as [|[k' v'] o IH]; simpl.
  - split; [discriminate|tauto].
  - destruct (String.eqb k' k) eqn:E.
    + apply String.eqb_eq in E. tauto.
    + apply String.eqb_neq in E. rewrite IH. tauto.
Qed.
End ObjectFacts.

Lemma get_set_same (r : row) k v : get (obj_set r k v) k = v.
Proof. unfold get. rewrite obj_get_set_same. reflexivity. Qed.

Lemma get_set_other (r : row) k v k2 : k <> k2 -> get (obj_set r k v) k2 = get r k2.
Proof. intros H. unfold get. rewrite obj_get_set_other by exact H. reflexivity. Qed.

(** A row built by assigning [f key] to every key of a list holds [f k]
    under each of these keys and is unchanged elsewhere. *)
Lemma get_fold_assign (f : string -> value) (ks : list string) (r : row) (k : string) :
  get (fold_left (fun z key => obj_set z key (f key)) ks r) k =
  if in_dec string_dec k ks then f k else get r k.
Proof.
  revert r. induction ks as [|k0 ks IH]; intros r; simpl; [reflexivity|].
  rewrite IH. destruct (in_dec string_dec k ks) as [Hin|Hin].
  - destruct (string_dec k0 k); reflexivity.
  - destruct (string_dec k0 k) as [->|Hne].
    + apply get_set_same.
    + destruct (in_dec string_dec k ks); [contradiction|].
      apply get_set_other. exact Hne.
Qed.

(** ** Numbers *)

Lemma Qc_eqb_true (a b : Qc) : Qc_eqb a b = true <-> a = b.
Proof. unfold Qc_eqb. destruct (Qc_eq_dec a b); split; congruence. Qed.

Lemma num_add_comm (a b : number) : num_add a b = num_add b a.
Proof. destruct a, b; simpl; try reflexivity. f_equal. apply Qcplus_comm. Qed.

Lemma num_add_assoc (a b c : number) :
  num_add a (num_add b c) = num_add (num_add a b) c.
Proof. destruct a, b, c; simpl; try reflexivity. f_equal. apply Qcplus_assoc. Qed.

Lemma num_add_zero_l (a : number) : num_add zero a = a.
Proof. destruct a; simpl; try reflexivity. f_equal. apply Qcplus_0_l. Qed.

Lemma num_add_zero_r (a : number) : num_add a zero = a.
Proof. rewrite num_add_comm. apply num_add_zero_l. Qed.

(** On a number that is not [NaN], [n || 0] is [n]. *)
Lemma or0_not_nan (a : number) : num_is_nan a = false -> or0 a = a.
Proof.
  destruct a; simpl; try reflexivity; try discriminate. intros _.
  unfold or0, num_truthy. destruct (Qc_eqb q (QcZ 0)) eqn:E; simpl; [|reflexivity].
  apply Qc_eqb_true in E. subst q. reflexivity.
Qed.

Lemma fold_left_num_add {B : Type} (f : B -> number) (l : list B) (a : number) :
  fold_left (fun acc x => num_add acc (f x)) l a = num_add a (sum_list (map f l)).
Proof.
  revert a. induction l as [|x l IH]; intros a; simpl.
  - symmetry. apply num_add_zero_r.
  - rewrite IH. symmetry. apply num_add_assoc.
Qed.

Lemma fold_left_num_add_zero {B : Type} (f : B -> number) (l : list B) :
  fold_left (fun acc x => num_add acc (f x)) l zero = sum_list (map f l).
Proof. rewrite fold_left_num_add. apply num_add_zero_l. Qed.

(** ** Rule dispatch *)


(** ** Tickets-General *)

(** Equality of two closed finite numbers, by evaluation. *)
Ltac num_eq :=
  match goal with
  | |- Fin _ = Fin _ => apply f_equal; apply Qc_is_canon; vm_compute; reflexivity
  | |- VNum _ = VNum _ => apply f_equal; num_eq
  | |- _ => vm_compute; reflexivity
  end.

Ltac get_set :=
  repeat first
    [ rewrite get_set_same
    | rewrite get_set_other by (unfold Cantidad_Tickets, Total_Tiempo_Productivo,
        Promedio_Tiempo_Productivo, Promedio_Tiempo_Estimado,
        Porcentaje_Cumplimiento; discriminate) ].

(** The five columns the strategy writes, in terms of the three totals. *)
Lemma processTicketsGeneral_columns (summaryRow : row) (rows : list row) :
  let count := sum_column Cantidad_Tickets rows in
  let prod := totalTimeProdSec rows in
  let est := totalEstSec rows in
  let out := processTicketsGeneral summaryRow rows in
  get out Cantidad_Tickets = VNum count
  /\ get out Total_Tiempo_Productivo = VStr (formatDuration prod)
  /\ get out Promedio_Tiempo_Productivo
     = VStr (if num_gt count zero then formatDuration (num_div prod count)
             else "0:00:00")
  /\ get out Promedio_Tiempo_Estimado
     = VStr (if num_gt count zero then formatDuration (num_div est count)
             else "0:00:00")
  /\ get out Porcentaje_Cumplimiento
     = VStr (if num_gt count zero
             then (if num_gt prod zero
                   then toFixed2 (num_mul (num_div est prod) (num 100))
                   else "0.00")
             else "0.00").
Proof.
  intros count prod est out. subst out. unfold processTicketsGeneral.
  fold count. fold prod. fold est. cbv zeta. get_set.
  change (to_number (VNum count)) with count.
  destruct (num_gt count zero) eqn:Hc; get_set;
    change (to_number (VNum count)) with count; rewrite Hc.
  - destruct (num_gt prod zero); get_set; repeat split; reflexivity.
  - get_set. repeat split; reflexivity.
Qed.

(** C2. A group of two rows with counts 3 and 2, productive durations
    1:00:00 and 0:30:00 and estimated averages 0:50:00 and 0:20:00 gives the
    count 5, the total 1:30:00 (5400 s), the average 0:18:00 (1080 s), the
    rebuilt estimated total 11400 s, the estimated average 0:38:00 (2280 s)
    and the compliance 211.11; and a group whose counts sum to 0 gets the
    averages 0:00:00 and the compliance 0.00. *)
Theorem tickets_general_accumulation :
  (forall (summaryRow r1 r2 : row),
      to_number (get r1 Cantidad_Tickets) = num 3 ->
      to_number (get r2 Cantidad_Tickets) = num 2 ->
      get r1 Total_Tiempo_Productivo = VStr "1:00:00" ->
      get r2 Total_Tiempo_Productivo = VStr "0:30:00" ->
      get r1 Promedio_Tiempo_Estimado = VStr "0:50:00" ->
      get r2 Promedio_Tiempo_Estimado = VStr "0:20:00" ->
      let out := processTicketsGeneral summaryRow [r1; r2] in
      get out Cantidad_Tickets = vnum 5
      /\ totalTimeProdSec [r1; r2] = num 5400
      /\ get out Total_Tiempo_Productivo = VStr (formatDuration (num 5400))
      /\ formatDuration (num 5400) = "1:30:00"
      /\ get out Promedio_Tiempo_Productivo = VStr (formatDuration (num 1080))
      /\ formatDuration (num 1080) = "0:18:00"
      /\ totalEstSec [r1; r2] = num (3 * 3000 + 2 * 1200)
      /\ get out Promedio_Tiempo_Estimado = VStr (formatDuration (num 2280))
      /\ formatDuration (num 2280) = "0:38:00"
      /\ get out Porcentaje_Cumplimiento = VStr "211.11")
  /\ (forall (summaryRow : row) (rows : list row),
         sum_column Cantidad_Tickets rows = zero ->
         let out := processTicketsGeneral summaryRow rows in
         get out Promedio_Tiempo_Productivo = VStr "0:00:00"
         /\ get out Promedio_Tiempo_Estimado = VStr "0:00:00"
         /\ get out Porcentaje_Cumplimiento = VStr "0.00").
Proof.
  split.
  - intros summaryRow r1 r2 Hc1 Hc2 Hp1 Hp2 He1 He2 out.
    assert (Hcount : sum_column Cantidad_Tickets [r1; r2] = num 5).
    { unfold sum_column. simpl. rewrite Hc1, Hc2. num_eq. }
    assert (Hprod : totalTimeProdSec [r1; r2] = num 5400).
    { unfold totalTimeProdSec. simpl. rewrite Hp1, Hp2. num_eq. }
    assert (Hest : totalEstSec [r1; r2] = num 11400).
    { unfold totalEstSec. simpl. rewrite He1, He2, Hc1, Hc2. num_eq. }
    destruct (processTicketsGeneral_columns summaryRow [r1; r2])
      as (G1 & G2 & G3 & G4 & G5).
    fold out in G1, G2, G3, G4, G5.
    rewrite Hcount in G1, G3, G4, G5. rewrite Hprod in G2, G3, G5.
    rewrite Hest in G4, G5.
    repeat apply conj.
    + exact G1.
    + exact Hprod.
    + exact G2.
    + vm_compute. reflexivity.
    + rewrite G3. vm_compute. reflexivity.
    + vm_compute. reflexivity.
    + rewrite Hest. num_eq.
    + rewrite G4. vm_compute. reflexivity.
    + vm_compute. reflexivity.
    + rewrite G5. vm_compute. reflexivity.
  - intros summaryRow rows Hzero out.
    destruct (processTicketsGeneral_columns summaryRow rows) as (_ & _ & G3 & G4 & G5).
    fold out in G3, G4, G5. rewrite Hzero in G3, G4, G5.
    repeat apply conj; assumption.
Qed.

Lemma tickets_general_accumulation_witness :
  get (processTicketsGeneral (new_summary "Palacio Mundo Imperial")
         [tickets_row 3 "1:00:00" "0:50:00"; tickets_row 2 "0:30:00" "0:20:00"])
      Porcentaje_Cumplimiento = VStr "211.11"
  /\ get (processTicketsGeneral (new_summary "Palacio Mundo Imperial")
            [tickets_row 0 "1:00:00" "0:50:00"])
         Promedio_Tiempo_Productivo = VStr "0:00:00".
Proof.
  split.
  - apply (proj1 tickets_general_accumulation
             (new_summary "Palacio Mundo Imperial")
             (tickets_row 3 "1:00:00" "0:50:00") (tickets_row 2 "0:30:00" "0:20:00"));
      reflexivity.
  - apply (proj2 tickets_general_accumulation
             (new_summary "Palacio Mundo Imperial") [tickets_row 0 "1:00:00" "0:50:00"]).
    vm_compute. reflexivity.
Defined.

(** ** Generic Counts *)

Lemma generic_step_get (rows : list row) (s : row) (key k : string) :
  get (generic_step rows s key) k =
  if String.eqb key k && negb (privileged key) then generic_value rows key
  else get s k.
Proof.
  unfold generic_step, generic_value. fold (privileged key).
  destruct (privileged key); simpl.
  - rewrite andb_false_r. reflexivity.
  - rewrite andb_true_r. destruct (String.eqb key k) eqn:E.
    + apply String.eqb_eq in E. subst k.
      destruct (column_is_numeric key rows); apply get_set_same.
    + apply String.eqb_neq in E.
      destruct (column_is_numeric key rows); apply get_set_other; exact E.
Qed.

Lemma generic_fold_get (rows : list row) (ks : list string) (s : row) (k : string) :
  In k ks -> privileged k = false ->
  get (fold_left (generic_step rows) ks s) k = generic_value rows k.
Proof.
  intros Hin Hp. revert s Hin.
  induction ks as [|k0 ks IH]; intros s Hin; [destruct Hin|].
  simpl. destruct (in_dec string_dec k ks) as [H|H].
  - apply IH. exact H.
  - destruct Hin as [->|Hin]; [|contradiction].
    clear IH. revert s. induction ks as [|k1 ks IH]; intros s; simpl.
    + rewrite generic_step_get, String.eqb_refl, Hp. reflexivity.
    + assert (Hne : k1 <> k) by (intros ->; apply H; left; reflexivity).
      assert (H' : ~ In k ks) by (intros Hk; apply H; right; exact Hk).
      specialize (IH H'). simpl in IH.
      (* the assignment to k1 does not touch column k *)
      assert (Hcomm : forall s1 s2, get s1 k = get s2 k ->
                get (fold_left (generic_step rows) ks s1) k
                = get (fold_left (generic_step rows) ks s2) k).
      { clear - H'. induction ks as [|k2 ks IHk]; intros s1 s2 E; simpl; [exact E|].
        apply IHk.
        - intros Hk. apply H'. right. exact Hk.
        - rewrite !generic_step_get. destruct (String.eqb k2 k && negb (privileged k2));
            [reflexivity|exact E]. }
      rewrite <- (IH s). apply Hcomm.
      rewrite (generic_step_get rows (generic_step rows s k) k1 k).
      apply String.eqb_neq in Hne. rewrite Hne. reflexivity.
Qed.

Lemma column_is_numeric_true (key : string) (rows : list row) :
  column_is_numeric key rows = true <->
  (forall r, In r rows -> to_number (get r key) <> NaN).
Proof.
  unfold column_is_numeric. rewrite forallb_forall. split; intros H r Hr.
  - specialize (H r Hr). destruct (to_number (get r key)); simpl in H; congruence.
  - specialize (H r Hr). destruct (to_number (get r key)); simpl; congruence.
Qed.

Lemma sum_column_numeric (key : string) (rows : list row) :
  column_is_numeric key rows = true ->
  sum_column key rows = sum_list (map (fun r => to_number (get r key)) rows).
Proof.
  intros H. unfold sum_column.
  rewrite (fold_left_num_add_zero (fun r => or0 (to_number (get r key)))).
  f_equal. apply map_ext_in. intros r Hr. apply or0_not_nan.
  unfold column_is_numeric in H. rewrite forallb_forall in H.
  specialize (H r Hr). destruct (num_is_nan (to_number (get r key)));
    [discriminate|reflexivity].
Qed.



(** ** Rows without a unit *)

Section GroupFacts.
Implicit Types (g : obj (list row)) (k : string) (v : list row).

Lemma obj_get_drop_na g k : k <> NA -> obj_get (drop_na g) k = obj_get g k.
Proof.
  intros Hk. induction g as [|[k' v'] g IH]; simpl; [reflexivity|].
  destruct (String.eqb k' NA) eqn:E; simpl.
  - apply String.eqb_eq in E. subst k'.
    destruct (String.eqb NA k) eqn:E2; [|exact IH].
    apply String.eqb_eq in E2. congruence.
  - rewrite IH. reflexivity.
Qed.

Lemma drop_na_replace g k v :
  k <> NA -> drop_na (obj_replace g k v) = obj_replace (drop_na g) k v.
Proof.
  intros Hk. induction g as [|[k' v'] g IH]; simpl; [reflexivity|].
  destruct (String.eqb k' k) eqn:E.
  - apply String.eqb_eq in E. subst k'. apply String.eqb_neq in Hk.
    simpl. rewrite Hk. simpl. rewrite String.eqb_refl. reflexivity.
  - simpl. destruct (String.eqb k' NA); simpl; rewrite ?E, IH; reflexivity.
Qed.

Lemma drop_na_plain g : forallb plain_key g = true -> forallb plain_key (drop_na g) = true.
Proof.
  induction g as [|e g IH]; simpl; [reflexivity|].
  intros H. apply andb_prop in H. destruct H as [He Hg].
  destruct (negb (String.eqb (fst e) NA)); simpl; rewrite ?He; auto.
Qed.

Lemma insert_index_plain g i k v :
  forallb plain_key g = true -> obj_insert_index g i k v = (k, v) :: g.
Proof.
  destruct g as [|[k' v'] g]; simpl; [reflexivity|].
  unfold plain_key at 1. simpl. destruct (array_index k'); [discriminate|reflexivity].
Qed.

Lemma drop_na_insert g i k v :
  indices_first g = true -> k <> NA ->
  drop_na (obj_insert_index g i k v) = obj_insert_index (drop_na g) i k v.
Proof.
  intros Hwf Hk. apply String.eqb_neq in Hk.
  induction g as [|[k' v'] g IH]; simpl.
  - rewrite Hk. reflexivity.
  - simpl in Hwf. unfold plain_key at 1 in Hwf. simpl in Hwf.
    destruct (array_index k') as [j|] eqn:Ej.
    + assert (Hne : String.eqb k' NA = false).
      { apply String.eqb_neq. intros ->. discriminate. }
      destruct (j <? i) eqn:Eji; simpl; rewrite Hne; simpl; rewrite ?Ej, ?Eji, ?Hk;
        [rewrite (IH Hwf)|]; reflexivity.
    + simpl. rewrite Hk. simpl.
      destruct (String.eqb k' NA); simpl.
      * rewrite insert_index_plain by (apply drop_na_plain; exact Hwf). reflexivity.
      * rewrite Ej. reflexivity.
Qed.

Lemma obj_has_drop_na g k : k <> NA -> obj_has (drop_na g) k = obj_has g k.
Proof. intros Hk. unfold obj_has. rewrite obj_get_drop_na by exact Hk. reflexivity. Qed.

Lemma drop_na_set g k v :
  indices_first g = true -> k <> NA ->
  drop_na (obj_set g k v) = obj_set (drop_na g) k v.
Proof.
  intros Hwf Hk. unfold obj_set. rewrite obj_has_drop_na by exact Hk.
  destruct (obj_has g k).
  - apply drop_na_replace. exact Hk.
  - destruct (array_index k).
    + apply drop_na_insert; assumption.
    + unfold drop_na. rewrite filter_app. simpl.
      apply String.eqb_neq in Hk. rewrite Hk. reflexivity.
Qed.

Lemma drop_na_set_na g v : drop_na (obj_set g NA v) = drop_na g.
Proof.
  unfold obj_set. destruct (obj_has g NA).
  - induction g as [|[k' v'] g IH]; simpl; [reflexivity|].
    destruct (String.eqb k' NA) eqn:E; simpl; rewrite E; simpl; [reflexivity|].
    rewrite IH. reflexivity.
  - change (array_index NA) with (@None Z). unfold drop_na.
    rewrite filter_app. simpl. apply app_nil_r.
Qed.

Lemma replace_keys g k v : map plain_key (obj_replace g k v) = map plain_key g.
Proof.
  induction g as [|[k' v'] g IH]; simpl; [reflexivity|].
  destruct (String.eqb k' k); simpl; rewrite ?IH; reflexivity.
Qed.

Lemma forallb_by_keys (g g2 : obj (list row)) :
  map plain_key g = map plain_key g2 -> forallb plain_key g = forallb plain_key g2.
Proof.
  revert g2. induction g as [|e g IH]; intros [|e2 g2] H; simpl in *;
    try discriminate; [reflexivity|].
  injection H as He Hg. rewrite He, (IH g2 Hg). reflexivity.
Qed.

Lemma indices_first_by_keys (g g2 : obj (list row)) :
  map plain_key g = map plain_key g2 -> indices_first g = indices_first g2.
Proof.
  revert g2. induction g as [|e g IH]; intros [|e2 g2] H; simpl in *;
    try discriminate; [reflexivity|].
  injection H as He Hg. rewrite He.
  destruct (plain_key e2); [apply forallb_by_keys|apply IH]; exact Hg.
Qed.

Lemma indices_first_set g k v :
  indices_first g = true -> indices_first (obj_set g k v) = true.
Proof.
  intros Hwf. unfold obj_set. destruct (obj_has g k).
  - rewrite (indices_first_by_keys _ g); [exact Hwf|apply replace_keys].
  - destruct (array_index k) as [i|] eqn:Ek.
    + induction g as [|[k' v'] g IH]; simpl.
      * unfold plain_key. simpl. rewrite Ek. reflexivity.
      * simpl in Hwf. unfold plain_key at 1 in Hwf. simpl in Hwf.
        destruct (array_index k') as [j|] eqn:Ej.
        -- destruct (j <? i); simpl; unfold plain_key at 1; simpl; rewrite ?Ek, ?Ej.
           ++ apply IH. exact Hwf.
           ++ simpl. unfold plain_key at 1. simpl. rewrite Ej. exact Hwf.
        -- simpl. unfold plain_key at 1. simpl. rewrite Ek. simpl.
           unfold plain_key at 1. simpl. rewrite Ej. exact Hwf.
    + induction g as [|e g IH]; simpl.
      * unfold plain_key. simpl. rewrite Ek. reflexivity.
      * simpl in Hwf. destruct (plain_key e).
        -- rewrite forallb_app, Hwf. simpl. unfold plain_key. simpl. rewrite Ek.
           reflexivity.
        -- apply IH. exact Hwf.
Qed.
End GroupFacts.

Lemma add_to_group_na (g : obj (list row)) (r : row) :
  unit_key r = NA ->
  exists g', add_to_group g r = Some g' /\ drop_na g' = drop_na g
             /\ (indices_first g = true -> indices_first g' = true).
Proof.
  intros Hk. unfold add_to_group. rewrite Hk.
  destruct (obj_get g NA) as [rows|].
  - eexists. split; [reflexivity|]. split;
      [apply drop_na_set_na|apply indices_first_set].
  - change (existsb (String.eqb NA) inherited_names) with false.
    eexists. split; [reflexivity|]. split;
      [apply drop_na_set_na|apply indices_first_set].
Qed.

Lemma add_to_group_unit (g : obj (list row)) (r : row) :
  indices_first g = true -> unit_key r <> NA ->
  add_to_group (drop_na g) r = option_map drop_na (add_to_group g r)
  /\ (forall g', add_to_group g r = Some g' -> indices_first g' = true).
Proof.
  intros Hwf Hk. unfold add_to_group.
  rewrite obj_get_drop_na by exact Hk.
  destruct (obj_get g (unit_key r)) as [rows|].
  - simpl. rewrite drop_na_set by assumption. split; [reflexivity|].
    intros g' [= <-]. apply indices_first_set. exact Hwf.
  - destruct (existsb (String.eqb (unit_key r)) inherited_names); simpl.
    + split; [reflexivity|discriminate].
    + rewrite drop_na_set by assumption. split; [reflexivity|].
      intros g' [= <-]. apply indices_first_set. exact Hwf.
Qed.

Lemma group_rows_drop_na (data : list row) (g : obj (list row)) :
  indices_first g = true ->
  group_rows (filter has_unit data) (drop_na g)
  = option_map drop_na (group_rows data g).
Proof.
  revert g. induction data as [|r data IH]; intros g Hwf; simpl; [reflexivity|].
  unfold has_unit at 1. destruct (String.eqb (unit_key r) NA) eqn:E; simpl.
  - apply String.eqb_eq in E.
    destruct (add_to_group_na g r E) as (g' & Hadd & Hdrop & Hwf').
    rewrite Hadd, <- Hdrop. apply IH. apply Hwf'. exact Hwf.
  - apply String.eqb_neq in E.
    destruct (add_to_group_unit g r Hwf E) as [Hadd Hwf'].
    rewrite Hadd. destruct (add_to_group g r) as [g'|]; simpl; [|reflexivity].
    apply IH. apply Hwf'. reflexivity.
Qed.

Lemma summarize_drop_na (name : string) (g : obj (list row)) :
  summarize name (drop_na g) = summarize name g.
Proof.
  induction g as [|[unit rows] g IH]; simpl; [reflexivity|].
  change "N/A" with NA. destruct (String.eqb unit NA) eqn:E; simpl; [exact IH|].
  change "N/A" with NA. rewrite E, IH. reflexivity.
Qed.

Lemma generic_keeps_unit (rows : list row) (ks : list string) (s : row) :
  get (fold_left (generic_step rows) ks s) Nombre_Unidad = get s Nombre_Unidad.
Proof.
  revert s. induction ks as [|k ks IH]; intros s; simpl; [reflexivity|].
  rewrite IH, generic_step_get.
  destruct (String.eqb k Nombre_Unidad) eqn:E; [|reflexivity].
  apply String.eqb_eq in E. subst k. reflexivity.
Qed.

Lemma apply_rule_keeps_unit (rl : rule) (unit : string) (rows : list row) (out : row) :
  apply_rule rl (new_summary unit) rows = Some out ->
  get out Nombre_Unidad = VStr unit.
Proof.
  assert (Hg : forall o, processGenericCounts (new_summary unit) rows = Some o ->
                         get o Nombre_Unidad = VStr unit).
  { unfold processGenericCounts. destruct rows as [|r0 rest]; [discriminate|].
    intros o [= <-]. rewrite generic_keeps_unit. reflexivity. }
  destruct rl; simpl; try exact (Hg out).
  intros [= <-]. unfold processTicketsGeneral. cbv zeta.
  repeat match goal with
         | |- context [if ?c then _ else _] => destruct c
         end;
    repeat (rewrite get_set_other by
              (unfold Cantidad_Tickets, Total_Tiempo_Productivo,
                 Promedio_Tiempo_Productivo, Promedio_Tiempo_Estimado,
                 Porcentaje_Cumplimiento, Nombre_Unidad; discriminate));
    reflexivity.
Qed.

Lemma summarize_units (name : string) (g : obj (list row)) (out : list row) :
  summarize name g = Some out ->
  forall s, In s out -> get s Nombre_Unidad <> VStr NA.
Proof.
  revert out. induction g as [|[unit rows] g IH]; simpl; intros out H s Hs.
  - injection H as <-. destruct Hs.
  - change "N/A" with NA in H. destruct (String.eqb unit NA) eqn:E.
    + exact (IH out H s Hs).
    + destruct (apply_rule (select_rule name) (new_summary unit) rows) as [sr|] eqn:Er;
        [|discriminate].
      destruct (summarize name g) as [rest|]; [|discriminate].
      injection H as <-. destruct Hs as [<-|Hs].
      * rewrite (apply_rule_keeps_unit _ _ _ _ Er).
        apply String.eqb_neq in E. congruence.
      * exact (IH rest eq_refl s Hs).
Qed.

(** C9. A row whose unit is the string N/A, the empty string, the number 0,
    null or absent is grouped under the key N/A; the accumulation of a
    report is the accumulation of its rows grouped under another key, and
    no accumulation row carries the unit N/A. *)
Theorem rows_without_unit_are_dropped (filename : string) (data : list row) :
  (forall r : row,
      get r Nombre_Unidad = VStr "N/A" \/ get r Nombre_Unidad = VStr ""
      \/ get r Nombre_Unidad = vnum 0 \/ get r Nombre_Unidad = VNull
      \/ obj_has r Nombre_Unidad = false ->
      unit_key r = "N/A")
  /\ aggregateData filename data
     = aggregateData filename
         (filter (fun r => negb (String.eqb (unit_key r) "N/A")) data)
  /\ (forall out, aggregateData filename data = Some out ->
                  forall s, In s out -> get s Nombre_Unidad <> VStr "N/A").
Proof.
  split; [|split].
  - intros r H. unfold unit_key.
    assert (Habs : obj_has r Nombre_Unidad = false -> get r Nombre_Unidad = VUndef).
    { unfold obj_has, get. destruct (obj_get r Nombre_Unidad); [discriminate|reflexivity]. }
    destruct H as [H|[H|[H|[H|H]]]]; try apply Habs in H; rewrite H; reflexivity.
  - change (fun r => negb (String.eqb (unit_key r) "N/A")) with has_unit.
    unfold aggregateData. destruct data as [|r data]; [reflexivity|].
    pose proof (group_rows_drop_na (r :: data) [] eq_refl) as H.
    change (drop_na []) with (@nil (string * list row)) in H.
    remember (group_rows (r :: data) []) as grouped eqn:Eg. clear Eg.
    destruct (filter has_unit (r :: data)) as [|r' data'] eqn:Ef.
    + destruct grouped as [g|]; simpl in H; [|discriminate].
      injection H as H. rewrite <- summarize_drop_na, <- H. reflexivity.
    + rewrite H. destruct grouped as [g|]; simpl; [|reflexivity].
      apply eq_sym, summarize_drop_na.
  - intros out H. unfold aggregateData in H. destruct data as [|r data].
    + injection H as <-. intros s [].
    + destruct (group_rows (r :: data) []) as [g|]; [|discriminate].
      exact (summarize_units _ _ _ H).
Qed.

Lemma rows_without_unit_are_dropped_witness :
  unit_key (unit_row VNull 4) = "N/A"
  /\ forall s,
      In s [[(Mes_Anio, VStr "Acumulado 2025"); (Nombre_Unidad, VStr "Palacio");
             ("Total_Tickets_TI", vnum 7)]] ->
      get s Nombre_Unidad <> VStr "N/A".
Proof.
  pose proof (rows_without_unit_are_dropped "tecnologia.json"
                [unit_row (VStr "N/A") 1; unit_row (VStr "Palacio") 7; unit_row VNull 4])
    as (Hkey & _ & Hout).
  split.
  - apply Hkey. right. right. right. left. reflexivity.
  - apply Hout. vm_compute. reflexivity.
Defined.

(** ** The filled series *)

Lemma value_eqb_true (a b : value) : value_eqb a b = true <-> a = b.
Proof. unfold value_eqb. destruct (value_eq_dec a b); split; congruence. Qed.

Lemma strict_eq_eq (a b : value) : strict_eq a b = true -> a = b.
Proof.
  unfold strict_eq.
  destruct a as [| | |[]|], b as [| | |[]|]; try discriminate;
    match goal with
    | |- context [value_eq_dec ?x ?y] => destruct (value_eq_dec x y); congruence
    end.
Qed.

Lemma strict_eq_string (a : value) (s : string) :
  strict_eq a (VStr s) = value_eqb a (VStr s).
Proof. destruct a as [| | |[]|]; reflexivity. Qed.

Section Distinct.
Lemma distinct_acc_in (l seen : list value) (x : value) :
  In x (distinct_acc l seen) <-> In x l /\ ~ In x seen.
Proof.
  revert seen. induction l as [|v l IH]; intros seen; simpl; [tauto|].
  destruct (existsb (value_eqb v) seen) eqn:E.
  - rewrite IH. apply existsb_exists in E. destruct E as (y & Hy & Hvy).
    apply value_eqb_true in Hvy. subst y. split.
    + tauto.
    + intros [[<-|H] Hn]; [contradiction|tauto].
  - assert (Hv : ~ In v seen).
    { intros Hin. assert (existsb (value_eqb v) seen = true); [|congruence].
      apply existsb_exists. exists v. split; [exact Hin|apply value_eqb_true; reflexivity]. }
    simpl. rewrite IH. simpl. split.
    + intros [<-|[H1 H2]]; [tauto|]. split; [tauto|]. intros H. apply H2. tauto.
    + intros [[<-|H1] H2]; [tauto|]. destruct (value_eq_dec v x) as [->|Hne]; [tauto|].
      right. split; [exact H1|]. intros [Hc|Hc]; [congruence|contradiction].
Qed.

Lemma distinct_acc_nodup (l seen : list value) : NoDup (distinct_acc l seen).
Proof.
  revert seen. induction l as [|v l IH]; intros seen; simpl; [constructor|].
  destruct (existsb (value_eqb v) seen); [apply IH|].
  constructor; [|apply IH].
  rewrite distinct_acc_in. simpl. tauto.
Qed.

Lemma distinct_in (l : list value) (x : value) : In x (distinct l) <-> In x l.
Proof. unfold distinct. rewrite distinct_acc_in. simpl. tauto. Qed.

Lemma distinct_nodup (l : list value) : NoDup (distinct l).
Proof. apply distinct_acc_nodup. Qed.
End Distinct.

Lemma zeroRow_get (ks : list string) (month : string) (unit : value) (k : string) :
  In k ks -> get (zeroRow ks month unit) k = zero_value month unit k.
Proof.
  intros Hin. unfold zeroRow.
  rewrite (get_fold_assign (zero_value month unit)).
  destruct (in_dec string_dec k ks); [reflexivity|contradiction].
Qed.

Lemma zeroRow_period_unit (ks : list string) (month : string) (unit : value) :
  In Mes_Anio ks -> In Nombre_Unidad ks ->
  period_unit (zeroRow ks month unit) = (VStr month, unit).
Proof.
  intros Hm Hu. unfold period_unit. rewrite !zeroRow_get by assumption. reflexivity.
Qed.

Lemma month_rows_cases (ks : list string) (unit : value) (unitRows : list row)
    (month : string) :
  (exists e, month_rows ks unit unitRows month = [e] /\ In e unitRows
             /\ get e Mes_Anio = VStr month)
  \/ (month_rows ks unit unitRows month = [zeroRow ks month unit]
      /\ forall r, In r unitRows -> get r Mes_Anio <> VStr month).
Proof.
  unfold month_rows.
  destruct (existsb (fun r => value_eqb (get r Mes_Anio) (VStr month)) unitRows) eqn:E.
  - left. apply existsb_exists in E. destruct E as (r & Hr & Hrm).
    destruct (find (fun r => strict_eq (get r Mes_Anio) (VStr month)) unitRows)
      as [e|] eqn:Ef.
    + apply find_some in Ef. destruct Ef as [He Hem].
      exists e. repeat split; [exact He|]. apply strict_eq_eq. exact Hem.
    + exfalso. apply (find_none _ _ Ef) in Hr.
      rewrite strict_eq_string in Hr. congruence.
  - right. split; [reflexivity|]. intros r Hr Hrm.
    assert (existsb (fun r => value_eqb (get r Mes_Anio) (VStr month)) unitRows = true);
      [|congruence].
    apply existsb_exists. exists r. split; [exact Hr|]. apply value_eqb_true. exact Hrm.
Qed.

Section Filled.
Variables (data : list row) (ks : list string).
Hypothesis Hmes : In Mes_Anio ks.
Hypothesis Hunit : In Nombre_Unidad ks.

Lemma unit_rows_periods (unit : value) (months : list string) :
  map period_unit
      (flat_map (month_rows ks unit
                   (filter (fun r => strict_eq (get r Nombre_Unidad) unit) data))
                months)
  = map (fun m => (VStr m, unit)) months.
Proof.
  induction months as [|m months IH]; simpl; [reflexivity|].
  rewrite map_app, IH. f_equal.
  destruct (month_rows_cases ks unit
              (filter (fun r => strict_eq (get r Nombre_Unidad) unit) data) m)
    as [(e & -> & He & Hem)|[-> _]]; simpl.
  - apply filter_In in He. destruct He as [_ He]. apply strict_eq_eq in He.
    unfold period_unit. rewrite Hem, He. reflexivity.
  - rewrite zeroRow_period_unit by assumption. reflexivity.
Qed.

Lemma filled_periods (units : list value) :
  map period_unit (flat_map (unit_rows data ks) units)
  = flat_map (fun u => map (fun m => (VStr m, u)) MONTHS_2025) units.
Proof.
  induction units as [|u units IH]; [reflexivity|].
  change (map period_unit
            (unit_rows data ks u ++ flat_map (unit_rows data ks) units)%list
          = (map (fun m => (VStr m, u)) MONTHS_2025
             ++ flat_map (fun u => map (fun m => (VStr m, u)) MONTHS_2025) units)%list).
  rewrite map_app, IH. f_equal. apply unit_rows_periods.
Qed.
End Filled.

Section SortFacts.
Context {A : Type} (cmp : A -> A -> Z).

Lemma sort_insert_perm (x : A) (l : list A) : Permutation (sort_insert cmp x l) (x :: l).
Proof.
  induction l as [|y l IH]; simpl; [reflexivity|].
  destruct (cmp x y <=? 0); [reflexivity|].
  rewrite IH. apply perm_swap.
Qed.

Lemma js_sort_perm (l : list A) : Permutation (js_sort cmp l) l.
Proof.
  induction l as [|x l IH]; simpl; [reflexivity|].
  rewrite sort_insert_perm. constructor. exact IH.
Qed.

(** Where the comparator is a total preorder on the elements of the list,
    the result is sorted by it. *)
Variable good : A -> Prop.
Hypothesis cmp_total : forall a b, good a -> good b -> cmp a b <= 0 \/ cmp b a <= 0.
Hypothesis cmp_trans :
  forall a b c, good a -> good b -> good c -> cmp a b <= 0 -> cmp b c <= 0 -> cmp a c <= 0.

Lemma sort_insert_sorted (x : A) (l : list A) :
  good x -> Forall good l ->
  StronglySorted (fun a b => cmp a b <= 0) l ->
  StronglySorted (fun a b => cmp a b <= 0) (sort_insert cmp x l).
Proof.
  intros Hx Hl Hs. induction Hs as [|y l Hs IH Hy]; simpl.
  - constructor; constructor.
  - inversion Hl as [|? ? Hgy Hgl]; subst.
    destruct (cmp x y <=? 0) eqn:E.
    + apply Z.leb_le in E. constructor; [constructor; assumption|].
      constructor; [exact E|].
      rewrite Forall_forall in Hy, Hgl. apply Forall_forall. intros z Hz.
      apply (cmp_trans x y z); auto.
    + apply Z.leb_gt in E. constructor; [apply IH; exact Hgl|].
      assert (Hyx : cmp y x <= 0).
      { destruct (cmp_total x y Hx Hgy); [lia|assumption]. }
      rewrite (sort_insert_perm x l). constructor; assumption.
Qed.

Lemma js_sort_sorted (l : list A) :
  Forall good l -> StronglySorted (fun a b => cmp a b <= 0) (js_sort cmp l).
Proof.
  induction 1 as [|x l Hx Hl IH]; simpl; [constructor|].
  apply sort_insert_sorted; [exact Hx| |exact IH].
  rewrite js_sort_perm. exact Hl.
Qed.
End SortFacts.

(** *** Lexicographic order on strings *)

Lemma ascii_compare_refl (a : ascii) : Ascii.compare a a = Eq.
Proof. unfold Ascii.compare. apply N.compare_refl. Qed.

Lemma ascii_compare_lt_trans (a b c : ascii) :
  Ascii.compare a b = Lt -> Ascii.compare b c = Lt -> Ascii.compare a c = Lt.
Proof.
  unfold Ascii.compare. rewrite !N.compare_lt_iff. apply N.lt_trans.
Qed.

Lemma string_compare_lt_trans (s t u : string) :
  String.compare s t = Lt -> String.compare t u = Lt -> String.compare s u = Lt.
Proof.
  revert t u. induction s as [|a s IH]; intros [|b t] [|c u]; simpl;
    try discriminate; try reflexivity.
  destruct (Ascii.compare a b) eqn:Eab; try discriminate;
    destruct (Ascii.compare b c) eqn:Ebc; try discriminate; intros H1 H2.
  - apply Ascii.compare_eq_iff in Eab, Ebc. subst. rewrite ascii_compare_refl.
    exact (IH _ _ H1 H2).
  - apply Ascii.compare_eq_iff in Eab. subst. rewrite Ebc. reflexivity.
  - apply Ascii.compare_eq_iff in Ebc. subst. rewrite Eab. reflexivity.
  - rewrite (ascii_compare_lt_trans _ _ _ Eab Ebc). reflexivity.
Qed.

Lemma string_compare_refl (s : string) : String.compare s s = Eq.
Proof.
  induction s as [|a s IH]; simpl; [reflexivity|].
  rewrite ascii_compare_refl. exact IH.
Qed.

Lemma string_leb_trans (s t u : string) :
  String.leb s t = true -> String.leb t u = true -> String.leb s u = true.
Proof.
  unfold String.leb.
  destruct (String.compare s t) eqn:Est; try discriminate;
    destruct (String.compare t u) eqn:Etu; try discriminate; intros _ _.
  - apply String.compare_eq_iff in Est, Etu. subst. rewrite string_compare_refl.
    reflexivity.
  - apply String.compare_eq_iff in Est. subst. rewrite Etu. reflexivity.
  - apply String.compare_eq_iff in Etu. subst. rewrite Est. reflexivity.
  - rewrite (string_compare_lt_trans _ _ _ Est Etu). reflexivity.
Qed.

(** *** The order of the filled series *)

Lemma option_nat_eqb_true (a b : option nat) : option_nat_eqb a b = true <-> a = b.
Proof.
  destruct a as [x|], b as [y|]; simpl; try (split; congruence).
  rewrite Nat.eqb_eq. split; congruence.
Qed.

Lemma compare_rows_text (a b : row) :
  text_row a -> text_row b -> (compare_rows a b <= 0 <-> period_major a b).
Proof.
  intros (i & s & Hi & Hs) (j & t & Hj & Ht).
  unfold compare_rows, period_major, sort_key, key_le.
  rewrite Hi, Hj, Hs, Ht. simpl fst. simpl snd. simpl js_lt. simpl to_string.
  destruct (option_nat_eqb (Some i) (Some j)) eqn:E; simpl negb; cbv iota.
  - apply option_nat_eqb_true in E. injection E as ->.
    unfold String.ltb, String.leb. rewrite (String.compare_antisym t s).
    destruct (String.compare s t); simpl; split; intros H; try lia;
      try (right; split; [reflexivity|reflexivity]);
      destruct H as [H|[_ H]]; try lia; discriminate.
  - assert (Hne : i <> j).
    { intros ->. simpl in E. rewrite Nat.eqb_refl in E. discriminate. }
    split; intros H; [left; lia|]. destruct H as [H|[H _]]; [lia|contradiction].
Qed.

Lemma key_le_total (a b : nat * string) : key_le a b \/ key_le b a.
Proof.
  unfold key_le. destruct (Nat.lt_trichotomy (fst a) (fst b)) as [H|[H|H]];
    [tauto| |tauto].
  destruct (String.leb_total (snd a) (snd b)); [left|right]; right; split; auto.
Qed.

Lemma key_le_trans (a b c : nat * string) : key_le a b -> key_le b c -> key_le a c.
Proof.
  unfold key_le. intros [H1|[H1 L1]] [H2|[H2 L2]]; try (left; lia).
  right. split; [lia|]. exact (string_leb_trans _ _ _ L1 L2).
Qed.

Lemma text_row_key (r : row) : text_row r -> exists k, sort_key r = Some k.
Proof. intros (i & s & Hi & _). unfold sort_key. rewrite Hi. eexists. reflexivity. Qed.

Lemma sorted_text_rows (l : list row) :
  Forall text_row l -> StronglySorted period_major (js_sort compare_rows l).
Proof.
  intros Hl.
  assert (Hs : StronglySorted (fun a b => compare_rows a b <= 0)
                 (js_sort compare_rows l)).
  { apply (js_sort_sorted compare_rows text_row); [| |exact Hl].
    - intros a b Ha Hb. rewrite !compare_rows_text by assumption.
      unfold period_major.
      destruct (text_row_key a Ha) as [ka ->], (text_row_key b Hb) as [kb ->].
      apply key_le_total.
    - intros a b c Ha Hb Hc. rewrite !compare_rows_text by assumption.
      unfold period_major.
      destruct (text_row_key a Ha) as [ka ->], (text_row_key b Hb) as [kb ->],
        (text_row_key c Hc) as [kc ->].
      apply key_le_trans. }
  assert (Hg : Forall text_row (js_sort compare_rows l)).
  { rewrite js_sort_perm. exact Hl. }
  induction Hs as [|x l' Hs IH Hx]; constructor.
  - apply IH. inversion Hg; assumption.
  - inversion Hg as [|? ? Hgx Hgl]; subst.
    rewrite Forall_forall in *. intros y Hy.
    apply compare_rows_text; auto.
Qed.

Lemma index_of_in (s : string) (l : list string) (k : nat) :
  In s l -> exists i, index_of s l k = Some i.
Proof.
  revert k. induction l as [|x l IH]; intros k H; [destruct H|]. simpl.
  destruct (String.eqb x s) eqn:E; [eexists; reflexivity|].
  apply String.eqb_neq in E. destruct H as [H|H]; [contradiction|]. apply IH. exact H.
Qed.

(** *** The gap filler *)

Lemma calendar_pairs_in (units : list value) (p : value * value) :
  In p (calendar_pairs units)
  <-> exists m u, In m MONTHS_2025 /\ In u units /\ p = (VStr m, u).
Proof.
  unfold calendar_pairs. rewrite in_flat_map. split.
  - intros (u & Hu & Hp). apply in_map_iff in Hp. destruct Hp as (m & <- & Hm).
    exists m, u. auto.
  - intros (m & u & Hm & Hu & ->). exists u. split; [exact Hu|].
    apply in_map_iff. exists m. auto.
Qed.

Lemma months_nodup : NoDup MONTHS_2025.
Proof.
  unfold MONTHS_2025.
  repeat (constructor; [simpl; intuition discriminate|]).
  constructor.
Qed.

Lemma calendar_pairs_nodup (units : list value) :
  NoDup units -> NoDup (calendar_pairs units).
Proof.
  unfold calendar_pairs. induction 1 as [|u units Hu Hn IH]; [constructor|].
  change (NoDup (map (fun m => (VStr m, u)) MONTHS_2025
                 ++ flat_map (fun u => map (fun m => (VStr m, u)) MONTHS_2025) units)%list).
  apply NoDup_app.
  - apply Finite.Injective_map_NoDup; [|apply months_nodup].
    intros m1 m2 H. congruence.
  - exact IH.
  - intros p Hp Hq. apply in_map_iff in Hp. destruct Hp as (m & <- & _).
    apply (calendar_pairs_in units) in Hq. destruct Hq as (m' & u' & _ & Hu' & E).
    injection E as _ ->. contradiction.
Qed.

Lemma calendar_pairs_length (units : list value) :
  List.length (calendar_pairs units) = (12 * List.length units)%nat.
Proof.
  unfold calendar_pairs. rewrite flat_map_constant_length with (c := 12%nat).
  - apply Nat.mul_comm.
  - intros u _. reflexivity.
Qed.

Section GapFiller.
Variables (r0 : row) (rest : list row).
Hypothesis Hmes : obj_has r0 Mes_Anio = true.
Hypothesis Hunit : obj_has r0 Nombre_Unidad = true.

Let data := r0 :: rest.

Lemma fill_active :
  fillMissingMonths data
  = js_sort compare_rows (flat_map (unit_rows data (keys r0)) (units_of data)).
Proof. unfold fillMissingMonths, data. rewrite Hmes, Hunit. reflexivity. Qed.

Lemma fill_perm :
  Permutation (fillMissingMonths data)
              (flat_map (unit_rows data (keys r0)) (units_of data)).
Proof. rewrite fill_active. apply js_sort_perm. Qed.

Lemma fill_periods :
  Permutation (map period_unit (fillMissingMonths data))
              (calendar_pairs (units_of data)).
Proof.
  rewrite fill_perm. unfold calendar_pairs.
  rewrite (filled_periods data (keys r0)); [reflexivity| |];
    apply obj_has_keys; assumption.
Qed.

Lemma fill_row_period (r : row) :
  In r (fillMissingMonths data) ->
  exists m u, In m MONTHS_2025 /\ In u (units_of data)
              /\ get r Mes_Anio = VStr m /\ get r Nombre_Unidad = u.
Proof.
  intros Hr. apply (in_map period_unit) in Hr.
  apply (Permutation_in _ fill_periods) in Hr.
  apply calendar_pairs_in in Hr. destruct Hr as (m & u & Hm & Hu & E).
  injection E as E1 E2. exists m, u. auto.
Qed.

Lemma fill_synthesized (unit : value) (month : string) :
  In unit (units_of data) -> In month MONTHS_2025 ->
  (forall r, In r data ->
             ~ (get r Nombre_Unidad = unit /\ get r Mes_Anio = VStr month)) ->
  In (zeroRow (keys r0) month unit) (fillMissingMonths data).
Proof.
  intros Hu Hm Hno. apply (Permutation_in _ (Permutation_sym fill_perm)).
  apply in_flat_map. exists unit. split; [exact Hu|].
  unfold unit_rows. apply in_flat_map. exists month. split; [exact Hm|].
  destruct (month_rows_cases (keys r0) unit
              (filter (fun r => strict_eq (get r Nombre_Unidad) unit) data) month)
    as [(e & _ & He & Hem)|[-> _]]; [|left; reflexivity].
  exfalso. apply filter_In in He. destruct He as [He Heu].
  apply strict_eq_eq in Heu. exact (Hno e He (conj Heu Hem)).
Qed.
End GapFiller.

Lemma fill_periods_nodup (r0 : row) (rest : list row) :
  obj_has r0 Mes_Anio = true -> obj_has r0 Nombre_Unidad = true ->
  NoDup (map period_unit (fillMissingMonths (r0 :: rest))).
Proof.
  intros Hmes Hunit.
  apply (Permutation_NoDup (Permutation_sym (fill_periods r0 rest Hmes Hunit))).
  apply calendar_pairs_nodup. apply distinct_nodup.
Qed.

Lemma units_of_spec (data : list row) (u : value) :
  In u (units_of data) <-> exists r, In r data /\ get r Nombre_Unidad = u.
Proof.
  unfold units_of. rewrite distinct_in, in_map_iff. split; intros (r & H1 & H2); eauto.
Qed.

Lemma nodup_map_inj {A B : Type} (f : A -> B) (l : list A) (x y : A) :
  NoDup (map f l) -> In x l -> In y l -> f x = f y -> x = y.
Proof.
  induction l as [|a l IH]; simpl; intros Hn Hx Hy E; [destruct Hx|].
  inversion Hn as [|? ? Ha Hl]; subst.
  destruct Hx as [->|Hx], Hy as [->|Hy]; auto.
  - exfalso. apply Ha. rewrite E. apply in_map. exact Hy.
  - exfalso. apply Ha. rewrite <- E. apply in_map. exact Hx.
Qed.



Lemma strongly_sorted_head {A : Type} (R : A -> A -> Prop) (a b : A) (l : list A) :
  StronglySorted R (a :: b :: l) -> R a b.
Proof.
  intros H. inversion H as [|? ? _ Hall]; subst.
  inversion Hall; assumption.
Qed.




(** C10. Every row of the filled series carries a period of the calendar,
    and a row of the input whose period is not one of the twelve is not in
    the filled series. *)
Theorem filled_periods_are_canonical (r0 : row) (rest : list row) :
  obj_has r0 Mes_Anio = true -> obj_has r0 Nombre_Unidad = true ->
  let out := fillMissingMonths (r0 :: rest) in
  (forall r, In r out -> exists m, In m MONTHS_2025 /\ get r Mes_Anio = VStr m)
  /\ (forall r, In r (r0 :: rest) ->
                (forall m, In m MONTHS_2025 -> get r Mes_Anio <> VStr m) ->
                ~ In r out).
Proof.
  intros Hmes Hunit out.
  assert (H : forall r, In r out ->
                        exists m, In m MONTHS_2025 /\ get r Mes_Anio = VStr m).
  { intros r Hr. destruct (fill_row_period r0 rest Hmes Hunit r Hr)
      as (m & u & Hm & _ & Erm & _).
    exists m. auto. }
  split; [exact H|].
  intros r _ Hnot Hr. destruct (H r Hr) as (m & Hm & Erm). exact (Hnot m Hm Erm).
Qed.

Lemma filled_periods_are_canonical_witness :
  ~ In (series_row "Acumulado 2024" (VStr "Palacio Mundo Imperial") 9)
       (fillMissingMonths text_series).
Proof.
  apply (proj2 (filled_periods_are_canonical
                  (series_row "Marzo 2025" (VStr "Princess Mundo Imperial") 4)
                  [series_row "Enero 2025" (VStr "Palacio Mundo Imperial") 2;
                   series_row "Acumulado 2024" (VStr "Palacio Mundo Imperial") 9]
                  eq_refl eq_refl)).
  - simpl. tauto.
  - intros m Hm. simpl in Hm.
    repeat (destruct Hm as [<-|Hm]; [discriminate|]). destruct Hm.
Defined.

(** ** Totals of a pivot table *)

Lemma total_cell_by_rule (metric : string) (firstVal : value) (cells : list value) :
  total_cell metric firstVal cells
  = totals_by_rule strictly_positive metric firstVal cells.
Proof.
  unfold total_cell, totals_by_rule, strictly_positive, sum_durations, sum_floats,
    sum_numbers.
  rewrite !fold_left_num_add_zero.
  destruct (is_time firstVal).
  - destruct (startsWith metric "Promedio"); [|reflexivity].
    destruct (filter (fun c => num_gt (parseDuration c) zero) cells); reflexivity.
  - destruct (includes metric "Porcentaje"); [|reflexivity].
    destruct (filter (fun c => num_gt (to_number c) zero) cells); reflexivity.
Qed.

Lemma total_step_get (metric : string) (first : row) (rest : list row)
    (acc : row) (v : value) (k : string) :
  get (total_step metric (first :: rest) acc v) k
  = if String.eqb (to_string v) k
    then total_cell metric (get first k) (column (first :: rest) k)
    else get acc k.
Proof.
  unfold total_step. destruct (String.eqb (to_string v) k) eqn:E.
  - apply String.eqb_eq in E. rewrite E. apply get_set_same.
  - apply String.eqb_neq in E. apply get_set_other. exact E.
Qed.

Lemma total_fold_keep (metric : string) (first : row) (rest : list row)
    (units : list value) (acc : row) (k : string) :
  get acc k = total_cell metric (get first k) (column (first :: rest) k) ->
  get (fold_left (total_step metric (first :: rest)) units acc) k
  = total_cell metric (get first k) (column (first :: rest) k).
Proof.
  revert acc. induction units as [|v units IH]; intros acc Hacc; [exact Hacc|].
  cbn [fold_left]. apply IH. rewrite total_step_get.
  destruct (String.eqb (to_string v) k); [reflexivity|exact Hacc].
Qed.

Lemma total_row_get (metric : string) (first : row) (rest : list row)
    (units : list value) (acc : row) (u : value) :
  In u units ->
  get (fold_left (total_step metric (first :: rest)) units acc) (to_string u)
  = total_cell metric (get first (to_string u))
               (column (first :: rest) (to_string u)).
Proof.
  revert acc. induction units as [|v units IH]; intros acc Hin; [destruct Hin|].
  cbn [fold_left]. destruct Hin as [->|Hin].
  - apply total_fold_keep. rewrite total_step_get, String.eqb_refl. reflexivity.
  - apply IH. exact Hin.
Qed.




(** ** Sheet names in a workbook *)

Lemma string_length_append (s t : string) :
  String.length (s ++ t) = (String.length s + String.length t)%nat.
Proof. induction s as [|c s IH]; simpl; [reflexivity|]. rewrite IH. reflexivity. Qed.

Lemma substring0_length (n : nat) (s : string) :
  (String.length (substring0 n s) <= n)%nat.
Proof.
  unfold substring0. revert s. induction n as [|n IH]; intros [|c s]; simpl; try lia.
  specialize (IH s). lia.
Qed.

Lemma nat_dec_two_digits (n : nat) :
  (n < 100)%nat -> (String.length (nat_dec (Z.of_nat n)) <= 2)%nat.
Proof.
  intros H. do 100 (destruct n as [|n]; [vm_compute; lia|]). lia.
Qed.

(** Up to the counter 99 the suffixed name is within the limit. *)
Lemma suffixed_within_limit (sheetName : string) (counter : Z) :
  1 <= counter < 100 ->
  (String.length (suffixed sheetName counter) <= MAX_SHEET_NAME_LENGTH)%nat.
Proof.
  intros H. unfold suffixed, MAX_SHEET_NAME_LENGTH, int_to_string.
  destruct (counter <? 0) eqn:E; [apply Z.ltb_lt in E; lia|].
  rewrite !string_length_append.
  pose proof (substring0_length (31 - 3) sheetName) as H1.
  pose proof (nat_dec_two_digits (Z.to_nat counter)) as H2.
  rewrite Z2Nat.id in H2 by lia. simpl String.length. simpl in H1. lia.
Qed.

(** The name the loop settles on is the clean name or a suffixed one. *)
Lemma collision_loop_shape (fuel : nat) (sheetNames : list string)
    (sheetName final : string) (counter : Z) (name : string) :
  collision_loop fuel sheetNames sheetName final counter = Some name ->
  name = final \/ exists c, counter <= c < counter + Z.of_nat fuel
                            /\ name = suffixed sheetName c.
Proof.
  revert final counter. induction fuel as [|fuel IH]; intros final counter; simpl.
  - destruct (existsb (String.eqb final) sheetNames); [discriminate|].
    intros [= <-]. left. reflexivity.
  - destruct (existsb (String.eqb final) sheetNames).
    + intros H. apply IH in H. destruct H as [->|(c & Hc & ->)]; right.
      * exists counter. split; [lia|reflexivity].
      * exists c. split; [lia|reflexivity].
    + intros [= <-]. left. reflexivity.
Qed.

(** C8 holds up to the ninety-ninth collision and fails at the hundredth:
    the second and third sheets of the clean name are suffixed _1 and _2 on
    the name cut to 28 characters, and the 101st gets the suffix _100 and
    32 characters, one more than the limit. *)
Theorem sheet_name_suffix_overflow :
  cleanSheetName (preventive_file 101) = "Tickets_Mantenimiento_Preventiv"
  /\ firstn 3 (preventive_sheets 100)
     = ["Tickets_Mantenimiento_Preventiv"; "Tickets_Mantenimiento_Preven_1";
        "Tickets_Mantenimiento_Preven_2"]
  /\ Forall (fun name => (String.length name <= MAX_SHEET_NAME_LENGTH)%nat)
            (preventive_sheets 100)
  /\ finalSheetName (preventive_sheets 100) (cleanSheetName (preventive_file 101))
     = Some "Tickets_Mantenimiento_Preven_100"
  /\ String.length "Tickets_Mantenimiento_Preven_100" = 32%nat
  /\ (MAX_SHEET_NAME_LENGTH < 32)%nat.
Proof.
  assert (Hsheets : preventive_sheets 100
                    = "Tickets_Mantenimiento_Preventiv"
                      :: map (fun c => suffixed "Tickets_Mantenimiento_Preventiv"
                                         (Z.of_nat c)) (seq 1 99))
    by (vm_compute; reflexivity).
  repeat apply conj.
  - vm_compute. reflexivity.
  - rewrite Hsheets. vm_compute. reflexivity.
  - rewrite Hsheets. constructor; [vm_compute; lia|].
    apply Forall_forall. intros name Hname. apply in_map_iff in Hname.
    destruct Hname as (c & <- & Hc). apply in_seq in Hc.
    apply suffixed_within_limit. lia.
  - rewrite Hsheets. vm_compute. reflexivity.
  - reflexivity.
  - unfold MAX_SHEET_NAME_LENGTH. lia.
Qed.

(** ** Duration codec *)

(** *** Floors of rationals *)

Lemma this_QcZ (z : Z) : this (QcZ z) = inject_Z z.
Proof.
  unfold QcZ, Q2Qc. cbn [this]. apply Qred_identity. apply Z.gcd_1_r.
Qed.

Lemma Qc_floor_QcZ (z : Z) : Qc_floor (QcZ z) = z.
Proof. unfold Qc_floor. rewrite this_QcZ. apply Qfloor_Z. Qed.

Lemma this_Q2Qc (q : Q) : this (Q2Qc q) == q.
Proof. apply Qred_correct. Qed.

Lemma QcZ_mul (a b : Z) : (QcZ a * QcZ b)%Qc = QcZ (a * b).
Proof.
  apply Qc_is_canon. unfold Qcmult.
  rewrite this_Q2Qc, !this_QcZ, inject_Z_mult. reflexivity.
Qed.

Lemma QcZ_add (a b : Z) : (QcZ a + QcZ b)%Qc = QcZ (a + b).
Proof.
  apply Qc_is_canon. unfold Qcplus.
  rewrite this_Q2Qc, !this_QcZ, inject_Z_plus. reflexivity.
Qed.

Lemma Qfloor_div_pos (x : Q) (k : positive) :
  Qfloor (x / inject_Z (Zpos k)) = Qfloor x / Zpos k.
Proof.
  destruct x as [n d]. unfold Qdiv, Qmult, Qinv, inject_Z, Qfloor. simpl.
  rewrite Z.mul_1_r, Pos2Z.inj_mul. symmetry. apply Zdiv_Zdiv; lia.
Qed.

Lemma Qfloor_sub_Z (x : Q) (z : Z) : Qfloor (x - inject_Z z) = Qfloor x - z.
Proof.
  destruct x as [n d]. unfold Qminus, Qplus, Qopp, inject_Z, Qfloor. simpl.
  rewrite Z.mul_1_r, Pos.mul_1_r, Z.div_add by lia. lia.
Qed.

Lemma Qc_floor_div (x : Qc) (k : positive) :
  Qc_floor (x / QcZ (Zpos k))%Qc = Qc_floor x / Zpos k.
Proof.
  unfold Qc_floor. rewrite <- Qfloor_div_pos. apply Qfloor_comp.
  unfold Qcdiv, Qcmult, Qcinv.
  rewrite !this_Q2Qc, this_QcZ. reflexivity.
Qed.

Lemma Qc_floor_sub (x : Qc) (z : Z) : Qc_floor (x - QcZ z)%Qc = Qc_floor x - z.
Proof.
  unfold Qc_floor. rewrite <- Qfloor_sub_Z. apply Qfloor_comp.
  unfold Qcminus, Qcplus, Qcopp.
  rewrite !this_Q2Qc, this_QcZ. reflexivity.
Qed.

(** A rational is negative exactly when its floor is. *)
Lemma Qc_sign_neg_floor (x : Qc) : Qc_sign_neg x = (Qc_floor x <? 0).
Proof.
  unfold Qc_sign_neg, Qc_ltb, Qccompare, Qc_floor. rewrite this_QcZ.
  pose proof (Qfloor_le x) as Hle. pose proof (Qlt_floor x) as Hlt.
  destruct (Qcompare_spec x (inject_Z 0)) as [E|E|E];
    destruct (Qfloor x <? 0) eqn:F; try reflexivity; exfalso.
  - rewrite (Qfloor_comp _ _ E), Qfloor_Z in F. discriminate.
  - apply Z.ltb_ge in F. rewrite Zle_Qle in F.
    apply (Qlt_irrefl x). eapply Qlt_le_trans; [exact E|].
    eapply Qle_trans; [exact F|exact Hle].
  - apply Z.ltb_lt in F.
    assert (H : (Qfloor x + 1 <= 0)%Z) by lia. rewrite Zle_Qle in H.
    apply (Qlt_irrefl x). eapply Qlt_le_trans; [exact Hlt|].
    eapply Qle_trans; [exact H|]. apply Qlt_le_weak. exact E.
Qed.

Lemma Qc_floor_nonneg (x : Qc) : (0 <= x)%Qc -> 0 <= Qc_floor x.
Proof.
  intros H. unfold Qc_floor. change 0 with (Qfloor (inject_Z 0)) at 1.
  apply Qfloor_resp_le. exact H.
Qed.

Lemma QcZ_neq_0 (k : positive) : Qc_eqb (QcZ (Zpos k)) (QcZ 0) = false.
Proof.
  unfold Qc_eqb. destruct (Qc_eq_dec (QcZ (Zpos k)) (QcZ 0)) as [E|E]; [|reflexivity].
  apply (f_equal Qc_floor) in E. rewrite !Qc_floor_QcZ in E. discriminate.
Qed.

(** Quotient and remainder of a non-negative number by a positive integer. *)
Lemma floor_div_nonneg (x : Qc) (k : positive) :
  num_floor (num_div (Fin x) (num (Zpos k))) = num (Qc_floor x / Zpos k).
Proof.
  unfold num_div, num. rewrite QcZ_neq_0. simpl. rewrite Qc_floor_div. reflexivity.
Qed.

Lemma mod_nonneg (x : Qc) (k : positive) :
  0 <= Qc_floor x ->
  exists r : Qc,
    num_mod (Fin x) (num (Zpos k)) = Fin r
    /\ Qc_floor r = Qc_floor x mod Zpos k.
Proof.
  intros Hx. unfold num_mod, num. rewrite QcZ_neq_0.
  assert (Ht : Qc_trunc (x / QcZ (Zpos k))%Qc = Qc_floor x / Zpos k).
  { unfold Qc_trunc. rewrite Qc_sign_neg_floor, Qc_floor_div.
    assert (H : 0 <= Qc_floor x / Zpos k) by (apply Z.div_pos; lia).
    apply Z.ltb_ge in H. rewrite H. reflexivity. }
  rewrite Ht, QcZ_mul. eexists. split; [reflexivity|].
  rewrite Qc_floor_sub. rewrite Z.mod_eq by lia. reflexivity.
Qed.

(** *** Digits *)

Lemma digit_char_spec (d : Z) :
  0 <= d < 10 -> is_digit (digit_char d) = true /\ digit_val (digit_char d) = d.
Proof.
  intros H.
  assert (E : d = 0 \/ d = 1 \/ d = 2 \/ d = 3 \/ d = 4 \/ d = 5 \/ d = 6 \/ d = 7
              \/ d = 8 \/ d = 9) by lia.
  repeat (destruct E as [->|E]; [split; reflexivity|]). subst d. split; reflexivity.
Qed.

(** A digit is neither white space, nor a sign, nor a colon, nor the first
    letter of [Infinity]. *)
Lemma digit_is_plain (c : ascii) (s : string) :
  is_digit c = true ->
  is_ws c = false /\ read_sign (String c s) = (false, String c s)
  /\ Ascii.eqb c ":" = false /\ prefix "Infinity" (String c s) = false.
Proof.
  destruct c as [[] [] [] [] [] [] [] []]; intros H; try discriminate H;
    repeat apply conj; reflexivity.
Qed.

Lemma string_app_assoc (a b c : string) : (a ++ b) ++ c = a ++ (b ++ c).
Proof. induction a as [|x a IH]; simpl; [reflexivity|]. rewrite IH. reflexivity. Qed.

Lemma string_app_nil_r (a : string) : a ++ "" = a.
Proof. induction a as [|x a IH]; simpl; [reflexivity|]. rewrite IH. reflexivity. Qed.

Lemma all_digits_app (p q : string) :
  all_digits (p ++ q) = all_digits p && all_digits q.
Proof.
  induction p as [|c p IH]; simpl; [reflexivity|]. rewrite IH. apply andb_assoc.
Qed.

Lemma dec_value_app (p q : string) (a : Z) :
  dec_value (p ++ q) a = dec_value q (dec_value p a).
Proof. revert a. induction p as [|c p IH]; intros a; simpl; [reflexivity|apply IH]. Qed.

Lemma read_digits_all (p : string) (a : Z) (cnt : nat) :
  all_digits p = true ->
  read_digits p a cnt = (dec_value p a, (cnt + String.length p)%nat, "").
Proof.
  revert a cnt. induction p as [|c p IH]; intros a cnt H; simpl.
  - rewrite Nat.add_0_r. reflexivity.
  - simpl in H. apply andb_prop in H. destruct H as [Hc Hp].
    rewrite Hc, (IH _ _ Hp). rewrite Nat.add_succ_r. reflexivity.
Qed.

(** The digits printed for a natural number read back as that number. *)
Lemma dec_aux_spec (fuel : nat) (n : Z) (acc : string) :
  0 <= n < 2 ^ Z.of_nat fuel -> (1 <= fuel)%nat ->
  exists p, dec_aux fuel n acc = p ++ acc /\ all_digits p = true /\ p <> ""
            /\ forall a, dec_value p a = a * 10 ^ Z.of_nat (String.length p) + n.
Proof.
  revert n acc. induction fuel as [|f IH]; intros n acc Hn Hf; [lia|].
  simpl dec_aux.
  assert (Hd : 0 <= n mod 10 < 10) by (apply Z.mod_pos_bound; lia).
  destruct (digit_char_spec (n mod 10) Hd) as [Hd1 Hd2].
  destruct (n / 10 =? 0) eqn:E.
  - apply Z.eqb_eq in E. exists (String (digit_char (n mod 10)) "").
    repeat apply conj.
    + reflexivity.
    + cbn [all_digits]. rewrite Hd1. reflexivity.
    + discriminate.
    + intros a. cbn [dec_value String.length]. rewrite Hd2.
      change (10 ^ Z.of_nat 1) with 10.
      pose proof (Z.div_mod n 10). lia.
  - apply Z.eqb_neq in E.
    assert (Hpow : 2 ^ Z.of_nat (S f) = 2 * 2 ^ Z.of_nat f).
    { rewrite Nat2Z.inj_succ. apply Z.pow_succ_r. lia. }
    assert (Hpos : 0 < 2 ^ Z.of_nat f) by (apply Z.pow_pos_nonneg; lia).
    assert (Hq : 0 <= n / 10 < 2 ^ Z.of_nat f).
    { split; [apply Z.div_pos; lia|]. apply Z.div_lt_upper_bound; lia. }
    assert (Hf' : (1 <= f)%nat).
    { destruct f; [|lia]. change (2 ^ Z.of_nat 0) with 1 in Hq. lia. }
    destruct (IH (n / 10) (String (digit_char (n mod 10)) acc) Hq Hf')
      as (p & Hp & Hall & _ & Hval).
    exists (p ++ String (digit_char (n mod 10)) "").
    repeat apply conj.
    + rewrite Hp, string_app_assoc. reflexivity.
    + rewrite all_digits_app, Hall. cbn [all_digits andb]. rewrite Hd1. reflexivity.
    + destruct p; discriminate.
    + intros a. rewrite dec_value_app, Hval. cbn [dec_value]. rewrite Hd2.
      rewrite string_length_append. cbn [String.length].
      rewrite Nat2Z.inj_add, Z.pow_add_r by lia.
      change (10 ^ Z.of_nat 1) with 10.
      pose proof (Z.div_mod n 10). lia.
Qed.

Lemma nat_dec_spec (n : Z) :
  0 <= n ->
  all_digits (nat_dec n) = true /\ nat_dec n <> "" /\ dec_value (nat_dec n) 0 = n.
Proof.
  intros Hn. unfold nat_dec.
  assert (Hfuel : 0 <= n < 2 ^ Z.of_nat (S (Z.to_nat (Z.log2 n)))).
  { split; [exact Hn|]. rewrite Nat2Z.inj_succ, Z2Nat.id by apply Z.log2_nonneg.
    destruct (Z.eq_dec n 0) as [->|Hne]; [reflexivity|].
    apply Z.log2_spec. lia. }
  destruct (dec_aux_spec _ n "" Hfuel ltac:(lia)) as (p & Hp & Hall & Hne & Hval).
  rewrite Hp, string_app_nil_r. repeat apply conj; [exact Hall|exact Hne|].
  rewrite Hval. lia.
Qed.

Lemma two_digits_nat (m : nat) :
  (m < 60)%nat ->
  padStart2 (nat_dec (Z.of_nat m)) = two_digits (Z.of_nat m)
  /\ all_digits (two_digits (Z.of_nat m)) = true
  /\ dec_value (two_digits (Z.of_nat m)) 0 = Z.of_nat m.
Proof.
  intros Hm.
  do 60 (destruct m as [|m]; [repeat apply conj; vm_compute; reflexivity|]). lia.
Qed.

Lemma two_digits_spec (n : Z) :
  0 <= n < 60 ->
  padStart2 (nat_dec n) = two_digits n
  /\ all_digits (two_digits n) = true /\ dec_value (two_digits n) 0 = n.
Proof.
  intros H. rewrite <- (Z2Nat.id n) by lia. apply two_digits_nat. lia.
Qed.

(** *** Printing and parsing a duration *)

Lemma rev_string_rev (d a b : string) :
  rev_string (rev_string d a) b = rev_string a (d ++ b).
Proof.
  revert a. induction d as [|c d IH]; intros a; simpl; [reflexivity|].
  rewrite IH. reflexivity.
Qed.

Lemma split_digits (d rest cur : string) :
  all_digits d = true ->
  split_colon_aux (d ++ rest) cur = split_colon_aux rest (rev_string d cur).
Proof.
  revert cur. induction d as [|c d IH]; intros cur H; simpl; [reflexivity|].
  simpl in H. apply andb_prop in H. destruct H as [Hc Hd].
  destruct (digit_is_plain c "" Hc) as (_ & _ & Hcolon & _).
  rewrite Hcolon. apply IH. exact Hd.
Qed.

Lemma split_three (h m s : string) :
  all_digits h = true -> all_digits m = true -> all_digits s = true ->
  split_colon (h ++ ":" ++ m ++ ":" ++ s) = [h; m; s].
Proof.
  intros Hh Hm Hs. unfold split_colon.
  rewrite (split_digits h _ _ Hh). cbn [append split_colon_aux Ascii.eqb].
  change (Ascii.eqb ":" ":") with true. cbn iota.
  rewrite rev_string_rev. cbn [rev_string]. rewrite string_app_nil_r.
  rewrite (split_digits m _ _ Hm). cbn [append split_colon_aux].
  change (Ascii.eqb ":" ":") with true. cbn iota.
  rewrite rev_string_rev. cbn [rev_string]. rewrite string_app_nil_r.
  rewrite <- (string_app_nil_r s) at 1.
  rewrite (split_digits s _ _ Hs). cbn [split_colon_aux].
  rewrite rev_string_rev. cbn [rev_string]. rewrite string_app_nil_r. reflexivity.
Qed.

Lemma parseInt10_digits (p : string) :
  all_digits p = true -> p <> "" -> parseInt10 p = num (dec_value p 0).
Proof.
  intros Hall Hne. destruct p as [|c p]; [contradiction|].
  assert (Hc : is_digit c = true).
  { simpl in Hall. apply andb_prop in Hall. tauto. }
  destruct (digit_is_plain c p Hc) as (Hws & Hsign & _ & _).
  unfold parseInt10. cbn [trim_left]. rewrite Hws, Hsign.
  rewrite (read_digits_all _ 0 0 Hall). reflexivity.
Qed.

Lemma parseFloat_digits (p : string) :
  all_digits p = true -> p <> "" -> parseFloat_string p = num (dec_value p 0).
Proof.
  intros Hall Hne. destruct p as [|c p]; [contradiction|].
  assert (Hc : is_digit c = true).
  { simpl in Hall. apply andb_prop in Hall. tauto. }
  destruct (digit_is_plain c p Hc) as (Hws & Hsign & _ & Hinf).
  unfold parseFloat_string, read_decimal. cbn [trim_left]. rewrite Hws, Hsign, Hinf.
  rewrite (read_digits_all _ 0 0 Hall). cbn [Nat.add String.length read_exponent].
  unfold decimal_value, num, QcZ. f_equal. apply Q2Qc_eq_iff.
  change (inject_Z 10 ^ 0)%Q with 1%Q. apply Qmult_1_r.
Qed.

Lemma number_to_string_num (z : Z) : number_to_string (num z) = int_to_string z.
Proof. unfold number_to_string, num. rewrite this_QcZ. reflexivity. Qed.

Lemma num_mul_num (a b : Z) : num_mul (num a) (num b) = num (a * b).
Proof. unfold num_mul, num. rewrite QcZ_mul. reflexivity. Qed.

Lemma num_add_num (a b : Z) : num_add (num a) (num b) = num (a + b).
Proof. unfold num_add, num. rewrite QcZ_add. reflexivity. Qed.

Lemma or0_num (z : Z) : or0 (num z) = num z.
Proof. apply or0_not_nan. reflexivity. Qed.

Lemma formatDuration_nonneg (q : Qc) :
  0 <= Qc_floor q -> formatDuration (Fin q) = duration_text (Qc_floor q).
Proof.
  intros HF. unfold formatDuration, duration_text.
  change 3600 with (Zpos 3600). change 60 with (Zpos 60).
  rewrite floor_div_nonneg.
  destruct (mod_nonneg q 3600 HF) as (r & -> & Hr).
  assert (Hr0 : 0 <= Qc_floor r) by (rewrite Hr; apply Z.mod_pos_bound; lia).
  rewrite floor_div_nonneg.
  destruct (mod_nonneg r 60 Hr0) as (r2 & -> & Hr2).
  cbn [num_floor]. fold (num (Qc_floor r2)).
  rewrite !number_to_string_num, Hr2, !Hr. unfold int_to_string.
  assert (H1 : 0 <= Qc_floor q / 3600) by (apply Z.div_pos; lia).
  assert (H2 : 0 <= Qc_floor q mod 3600 / 60 < 60)
    by (split; [apply Z.div_pos|apply Z.div_lt_upper_bound];
        pose proof (Z.mod_pos_bound (Qc_floor q) 3600); lia).
  assert (H3 : 0 <= Qc_floor q mod 3600 mod 60 < 60) by (apply Z.mod_pos_bound; lia).
  assert (E2 : Qc_floor q mod 3600 / 60 = Qc_floor q / 60 mod 60)
    by (Z.div_mod_to_equations; lia).
  assert (E3 : Qc_floor q mod 3600 mod 60 = Qc_floor q mod 60)
    by (Z.div_mod_to_equations; lia).
  destruct (Qc_floor q / 3600 <? 0) eqn:L1; [apply Z.ltb_lt in L1; lia|].
  destruct (Qc_floor q mod 3600 / 60 <? 0) eqn:L2; [apply Z.ltb_lt in L2; lia|].
  destruct (Qc_floor q mod 3600 mod 60 <? 0) eqn:L3; [apply Z.ltb_lt in L3; lia|].
  rewrite (proj1 (two_digits_spec _ H2)), (proj1 (two_digits_spec _ H3)), E2, E3.
  reflexivity.
Qed.

Lemma parse_duration_text (F : Z) :
  0 <= F -> parseDuration (VStr (duration_text F)) = num F.
Proof.
  intros HF. unfold duration_text.
  assert (H1 : 0 <= F / 3600) by (apply Z.div_pos; lia).
  assert (H2 : 0 <= F / 60 mod 60 < 60) by (apply Z.mod_pos_bound; lia).
  assert (H3 : 0 <= F mod 60 < 60) by (apply Z.mod_pos_bound; lia).
  destruct (nat_dec_spec _ H1) as (Ah & Nh & Vh).
  destruct (two_digits_spec _ H2) as (_ & Am & Vm).
  destruct (two_digits_spec _ H3) as (_ & As & Vs).
  unfold parseDuration.
  assert (Htruthy : truthy (VStr (nat_dec (F / 3600) ++ ":" ++ two_digits (F / 60 mod 60)
                                    ++ ":" ++ two_digits (F mod 60))) = true).
  { destruct (nat_dec (F / 3600)) as [|c s]; [contradiction|reflexivity]. }
  rewrite Htruthy, (split_three _ _ _ Ah Am As).
  cbn [negb List.length Nat.ltb Nat.leb part nth_error to_string parseFloat].
  rewrite (parseInt10_digits _ Ah Nh), Vh.
  rewrite (parseInt10_digits _ Am ltac:(discriminate)), Vm.
  rewrite (parseFloat_digits _ As ltac:(discriminate)), Vs.
  rewrite !or0_num, !num_mul_num, !num_add_num. f_equal.
  Z.div_mod_to_equations. lia.
Qed.



(** ** More on the duration codec *)

Lemma includes_colon_false (c : ascii) (s : string) :
  includes (String c s) ":" = false -> Ascii.eqb c ":" = false /\ includes s ":" = false.
Proof.
  change (includes (String c s) ":")
    with (if (if ascii_dec ":" c then prefix "" s else false)
          then true else includes s ":").
  destruct (ascii_dec ":" c) as [<-|Hne].
  - destruct s; discriminate.
  - intros H. split; [|exact H].
    apply Ascii.eqb_neq. congruence.
Qed.

Lemma split_without_colon (s cur : string) :
  includes s ":" = false ->
  split_colon_aux s cur = [rev_string (rev_string s cur) ""].
Proof.
  revert cur. induction s as [|c s IH]; intros cur H; [reflexivity|].
  apply includes_colon_false in H. destruct H as [Hc Hs].
  cbn [split_colon_aux rev_string]. rewrite Hc. apply IH. exact Hs.
Qed.

Lemma split_two (h m : string) :
  all_digits h = true -> all_digits m = true -> split_colon (h ++ ":" ++ m) = [h; m].
Proof.
  intros Hh Hm. unfold split_colon.
  rewrite (split_digits h _ _ Hh). cbn [append split_colon_aux].
  change (Ascii.eqb ":" ":") with true. cbn iota.
  rewrite rev_string_rev. cbn [rev_string]. rewrite string_app_nil_r.
  rewrite <- (string_app_nil_r m) at 1.
  rewrite (split_digits m _ _ Hm). cbn [split_colon_aux].
  rewrite rev_string_rev. cbn [rev_string]. rewrite string_app_nil_r. reflexivity.
Qed.

(** X1. What is not a string with a colon counts for 0 seconds, and a text
    of two fields reads as hours and minutes (within the integers a number
    holds exactly). *)
Theorem parseDuration_short_input :
  (forall v : value,
      (forall s, v = VStr s -> includes s ":" = false) -> parseDuration v = zero)
  /\ (forall (hours : string) (m : Z),
         all_digits hours = true -> hours <> "" -> 0 <= m < 60 ->
         dec_value hours 0 * 3600 + m * 60 < 2 ^ 53 ->
         parseDuration (VStr (hours ++ ":" ++ two_digits m))
         = num (dec_value hours 0 * 3600 + m * 60)).
Proof.
  split.
  - intros [| | | |s] H; try reflexivity. unfold parseDuration.
    destruct (negb (truthy (VStr s))); [reflexivity|].
    unfold split_colon. rewrite (split_without_colon s "" (H s eq_refl)).
    reflexivity.
  - intros hours m Ah Nh Hm _.
    destruct (two_digits_spec _ Hm) as (_ & Am & Vm).
    unfold parseDuration.
    assert (Htruthy : truthy (VStr (hours ++ ":" ++ two_digits m)) = true).
    { destruct hours as [|c h]; [contradiction|reflexivity]. }
    rewrite Htruthy, (split_two _ _ Ah Am).
    cbn [negb List.length Nat.ltb Nat.leb part nth_error to_string].
    rewrite (parseInt10_digits _ Ah Nh).
    rewrite (parseInt10_digits _ Am ltac:(discriminate)), Vm.
    change (or0 (parseFloat VUndef)) with zero.
    rewrite !or0_num, !num_mul_num, !num_add_num, num_add_zero_r. reflexivity.
Qed.

Lemma parseDuration_short_input_witness :
  parseDuration (VStr "85.50") = zero /\ parseDuration (VStr "1:30") = num 5400.
Proof.
  split.
  - apply (proj1 parseDuration_short_input). intros s [= <-]. reflexivity.
  - apply (proj2 parseDuration_short_input "1" 30); try reflexivity; try lia.
    discriminate.
Defined.

Lemma is_digit_val (c : ascii) : is_digit c = true -> 0 <= digit_val c < 10.
Proof.
  unfold is_digit, digit_val. intros H. apply andb_prop in H. destruct H as [H1 H2].
  apply Nat.leb_le in H1, H2. lia.
Qed.

Lemma dec_value_nonneg (p : string) (a : Z) :
  all_digits p = true -> 0 <= a -> 0 <= dec_value p a.
Proof.
  revert a. induction p as [|c p IH]; intros a H Ha; [exact Ha|].
  cbn [all_digits] in H. apply andb_prop in H. destruct H as [Hc Hp].
  cbn [dec_value]. apply IH; [exact Hp|].
  pose proof (is_digit_val c Hc). lia.
Qed.

(** A clock text with any run of digits for the hours. *)
Lemma parse_clock_text (hours : string) (m s : Z) :
  all_digits hours = true -> hours <> "" -> 0 <= m < 60 -> 0 <= s < 60 ->
  parseDuration (VStr (hours ++ ":" ++ two_digits m ++ ":" ++ two_digits s))
  = num (dec_value hours 0 * 3600 + m * 60 + s).
Proof.
  intros Ah Nh Hm Hs.
  destruct (two_digits_spec _ Hm) as (_ & Am & Vm).
  destruct (two_digits_spec _ Hs) as (_ & As & Vs).
  unfold parseDuration.
  assert (Htruthy : truthy (VStr (hours ++ ":" ++ two_digits m ++ ":" ++ two_digits s))
                    = true).
  { destruct hours as [|c h]; [contradiction|reflexivity]. }
  rewrite Htruthy, (split_three _ _ _ Ah Am As).
  cbn [negb List.length Nat.ltb Nat.leb part nth_error to_string parseFloat].
  rewrite (parseInt10_digits _ Ah Nh).
  rewrite (parseInt10_digits _ Am ltac:(discriminate)), Vm.
  rewrite (parseFloat_digits _ As ltac:(discriminate)), Vs.
  rewrite !or0_num, !num_mul_num, !num_add_num. reflexivity.
Qed.

(** X2. Parsing a clock text (minutes and seconds below 60 on two digits,
    a run of digits for the hours, the whole within the integers a number
    holds exactly) and printing the seconds gives the text back with the
    hours in plain decimal, without leading zeros. *)
Theorem formatDuration_parseDuration (hours : string) (m s : Z) :
  all_digits hours = true -> hours <> "" -> 0 <= m < 60 -> 0 <= s < 60 ->
  dec_value hours 0 * 3600 + m * 60 + s < 2 ^ 53 ->
  formatDuration
    (parseDuration (VStr (hours ++ ":" ++ two_digits m ++ ":" ++ two_digits s)))
  = nat_dec (dec_value hours 0) ++ ":" ++ two_digits m ++ ":" ++ two_digits s.
Proof.
  intros Ah Nh Hm Hs _. rewrite (parse_clock_text hours m s Ah Nh Hm Hs).
  pose proof (dec_value_nonneg hours 0 Ah ltac:(lia)) as Hh.
  set (h := dec_value hours 0) in *.
  unfold num. rewrite formatDuration_nonneg by (rewrite Qc_floor_QcZ; lia).
  rewrite Qc_floor_QcZ. unfold duration_text.
  replace ((h * 3600 + m * 60 + s) / 3600) with h by (Z.div_mod_to_equations; lia).
  replace ((h * 3600 + m * 60 + s) / 60 mod 60) with m by (Z.div_mod_to_equations; lia).
  replace ((h * 3600 + m * 60 + s) mod 60) with s by (Z.div_mod_to_equations; lia).
  reflexivity.
Qed.

Lemma formatDuration_parseDuration_witness :
  formatDuration (parseDuration (VStr "01:05:09")) = "1:05:09".
Proof.
  apply (formatDuration_parseDuration "01" 5 9); try reflexivity; try lia.
  discriminate.
Defined.

(** ** More on sheet names *)

Lemma string_forall_substring (p : ascii -> bool) (n : nat) (s : string) :
  string_forall p s = true -> string_forall p (substring0 n s) = true.
Proof.
  unfold substring0. revert s. induction n as [|n IH]; intros [|c s] H; simpl;
    try reflexivity.
  simpl in H. apply andb_prop in H. destruct H as [Hc Hs].
  rewrite Hc. simpl. apply IH. exact Hs.
Qed.

Lemma replace_forbidden_clean (s : string) :
  string_forall (fun c => negb (forbidden c)) (replace_forbidden s) = true.
Proof.
  induction s as [|c s IH]; simpl; [reflexivity|].
  rewrite IH, andb_true_r. destruct (forbidden c) eqn:E; [reflexivity|].
  rewrite E. reflexivity.
Qed.

(** X3. A cleaned sheet name has at most 31 characters and none of the
    characters a sheet name may not hold. *)
Theorem cleanSheetName_valid (name : string) :
  (String.length (cleanSheetName name) <= MAX_SHEET_NAME_LENGTH)%nat
  /\ string_forall (fun c => negb (forbidden c)) (cleanSheetName name) = true.
Proof.
  unfold cleanSheetName.
  destruct (MAX_SHEET_NAME_LENGTH <? String.length (replace_forbidden (strip_json name)))%nat
    eqn:E.
  - split; [apply substring0_length|].
    apply string_forall_substring, replace_forbidden_clean.
  - apply Nat.ltb_ge in E. split; [exact E|apply replace_forbidden_clean].
Qed.

Lemma existsb_eqb_in (x : string) (l : list string) :
  existsb (String.eqb x) l = true <-> In x l.
Proof.
  rewrite existsb_exists. split.
  - intros (y & Hy & E). apply String.eqb_eq in E. subst. exact Hy.
  - intros H. exists x. split; [exact H|apply String.eqb_refl].
Qed.

Lemma string_app_inv_head (a b c : string) : a ++ b = a ++ c -> b = c.
Proof.
  induction a as [|x a IH]; simpl; intros H; [exact H|].
  injection H as H. apply IH. exact H.
Qed.

Lemma suffixed_inj (sheetName : string) (a b : Z) :
  0 <= a -> 0 <= b -> suffixed sheetName a = suffixed sheetName b -> a = b.
Proof.
  intros Ha Hb H. unfold suffixed in H.
  apply string_app_inv_head in H. apply (string_app_inv_head "_") in H.
  unfold int_to_string in H.
  destruct (a <? 0) eqn:Ea; [apply Z.ltb_lt in Ea; lia|].
  destruct (b <? 0) eqn:Eb; [apply Z.ltb_lt in Eb; lia|].
  destruct (nat_dec_spec a Ha) as (_ & _ & Va).
  destruct (nat_dec_spec b Hb) as (_ & _ & Vb).
  congruence.
Qed.

Lemma collision_loop_fresh (fuel : nat) (sheetNames : list string)
    (sheetName final : string) (counter : Z) (name : string) :
  collision_loop fuel sheetNames sheetName final counter = Some name ->
  ~ In name sheetNames.
Proof.
  revert final counter. induction fuel as [|fuel IH]; intros final counter; simpl;
    destruct (existsb (String.eqb final) sheetNames) eqn:E;
    try discriminate; try (apply IH);
    intros [= <-]; rewrite <- existsb_eqb_in, E; discriminate.
Qed.

Lemma collision_loop_none (fuel : nat) (sheetNames : list string)
    (sheetName final : string) (counter : Z) :
  collision_loop fuel sheetNames sheetName final counter = None ->
  forall k, (k < fuel)%nat -> In (suffixed sheetName (counter + Z.of_nat k)) sheetNames.
Proof.
  revert final counter. induction fuel as [|fuel IH]; intros final counter H k Hk;
    [lia|].
  simpl in H. destruct (existsb (String.eqb final) sheetNames); [|discriminate].
  assert (Hnext : In (suffixed sheetName counter) sheetNames).
  { destruct fuel; simpl in H;
      destruct (existsb (String.eqb (suffixed sheetName counter)) sheetNames) eqn:E;
      try discriminate; apply existsb_eqb_in; exact E. }
  destruct k as [|k].
  - rewrite Z.add_0_r. exact Hnext.
  - replace (counter + Z.of_nat (S k)) with (counter + 1 + Z.of_nat k) by lia.
    apply (IH _ _ H). lia.
Qed.

(** X4. The collision loop always settles on a name, and that name is not
    yet a sheet of the workbook: the clean name when it is free, else the
    name with the suffix of a counter no larger than the number of sheets
    plus one. *)
Theorem finalSheetName_fresh (sheetNames : list string) (sheetName : string) :
  exists name,
    finalSheetName sheetNames sheetName = Some name
    /\ ~ In name sheetNames
    /\ (name = sheetName
        \/ exists c, 1 <= c <= Z.of_nat (List.length sheetNames) + 1
                     /\ name = suffixed sheetName c)
    /\ (~ In sheetName sheetNames -> name = sheetName).
Proof.
  unfold finalSheetName.
  destruct (collision_loop (S (List.length sheetNames)) sheetNames sheetName sheetName 1)
    as [name|] eqn:E.
  - exists name. repeat apply conj.
    + reflexivity.
    + exact (collision_loop_fresh _ _ _ _ _ _ E).
    + destruct (collision_loop_shape _ _ _ _ _ _ E) as [->|(c & Hc & ->)];
        [left; reflexivity|right].
      exists c. split; [lia|reflexivity].
    + intros Hfree. simpl in E.
      destruct (existsb (String.eqb sheetName) sheetNames) eqn:Ex.
      * apply existsb_eqb_in in Ex. contradiction.
      * congruence.
  - exfalso.
    pose proof (collision_loop_none _ _ _ _ _ E) as Hall.
    set (n := List.length sheetNames) in *.
    set (taken := map (fun k => suffixed sheetName (1 + Z.of_nat k)) (seq 0 (S n))).
    assert (Hnd : NoDup taken).
    { apply Finite.Injective_map_NoDup_in; [|apply seq_NoDup].
      intros a b _ _ Hab. apply suffixed_inj in Hab; lia. }
    assert (Hincl : incl taken sheetNames).
    { intros x Hx. apply in_map_iff in Hx. destruct Hx as (k & <- & Hk).
      apply in_seq in Hk. apply Hall. lia. }
    pose proof (NoDup_incl_length Hnd Hincl) as Hlen.
    unfold taken in Hlen. rewrite length_map, length_seq in Hlen. fold n in Hlen. lia.
Qed.

(** ** More on objects *)

Section ObjectKeys.
Context {A : Type}.
Implicit Types (o : obj A) (k : string) (v : A).

Lemma obj_get_in o k v : obj_get o k = Some v -> In (k, v) o.
Proof.
  induction o as [|[k' v'] o IH]; simpl; [discriminate|].
  destruct (String.eqb k' k) eqn:E.
  - apply String.eqb_eq in E. intros [= ->]. left. congruence.
  - intros H. right. apply IH. exact H.
Qed.

Lemma obj_has_set o k v k2 :
  obj_has (obj_set o k v) k2 = String.eqb k k2 || obj_has o k2.
Proof.
  unfold obj_has at 1. destruct (String.eqb k k2) eqn:E.
  - apply String.eqb_eq in E. subst k2. rewrite obj_get_set_same. reflexivity.
  - apply String.eqb_neq in E. rewrite obj_get_set_other by exact E. reflexivity.
Qed.

Lemma obj_replace_forall (P : string * A -> Prop) o k v :
  Forall P o -> P (k, v) -> Forall P (obj_replace o k v).
Proof.
  intros Ho Hk. induction Ho as [|[k' v'] o Hx Ho IH]; simpl; [constructor|].
  destruct (String.eqb k' k) eqn:E.
  - apply String.eqb_eq in E. subst k'. constructor; assumption.
  - constructor; assumption.
Qed.

Lemma obj_insert_forall (P : string * A -> Prop) o i k v :
  Forall P o -> P (k, v) -> Forall P (obj_insert_index o i k v).
Proof.
  intros Ho Hk. induction Ho as [|[k' v'] o Hx Ho IH]; simpl.
  - constructor; [exact Hk|constructor].
  - destruct (array_index k') as [j|]; [destruct (j <? i)|];
      repeat (constructor; try assumption).
Qed.

Lemma obj_set_forall (P : string * A -> Prop) o k v :
  Forall P o -> P (k, v) -> Forall P (obj_set o k v).
Proof.
  intros Ho Hk. unfold obj_set. destruct (obj_has o k).
  - apply obj_replace_forall; assumption.
  - destruct (array_index k).
    + apply obj_insert_forall; assumption.
    + apply Forall_app. split; [exact Ho|]. constructor; [exact Hk|constructor].
Qed.

Lemma keys_replace o k v : keys (obj_replace o k v) = keys o.
Proof.
  unfold keys. induction o as [|[k' v'] o IH]; simpl; [reflexivity|].
  destruct (String.eqb k' k); simpl; rewrite ?IH; reflexivity.
Qed.

Lemma keys_insert_perm o i k v :
  Permutation (keys (obj_insert_index o i k v)) (k :: keys o).
Proof.
  unfold keys. induction o as [|[k' v'] o IH]; simpl; [reflexivity|].
  destruct (array_index k') as [j|]; [destruct (j <? i)|]; simpl; try reflexivity.
  rewrite IH. apply perm_swap.
Qed.

(** Assigning to a key the object has keeps its keys; assigning to a new
    key adds it. *)
Lemma keys_set_present o k v : obj_has o k = true -> keys (obj_set o k v) = keys o.
Proof. intros H. unfold obj_set. rewrite H. apply keys_replace. Qed.

Lemma keys_set_perm o k v :
  obj_has o k = false -> Permutation (keys (obj_set o k v)) (k :: keys o).
Proof.
  intros H. unfold obj_set. rewrite H. destruct (array_index k).
  - apply keys_insert_perm.
  - unfold keys. rewrite map_app. simpl. symmetry. apply Permutation_cons_append.
Qed.

Lemma keys_set_plain o k v :
  obj_has o k = false -> array_index k = None ->
  keys (obj_set o k v) = (keys o ++ [k])%list.
Proof.
  intros H Hk. unfold obj_set. rewrite H, Hk. unfold keys. apply map_app.
Qed.

Lemma keys_set_in o k v k2 : In k2 (keys (obj_set o k v)) <-> k2 = k \/ In k2 (keys o).
Proof.
  rewrite <- !obj_has_keys, obj_has_set.
  destruct (String.eqb k k2) eqn:E; simpl.
  - apply String.eqb_eq in E. split; auto.
  - apply String.eqb_neq in E. split; [auto|]. intros [H|H]; [congruence|exact H].
Qed.

Lemma keys_set_nodup o k v : NoDup (keys o) -> NoDup (keys (obj_set o k v)).
Proof.
  intros H. destruct (obj_has o k) eqn:E.
  - rewrite keys_set_present by exact E. exact H.
  - apply (Permutation_NoDup (Permutation_sym (keys_set_perm o k v E))).
    constructor; [|exact H].
    rewrite <- obj_has_keys, E. discriminate.
Qed.
End ObjectKeys.

(** ** More on the aggregator *)

Lemma add_to_group_cases (g : obj (list row)) (r : row) :
  Forall (fun e => snd e <> [] /\ ~ In (fst e) inherited_names) g ->
  (In (unit_key r) inherited_names -> add_to_group g r = None)
  /\ (~ In (unit_key r) inherited_names ->
      exists g', add_to_group g r = Some g'
                 /\ Forall (fun e => snd e <> [] /\ ~ In (fst e) inherited_names) g').
Proof.
  intros Hg. unfold add_to_group.
  destruct (obj_get g (unit_key r)) as [rows|] eqn:E.
  - apply obj_get_in in E. rewrite Forall_forall in Hg.
    destruct (Hg _ E) as [_ Hni]. simpl in Hni. split; [contradiction|].
    intros _. eexists. split; [reflexivity|].
    apply obj_set_forall; [apply Forall_forall; exact Hg|].
    split; [destruct rows; discriminate|exact Hni].
  - destruct (existsb (String.eqb (unit_key r)) inherited_names) eqn:Ex.
    + apply existsb_eqb_in in Ex. split; [reflexivity|contradiction].
    + split.
      * intros Hin. apply existsb_eqb_in in Hin. congruence.
      * intros Hni. eexists. split; [reflexivity|].
        apply obj_set_forall; [exact Hg|]. split; [discriminate|exact Hni].
Qed.

Lemma group_rows_cases (data : list row) (g : obj (list row)) :
  Forall (fun e => snd e <> [] /\ ~ In (fst e) inherited_names) g ->
  (group_rows data g = None
   <-> exists r, In r data /\ In (unit_key r) inherited_names)
  /\ (forall g', group_rows data g = Some g' ->
                 Forall (fun e => snd e <> [] /\ ~ In (fst e) inherited_names) g').
Proof.
  revert g. induction data as [|r data IH]; intros g Hg; simpl.
  - split; [split; [discriminate|intros (r & [] & _)]|].
    intros g' [= <-]. exact Hg.
  - destruct (add_to_group_cases g r Hg) as [Hbad Hgood].
    destruct (in_dec string_dec (unit_key r) inherited_names) as [Hin|Hni].
    + rewrite (Hbad Hin). split; [|discriminate].
      split; [|reflexivity]. intros _. exists r. auto.
    + destruct (Hgood Hni) as (g1 & -> & Hg1).
      destruct (IH g1 Hg1) as [Hnone Hsome]. split; [|exact Hsome].
      rewrite Hnone. split.
      * intros (x & Hx & Hxi). exists x. auto.
      * intros (x & [<-|Hx] & Hxi); [contradiction|]. exists x. auto.
Qed.

Lemma apply_rule_total (rl : rule) (s r0 : row) (rest : list row) :
  exists out, apply_rule rl s (r0 :: rest) = Some out.
Proof. destruct rl; eexists; reflexivity. Qed.

Lemma summarize_total (name : string) (g : obj (list row)) :
  Forall (fun e => snd e <> []) g -> exists out, summarize name g = Some out.
Proof.
  induction 1 as [|[unit rows] g Hrows Hg IH]; simpl; [eexists; reflexivity|].
  destruct IH as [rest Hrest].
  destruct (String.eqb unit "N/A"); [eexists; exact Hrest|].
  destruct rows as [|r0 rows]; [simpl in Hrows; contradiction|].
  destruct (apply_rule_total (select_rule name) (new_summary unit) r0 rows) as [o ->].
  rewrite Hrest. eexists. reflexivity.
Qed.

(** X5. [aggregateData] raises exactly when the unit of some row, read as a
    property key, is the name of a member every object inherits
    (constructor, toString, ...); on any other series it returns. *)
Theorem aggregateData_raises (filename : string) (data : list row) :
  aggregateData filename data = None
  <-> exists r, In r data /\ In (unit_key r) inherited_names.
Proof.
  unfold aggregateData. destruct data as [|r0 data].
  - split; [discriminate|intros (r & [] & _)].
  - destruct (group_rows_cases (r0 :: data) [] (Forall_nil _)) as [Hnone Hsome].
    destruct (group_rows (r0 :: data) []) as [g|].
    + split.
      * intros H. exfalso.
        destruct (summarize_total (report_name filename) g) as [out Hout];
          [|congruence].
        specialize (Hsome g eq_refl). rewrite Forall_forall in *.
        intros e He. exact (proj1 (Hsome e He)).
      * intros H. apply Hnone in H. discriminate.
    + split; [intros _; apply Hnone; reflexivity|reflexivity].
Qed.

Lemma aggregateData_raises_witness :
  aggregateData "tecnologia.json"
    [unit_row (VStr "Palacio") 7; unit_row (VStr "constructor") 1] = None.
Proof.
  apply aggregateData_raises. exists (unit_row (VStr "constructor") 1).
  split; [right; left; reflexivity|left; reflexivity].
Defined.

Lemma group_rows_keys (data : list row) (g g' : obj (list row)) :
  group_rows data g = Some g' -> NoDup (keys g) ->
  NoDup (keys g')
  /\ (forall k, In k (keys g')
                <-> In k (keys g) \/ exists r, In r data /\ unit_key r = k).
Proof.
  revert g. induction data as [|r data IH]; intros g H Hnd; simpl in H.
  - injection H as <-. split; [exact Hnd|]. intros k. split; [auto|].
    intros [Hk|(r & [] & _)]. exact Hk.
  - destruct (add_to_group g r) as [g1|] eqn:E; [|discriminate].
    assert (Hg1 : NoDup (keys g1)
                  /\ forall k, In k (keys g1) <-> k = unit_key r \/ In k (keys g)).
    { unfold add_to_group in E.
      destruct (obj_get g (unit_key r)) as [rows|].
      - injection E as <-. split; [apply keys_set_nodup; exact Hnd|].
        intros k. apply keys_set_in.
      - destruct (existsb (String.eqb (unit_key r)) inherited_names); [discriminate|].
        injection E as <-. split; [apply keys_set_nodup; exact Hnd|].
        intros k. apply keys_set_in. }
    destruct Hg1 as [Hnd1 Hk1]. destruct (IH g1 H Hnd1) as [Hnd' Hk'].
    split; [exact Hnd'|]. intros k. rewrite Hk', Hk1. split.
    + intros [[->|Hk]|(x & Hx & Hxk)].
      * right. exists r. split; [left; reflexivity|reflexivity].
      * left. exact Hk.
      * right. exists x. split; [right; exact Hx|exact Hxk].
    + intros [Hk|(x & [<-|Hx] & Hxk)].
      * left. right. exact Hk.
      * left. left. symmetry. exact Hxk.
      * right. exists x. auto.
Qed.

Lemma generic_keeps_period (rows : list row) (ks : list string) (s : row) :
  get (fold_left (generic_step rows) ks s) Mes_Anio = get s Mes_Anio.
Proof.
  revert s. induction ks as [|k ks IH]; intros s; simpl; [reflexivity|].
  rewrite IH, generic_step_get.
  destruct (String.eqb k Mes_Anio) eqn:E; [|reflexivity].
  apply String.eqb_eq in E. subst k. reflexivity.
Qed.

Lemma apply_rule_keeps_period (rl : rule) (unit : string) (rows : list row) (out : row) :
  apply_rule rl (new_summary unit) rows = Some out ->
  get out Mes_Anio = VStr "Acumulado 2025".
Proof.
  assert (Hg : forall o, processGenericCounts (new_summary unit) rows = Some o ->
                         get o Mes_Anio = VStr "Acumulado 2025").
  { unfold processGenericCounts. destruct rows as [|r0 rest]; [discriminate|].
    intros o [= <-]. rewrite generic_keeps_period. reflexivity. }
  destruct rl; simpl; try exact (Hg out).
  intros [= <-]. unfold processTicketsGeneral. cbv zeta.
  repeat match goal with
         | |- context [if ?c then _ else _] => destruct c
         end;
    repeat (rewrite get_set_other by
              (unfold Cantidad_Tickets, Total_Tiempo_Productivo,
                 Promedio_Tiempo_Productivo, Promedio_Tiempo_Estimado,
                 Porcentaje_Cumplimiento, Mes_Anio; discriminate));
    reflexivity.
Qed.

Lemma summarize_rows (name : string) (g : obj (list row)) (out : list row) :
  summarize name g = Some out ->
  map (fun s => get s Nombre_Unidad) out
  = map VStr (filter (fun k => negb (String.eqb k "N/A")) (keys g))
  /\ Forall (fun s => get s Mes_Anio = VStr "Acumulado 2025") out.
Proof.
  revert out. induction g as [|[unit rows] g IH]; simpl; intros out H.
  - injection H as <-. split; [reflexivity|constructor].
  - destruct (String.eqb unit "N/A") eqn:E; simpl; [exact (IH out H)|].
    destruct (apply_rule (select_rule name) (new_summary unit) rows) as [sr|] eqn:Er;
      [|discriminate].
    destruct (summarize name g) as [rest|]; [|discriminate].
    injection H as <-. destruct (IH rest eq_refl) as [Hu Hm]. split.
    + simpl. rewrite Hu, (apply_rule_keeps_unit _ _ _ _ Er). reflexivity.
    + constructor; [exact (apply_rule_keeps_period _ _ _ _ Er)|exact Hm].
Qed.

(** X6. When [aggregateData] returns, there is one accumulation row for
    each unit key of the series other than N/A and no other row; each
    carries the label Acumulado 2025 and its unit key as a text. *)
Theorem aggregateData_rows (filename : string) (data : list row) (out : list row) :
  aggregateData filename data = Some out ->
  Forall (fun s => get s Mes_Anio = VStr "Acumulado 2025") out
  /\ NoDup (map (fun s => get s Nombre_Unidad) out)
  /\ (forall v, In v (map (fun s => get s Nombre_Unidad) out)
                <-> exists r, In r data /\ unit_key r <> "N/A"
                              /\ v = VStr (unit_key r)).
Proof.
  unfold aggregateData. destruct data as [|r0 data].
  - intros [= <-]. repeat apply conj; [constructor|constructor|].
    intros v. split; [intros []|intros (r & [] & _)].
  - destruct (group_rows (r0 :: data) []) as [g|] eqn:Eg; [|discriminate].
    intros H. destruct (summarize_rows _ _ _ H) as [Hu Hm].
    destruct (group_rows_keys _ _ _ Eg (NoDup_nil _)) as [Hnd Hk].
    repeat apply conj.
    + exact Hm.
    + rewrite Hu. apply Finite.Injective_map_NoDup; [intros a b E; congruence|].
      apply NoDup_filter. exact Hnd.
    + intros v. rewrite Hu, in_map_iff. split.
      * intros (k & <- & Hkf). apply filter_In in Hkf. destruct Hkf as [Hkin Hkna].
        apply Hk in Hkin. destruct Hkin as [[]|(r & Hr & <-)].
        exists r. repeat split; [exact Hr|].
        intros E. rewrite E in Hkna. discriminate.
      * intros (r & Hr & Hna & ->). exists (unit_key r). split; [reflexivity|].
        apply filter_In. split.
        -- apply Hk. right. exists r. auto.
        -- apply String.eqb_neq in Hna. rewrite Hna. reflexivity.
Qed.

Lemma aggregateData_rows_witness :
  NoDup (map (fun s => get s Nombre_Unidad)
           [[(Mes_Anio, VStr "Acumulado 2025"); (Nombre_Unidad, VStr "5");
             ("Total_Tickets_TI", vnum 3)]]).
Proof.
  apply (aggregateData_rows "tecnologia.json"
           [unit_row (vnum 5) 1; unit_row VNull 4; unit_row (vnum 5) 2]).
  vm_compute. reflexivity.
Defined.

Lemma generic_step_has (rows : list row) (s : row) (key k : string) :
  obj_has (generic_step rows s key) k
  = (String.eqb key k && negb (privileged key)) || obj_has s k.
Proof.
  unfold generic_step. fold (privileged key). destruct (privileged key); simpl.
  - rewrite andb_false_r. reflexivity.
  - rewrite andb_true_r. destruct (column_is_numeric key rows); apply obj_has_set.
Qed.

Lemma generic_fold_has (rows : list row) (ks : list string) (s : row) (k : string) :
  obj_has (fold_left (generic_step rows) ks s) k
  = (existsb (String.eqb k) ks && negb (privileged k)) || obj_has s k.
Proof.
  revert s. induction ks as [|k0 ks IH]; intros s; simpl; [reflexivity|].
  rewrite IH, generic_step_has, (String.eqb_sym k k0).
  destruct (String.eqb k0 k) eqn:E.
  - apply String.eqb_eq in E. subst k0.
    destruct (existsb (String.eqb k) ks), (privileged k), (obj_has s k); reflexivity.
  - destruct (existsb (String.eqb k) ks), (privileged k), (obj_has s k); reflexivity.
Qed.

Lemma generic_fold_untouched (rows : list row) (ks : list string) (s : row) (k : string) :
  existsb (String.eqb k) ks && negb (privileged k) = false ->
  get (fold_left (generic_step rows) ks s) k = get s k.
Proof.
  revert s. induction ks as [|k0 ks IH]; intros s H; simpl; [reflexivity|].
  simpl in H. rewrite (String.eqb_sym k k0) in H.
  destruct (String.eqb k0 k) eqn:E.
  - apply String.eqb_eq in E. subst k0. simpl in H.
    assert (Ep : privileged k = true) by (destruct (privileged k); [reflexivity|discriminate]).
    rewrite IH by (rewrite Ep; apply andb_false_r).
    rewrite generic_step_get, Ep, andb_false_r. reflexivity.
  - simpl in H. rewrite IH by exact H.
    rewrite generic_step_get, E. reflexivity.
Qed.

(** X7. Generic Counts goes by the columns of the first row of the group:
    it adds exactly those, but for the two key columns, to the summary row,
    and leaves every other column of the summary row as it was; a column
    that only later rows of the group carry is not accumulated. (A column
    named [__proto__] is left aside: an assignment to it adds no column.) *)
Theorem generic_counts_columns (summaryRow r0 : row) (rest : list row) (out : row) :
  processGenericCounts summaryRow (r0 :: rest) = Some out ->
  forall k, k <> "__proto__" ->
    obj_has out k
    = (obj_has r0 k && negb (privileged k)) || obj_has summaryRow k
    /\ (obj_has r0 k && negb (privileged k) = false ->
        get out k = get summaryRow k).
Proof.
  intros [= <-] k _.
  assert (E : existsb (String.eqb k) (keys r0) = obj_has r0 k).
  { destruct (obj_has r0 k) eqn:Eh.
    - apply existsb_eqb_in, obj_has_keys. exact Eh.
    - destruct (existsb (String.eqb k) (keys r0)) eqn:Ee; [|reflexivity].
      apply existsb_eqb_in, obj_has_keys in Ee. congruence. }
  split.
  - rewrite generic_fold_has, E. reflexivity.
  - intros H. apply generic_fold_untouched. rewrite E. exact H.
Qed.

Lemma generic_counts_columns_witness :
  obj_has (fold_left
             (generic_step [counts_row "Enero 2025" (vnum 4) (VStr "Sistemas");
                            [(Mes_Anio, VStr "Febrero 2025"); ("Extra", vnum 1)]])
             (keys (counts_row "Enero 2025" (vnum 4) (VStr "Sistemas")))
             (new_summary "Pierre Mundo Imperial"))
          "Extra" = false.
Proof.
  apply (generic_counts_columns (new_summary "Pierre Mundo Imperial")
           (counts_row "Enero 2025" (vnum 4) (VStr "Sistemas"))
           [[(Mes_Anio, VStr "Febrero 2025"); ("Extra", vnum 1)]] _
           eq_refl "Extra").
  discriminate.
Defined.

(** The columns of a Tickets-General accumulation row. *)
Lemma processTicketsGeneral_keys (unit : string) (rows : list row) :
  keys (processTicketsGeneral (new_summary unit) rows)
  = [Mes_Anio; Nombre_Unidad; Cantidad_Tickets; Total_Tiempo_Productivo;
     Promedio_Tiempo_Productivo; Promedio_Tiempo_Estimado; Porcentaje_Cumplimiento].
Proof.
  unfold processTicketsGeneral. cbv zeta.
  repeat match goal with
         | |- context [if ?c then _ else _] => destruct c
         end;
    repeat (rewrite keys_set_plain;
            [|rewrite ?obj_has_set; reflexivity|reflexivity]);
    reflexivity.
Qed.

Lemma summarize_tickets_keys (name : string) (g : obj (list row)) (out : list row) :
  select_rule name = RuleTickets -> summarize name g = Some out ->
  Forall (fun s => keys s
                   = [Mes_Anio; Nombre_Unidad; Cantidad_Tickets;
                      Total_Tiempo_Productivo; Promedio_Tiempo_Productivo;
                      Promedio_Tiempo_Estimado; Porcentaje_Cumplimiento]) out.
Proof.
  intros Hrule. revert out.
  induction g as [|[unit rows] g IH]; cbn [summarize]; intros out H.
  - injection H as <-. constructor.
  - destruct (String.eqb unit "N/A"); [exact (IH out H)|].
    rewrite Hrule in H. cbn [apply_rule] in H.
    destruct (summarize name g) as [rest|]; [|discriminate].
    injection H as <-. constructor; [apply processTicketsGeneral_keys|].
    apply IH. reflexivity.
Qed.

(** X8. For a report the general rule applies to, every accumulation row
    has the same seven columns in the same order, whatever the columns of
    the report: the two keys, the ticket count, the total and the average
    productive time, the average estimated time and the compliance. *)
Theorem tickets_general_schema (filename : string) (data out : list row) :
  select_rule (report_name filename) = RuleTickets ->
  aggregateData filename data = Some out ->
  Forall (fun s => keys s
                   = [Mes_Anio; Nombre_Unidad; Cantidad_Tickets;
                      Total_Tiempo_Productivo; Promedio_Tiempo_Productivo;
                      Promedio_Tiempo_Estimado; Porcentaje_Cumplimiento]) out.
Proof.
  intros Hrule. unfold aggregateData. destruct data as [|r0 data].
  - intros [= <-]. constructor.
  - destruct (group_rows (r0 :: data) []) as [g|]; [|discriminate].
    apply summarize_tickets_keys. exact Hrule.
Qed.

Lemma tickets_general_schema_witness :
  Forall (fun s => keys s
                   = [Mes_Anio; Nombre_Unidad; Cantidad_Tickets;
                      Total_Tiempo_Productivo; Promedio_Tiempo_Productivo;
                      Promedio_Tiempo_Estimado; Porcentaje_Cumplimiento])
    [processTicketsGeneral (new_summary "Pierre Mundo Imperial")
       [counts_row "Enero 2025" (vnum 4) (VStr "Sistemas")]].
Proof.
  apply (tickets_general_schema "Datos_Generales_2025.JSON"
           [counts_row "Enero 2025" (vnum 4) (VStr "Sistemas")]).
  - reflexivity.
  - reflexivity.
Defined.

(** ** More on the gap filler *)

Lemma find_filter {A : Type} (p q : A -> bool) (l : list A) :
  find p (filter q l) = find (fun x => q x && p x) l.
Proof.
  induction l as [|x l IH]; simpl; [reflexivity|].
  destruct (q x); simpl; [|exact IH]. destruct (p x); [reflexivity|exact IH].
Qed.

Lemma month_rows_find (ks : list string) (unit : value) (unitRows : list row)
    (month : string) :
  month_rows ks unit unitRows month
  = [match find (fun r => strict_eq (get r Mes_Anio) (VStr month)) unitRows with
     | Some e => e
     | None => zeroRow ks month unit
     end].
Proof.
  unfold month_rows.
  destruct (find (fun r => strict_eq (get r Mes_Anio) (VStr month)) unitRows)
    as [e|] eqn:Ef.
  - assert (Hex : existsb (fun r => value_eqb (get r Mes_Anio) (VStr month)) unitRows
                  = true).
    { apply find_some in Ef. destruct Ef as [He Hem]. apply existsb_exists.
      exists e. split; [exact He|]. rewrite <- strict_eq_string. exact Hem. }
    rewrite Hex. reflexivity.
  - destruct (existsb (fun r => value_eqb (get r Mes_Anio) (VStr month)) unitRows)
      eqn:Hex; [|reflexivity].
    exfalso. apply existsb_exists in Hex. destruct Hex as (r & Hr & Hrm).
    apply (find_none _ _ Ef) in Hr. rewrite strict_eq_string in Hr. congruence.
Qed.

(** Where a row of the filled series comes from: the rows pushed for its
    period and its unit. *)
Lemma filled_row_origin (r0 : row) (rest : list row) (r : row) :
  obj_has r0 Mes_Anio = true -> obj_has r0 Nombre_Unidad = true ->
  In r (fillMissingMonths (r0 :: rest)) ->
  exists m u,
    period_unit r = (VStr m, u)
    /\ In r (month_rows (keys r0) u
               (filter (fun x => strict_eq (get x Nombre_Unidad) u) (r0 :: rest)) m).
Proof.
  intros Hmes Hunit Hr.
  assert (Hkm : In Mes_Anio (keys r0)) by (apply obj_has_keys; exact Hmes).
  assert (Hku : In Nombre_Unidad (keys r0)) by (apply obj_has_keys; exact Hunit).
  apply (Permutation_in _ (fill_perm r0 rest Hmes Hunit)) in Hr.
  apply in_flat_map in Hr. destruct Hr as (u & _ & Hr).
  unfold unit_rows in Hr. apply in_flat_map in Hr. destruct Hr as (m & _ & Hr).
  exists m, u. split; [|exact Hr].
  destruct (month_rows_cases (keys r0) u
              (filter (fun x => strict_eq (get x Nombre_Unidad) u) (r0 :: rest)) m)
    as [(e & He & Hin & Hem)|[He _]]; rewrite He in Hr;
    destruct Hr as [<-|[]].
  - apply filter_In in Hin. destruct Hin as [_ Hu]. apply strict_eq_eq in Hu.
    unfold period_unit. rewrite Hem, Hu. reflexivity.
  - apply zeroRow_period_unit; assumption.
Qed.

(** X9. In the filled series the row of a period and a unit is the first
    row of the input with that unit and period, or the synthesized row when
    the input has none: later rows of the same unit and period are dropped.
    (The first row has no column named [__proto__], which a synthesized row
    cannot take.) *)
Theorem fillMissingMonths_first_row_kept (r0 : row) (rest : list row)
    (month : string) (unit : value) (r : row) :
  obj_has r0 Mes_Anio = true -> obj_has r0 Nombre_Unidad = true ->
  obj_has r0 "__proto__" = false ->
  In r (fillMissingMonths (r0 :: rest)) -> period_unit r = (VStr month, unit) ->
  r = match find (fun x => strict_eq (get x Nombre_Unidad) unit
                           && strict_eq (get x Mes_Anio) (VStr month))
                 (r0 :: rest) with
      | Some e => e
      | None => zeroRow (keys r0) month unit
      end.
Proof.
  intros Hmes Hunit _ Hr Hp.
  destruct (filled_row_origin r0 rest r Hmes Hunit Hr) as (m & u & Hpair & Hrows).
  rewrite Hp in Hpair. injection Hpair as -> ->.
  rewrite month_rows_find, find_filter in Hrows. destruct Hrows as [<-|[]].
  reflexivity.
Qed.

Lemma fillMissingMonths_first_row_kept_witness :
  series_row "Enero 2025" (VStr "Palacio Mundo Imperial") 2
  = match find (fun x => strict_eq (get x Nombre_Unidad) (VStr "Palacio Mundo Imperial")
                         && strict_eq (get x Mes_Anio) (VStr "Enero 2025"))
               [series_row "Enero 2025" (VStr "Palacio Mundo Imperial") 2;
                series_row "Enero 2025" (VStr "Palacio Mundo Imperial") 9] with
    | Some e => e
    | None => zeroRow (keys (series_row "Enero 2025" (VStr "Palacio Mundo Imperial") 2))
                "Enero 2025" (VStr "Palacio Mundo Imperial")
    end.
Proof.
  apply (fillMissingMonths_first_row_kept
           (series_row "Enero 2025" (VStr "Palacio Mundo Imperial") 2)
           [series_row "Enero 2025" (VStr "Palacio Mundo Imperial") 9]
           "Enero 2025" (VStr "Palacio Mundo Imperial")
           (series_row "Enero 2025" (VStr "Palacio Mundo Imperial") 2));
    try reflexivity.
  vm_compute. left. reflexivity.
Defined.

(** Two sorted lists with the same elements are the same list, where the
    order tells the elements apart. *)
Lemma sorted_perm_unique {A : Type} (R : A -> A -> Prop) (l1 l2 : list A) :
  StronglySorted R l1 -> StronglySorted R l2 -> Permutation l1 l2 ->
  (forall a b, In a l1 -> In b l1 -> R a b -> R b a -> a = b) ->
  l1 = l2.
Proof.
  intros H1. revert l2. induction H1 as [|a l1 Hs1 IH Ha]; intros l2 H2 Hp Hanti.
  - apply Permutation_nil in Hp. congruence.
  - destruct l2 as [|b l2]; [apply Permutation_sym, Permutation_nil in Hp; discriminate|].
    inversion H2 as [|? ? Hs2 Hb]; subst.
    assert (Eab : a = b).
    { assert (Hin_a : In a (b :: l2)) by (apply (Permutation_in _ Hp); left; reflexivity).
      assert (Hin_b : In b (a :: l1))
        by (apply (Permutation_in _ (Permutation_sym Hp)); left; reflexivity).
      destruct Hin_a as [E|Hin_a]; [congruence|].
      destruct Hin_b as [E|Hin_b]; [congruence|].
      rewrite Forall_forall in Ha, Hb.
      apply Hanti; [left; reflexivity|right; exact Hin_b|apply Ha; exact Hin_b|].
      apply Hb. exact Hin_a. }
    subst b. f_equal. apply IH; [exact Hs2|exact (Permutation_cons_inv Hp)|].
    intros x y Hx Hy. apply Hanti; right; assumption.
Qed.

(** ** More on the pivot tables *)

Lemma index_of_nth (s : string) (l : list string) (k i : nat) :
  index_of s l k = Some i -> exists j, i = (k + j)%nat /\ nth_error l j = Some s.
Proof.
  revert k. induction l as [|x l IH]; intros k H; simpl in H; [discriminate|].
  destruct (String.eqb x s) eqn:E.
  - apply String.eqb_eq in E. subst x. injection H as <-. exists 0%nat.
    split; [lia|reflexivity].
  - destruct (IH _ H) as (j & -> & Hj). exists (S j). split; [lia|exact Hj].
Qed.

(** The rank of a label of the calendar is its index, and tells it apart. *)
Lemma month_rank_canonical (m : string) :
  In m MONTHS_2025 ->
  exists i, month_rank (VStr m) = Some (Z.of_nat i) /\ nth_error MONTHS_2025 i = Some m.
Proof.
  intros Hm. destruct (index_of_in m MONTHS_2025 0 Hm) as [i Hi].
  exists i. split.
  - unfold month_rank, monthIndex. simpl to_string. rewrite Hi. reflexivity.
  - destruct (index_of_nth _ _ _ _ Hi) as (j & -> & Hj). exact Hj.
Qed.

Lemma filter_all {A : Type} (p : A -> bool) (l : list A) :
  (forall x, In x l -> p x = true) -> filter p l = l.
Proof.
  induction l as [|x l IH]; intros H; simpl; [reflexivity|].
  rewrite (H x (or_introl eq_refl)), IH; [reflexivity|].
  intros y Hy. apply H. right. exact Hy.
Qed.

Lemma filter_none {A : Type} (p : A -> bool) (l : list A) :
  (forall x, In x l -> p x = false) -> filter p l = [].
Proof.
  induction l as [|x l IH]; intros H; simpl; [reflexivity|].
  rewrite (H x (or_introl eq_refl)). apply IH.
  intros y Hy. apply H. right. exact Hy.
Qed.

Lemma canonical_labels_sorted :
  StronglySorted (fun a b => compare_months a b <= 0) (map VStr MONTHS_2025).
Proof.
  unfold MONTHS_2025. cbn [map].
  repeat (constructor; [|repeat (constructor; [vm_compute; discriminate|]); constructor]).
  constructor.
Qed.

(** X10. The periods of the pivot tables of a filled series are the twelve
    labels of the calendar, in calendar order. *)
Theorem pivot_months_of_filled (r0 : row) (rest : list row) :
  obj_has r0 Mes_Anio = true -> obj_has r0 Nombre_Unidad = true ->
  pivot_months_of (fillMissingMonths (r0 :: rest)) = map VStr MONTHS_2025.
Proof.
  intros Hmes Hunit. unfold pivot_months_of, sort_values.
  set (out := fillMissingMonths (r0 :: rest)).
  set (labels := distinct (map (fun r => get r Mes_Anio) out)).
  assert (Hlabels : forall v, In v labels <-> exists m, In m MONTHS_2025 /\ v = VStr m).
  { intros v. unfold labels. rewrite distinct_in, in_map_iff. split.
    - intros (r & <- & Hr).
      destruct (fill_row_period r0 rest Hmes Hunit r Hr) as (m & u & Hm & _ & Erm & _).
      exists m. auto.
    - intros (m & Hm & ->).
      assert (Hp : In (VStr m, get r0 Nombre_Unidad) (map period_unit out)).
      { apply (Permutation_in _ (Permutation_sym (fill_periods r0 rest Hmes Hunit))).
        apply calendar_pairs_in. exists m, (get r0 Nombre_Unidad).
        repeat split; [exact Hm|]. apply units_of_spec. exists r0.
        split; [left; reflexivity|reflexivity]. }
      apply in_map_iff in Hp. destruct Hp as (r & Er & Hr).
      exists r. split; [|exact Hr]. injection Er as E _. exact E. }
  rewrite (filter_all _ labels), (filter_none _ labels), app_nil_r.
  - apply (sorted_perm_unique (fun a b => compare_months a b <= 0)).
    + apply (js_sort_sorted compare_months
               (fun v => exists m, In m MONTHS_2025 /\ v = VStr m)).
      * intros a b (ma & Ha & ->) (mb & Hb & ->).
        destruct (month_rank_canonical ma Ha) as (i & Hi & _).
        destruct (month_rank_canonical mb Hb) as (j & Hj & _).
        unfold compare_months. rewrite Hi, Hj. lia.
      * intros a b c (ma & Ha & ->) (mb & Hb & ->) (mc & Hc & ->).
        destruct (month_rank_canonical ma Ha) as (i & Hi & _).
        destruct (month_rank_canonical mb Hb) as (j & Hj & _).
        destruct (month_rank_canonical mc Hc) as (k & Hk & _).
        unfold compare_months. rewrite Hi, Hj, Hk. lia.
      * apply Forall_forall. intros v Hv. apply Hlabels. exact Hv.
    + apply canonical_labels_sorted.
    + rewrite js_sort_perm. apply NoDup_Permutation.
      * apply distinct_nodup.
      * apply Finite.Injective_map_NoDup; [intros a b E; congruence|apply months_nodup].
      * intros v. rewrite Hlabels, in_map_iff. split; intros (m & H1 & H2); eauto.
    + intros a b Ha Hb Hab Hba.
      apply (Permutation_in _ (js_sort_perm compare_months labels)) in Ha, Hb.
      apply Hlabels in Ha, Hb. destruct Ha as (ma & Ha & ->), Hb as (mb & Hb & ->).
      destruct (month_rank_canonical ma Ha) as (i & Hi & Ni).
      destruct (month_rank_canonical mb Hb) as (j & Hj & Nj).
      unfold compare_months in Hab, Hba. rewrite Hi, Hj in Hab, Hba.
      assert (i = j) by lia. subst j. congruence.
  - intros v Hv. apply Hlabels in Hv. destruct Hv as (m & _ & ->). reflexivity.
  - intros v Hv. apply Hlabels in Hv. destruct Hv as (m & _ & ->). reflexivity.
Qed.

Lemma pivot_months_of_filled_witness :
  pivot_months_of (fillMissingMonths text_series) = map VStr MONTHS_2025.
Proof.
  apply (pivot_months_of_filled
           (series_row "Marzo 2025" (VStr "Princess Mundo Imperial") 4)
           [series_row "Enero 2025" (VStr "Palacio Mundo Imperial") 2;
            series_row "Acumulado 2024" (VStr "Palacio Mundo Imperial") 9]);
    reflexivity.
Defined.

(** *** Filling twice *)

Lemma get_has (r : row) (k : string) : get r k <> VUndef -> obj_has r k = true.
Proof.
  unfold get, obj_has. destruct (obj_get r k); [reflexivity|]. intros H. contradiction.
Qed.

(** A row of the calendar whose unit is a text, as the rows of a filled
    series of text units are. *)
Lemma period_major_antisym (a b : row) (ma mb sa sb : string) :
  In ma MONTHS_2025 -> In mb MONTHS_2025 ->
  get a Mes_Anio = VStr ma -> get b Mes_Anio = VStr mb ->
  get a Nombre_Unidad = VStr sa -> get b Nombre_Unidad = VStr sb ->
  period_major a b -> period_major b a -> period_unit a = period_unit b.
Proof.
  intros Ha Hb Ema Emb Esa Esb.
  destruct (index_of_in ma MONTHS_2025 0 Ha) as [i Hi].
  destruct (index_of_in mb MONTHS_2025 0 Hb) as [j Hj].
  unfold period_major, sort_key, key_le, monthIndex, period_unit.
  rewrite Ema, Emb, Esa, Esb. simpl to_string. rewrite Hi, Hj. simpl fst. simpl snd.
  intros [H1|[E1 L1]] [H2|[E2 L2]]; try lia.
  subst j. rewrite (String.leb_antisym _ _ L1 L2).
  destruct (index_of_nth _ _ _ _ Hi) as (x & Ex & Nx).
  destruct (index_of_nth _ _ _ _ Hj) as (y & Ey & Ny).
  assert (x = y) by lia. subst y. congruence.
Qed.

(** X11. Filling a series whose units are texts a second time changes
    nothing. *)
Theorem fillMissingMonths_idempotent (r0 : row) (rest : list row) :
  obj_has r0 Mes_Anio = true -> obj_has r0 Nombre_Unidad = true ->
  (forall r, In r (r0 :: rest) -> exists s, get r Nombre_Unidad = VStr s) ->
  fillMissingMonths (fillMissingMonths (r0 :: rest)) = fillMissingMonths (r0 :: rest).
Proof.
  intros Hmes Hunit Htext.
  pose proof (fill_periods r0 rest Hmes Hunit) as Hpairs.
  pose proof (fill_periods_nodup r0 rest Hmes Hunit) as Hnd.
  assert (Hrows : forall r, In r (fillMissingMonths (r0 :: rest)) ->
            exists m s, In m MONTHS_2025 /\ get r Mes_Anio = VStr m
                        /\ get r Nombre_Unidad = VStr s).
  { intros r Hr.
    destruct (fill_row_period r0 rest Hmes Hunit r Hr) as (m & u & Hm & Hu & Erm & Eru).
    apply units_of_spec in Hu. destruct Hu as (r' & Hr' & Er').
    destruct (Htext r' Hr') as [s Hs]. exists m, s. repeat split; congruence. }
  assert (Hsorted1 : StronglySorted period_major (fillMissingMonths (r0 :: rest))).
  { rewrite (fill_active r0 rest Hmes Hunit). apply sorted_text_rows.
    apply Forall_forall. intros r Hr.
    apply (Permutation_in _ (Permutation_sym (fill_perm r0 rest Hmes Hunit))) in Hr.
    destruct (Hrows r Hr) as (m & s & Hm & Erm & Ers).
    destruct (index_of_in m MONTHS_2025 0 Hm) as [i Hi].
    exists i, s. split; [rewrite Erm; exact Hi|exact Ers]. }
  assert (Hunits : forall u, In u (units_of (fillMissingMonths (r0 :: rest)))
                             <-> In u (units_of (r0 :: rest))).
  { intros u. rewrite (units_of_spec (fillMissingMonths (r0 :: rest))). split.
    - intros (r & Hr & <-).
      destruct (fill_row_period r0 rest Hmes Hunit r Hr) as (m & u & _ & Hu & _ & Eru).
      congruence.
    - intros Hu.
      assert (Hp : In (VStr "Enero 2025", u)
                      (map period_unit (fillMissingMonths (r0 :: rest)))).
      { apply (Permutation_in _ (Permutation_sym Hpairs)). apply calendar_pairs_in.
        exists "Enero 2025", u. repeat split; [left; reflexivity|exact Hu]. }
      apply in_map_iff in Hp. destruct Hp as (r & Er & Hr).
      exists r. split; [exact Hr|]. injection Er as _ E. exact E. }
  destruct (fillMissingMonths (r0 :: rest)) as [|o0 orest] eqn:Eout.
  { reflexivity. }
  destruct (Hrows o0 (or_introl eq_refl)) as (m0 & s0 & _ & Em0 & Es0).
  assert (Hmes0 : obj_has o0 Mes_Anio = true) by (apply get_has; rewrite Em0; discriminate).
  assert (Hunit0 : obj_has o0 Nombre_Unidad = true)
    by (apply get_has; rewrite Es0; discriminate).
  assert (Hkm : In Mes_Anio (keys o0)) by (apply obj_has_keys; exact Hmes0).
  assert (Hku : In Nombre_Unidad (keys o0)) by (apply obj_has_keys; exact Hunit0).
  rewrite (fill_active o0 orest Hmes0 Hunit0).
  set (second := flat_map (unit_rows (o0 :: orest) (keys o0)) (units_of (o0 :: orest))).
  assert (Hsecond : map period_unit second = calendar_pairs (units_of (o0 :: orest)))
    by (apply filled_periods; assumption).
  assert (Hincl : incl second (o0 :: orest)).
  { intros r Hr. unfold second in Hr. apply in_flat_map in Hr.
    destruct Hr as (u & Hu & Hr). unfold unit_rows in Hr.
    apply in_flat_map in Hr. destruct Hr as (m & Hm & Hr).
    destruct (month_rows_cases (keys o0) u
                (filter (fun x => strict_eq (get x Nombre_Unidad) u) (o0 :: orest)) m)
      as [(e & He & Hin & _)|[_ Hnone]].
    - rewrite He in Hr. destruct Hr as [<-|[]]. apply filter_In in Hin. tauto.
    - exfalso. apply Hunits in Hu.
      assert (Hp : In (VStr m, u) (map period_unit (o0 :: orest))).
      { apply (Permutation_in _ (Permutation_sym Hpairs)). apply calendar_pairs_in.
        exists m, u. auto. }
      apply in_map_iff in Hp. destruct Hp as (x & Ex & Hx). injection Ex as Exm Exu.
      apply (Hnone x); [|exact Exm]. apply filter_In. split; [exact Hx|].
      destruct (Hrows x Hx) as (_ & s & _ & _ & Exs).
      rewrite Exs. unfold strict_eq. rewrite <- Exu, Exs.
      destruct (value_eq_dec (VStr s) (VStr s)); [reflexivity|contradiction]. }
  assert (Hperm : Permutation second (o0 :: orest)).
  { apply NoDup_Permutation_bis.
    - apply (NoDup_map_inv period_unit). rewrite Hsecond.
      apply calendar_pairs_nodup, distinct_nodup.
    - rewrite <- (length_map period_unit second), Hsecond, calendar_pairs_length.
      rewrite <- (length_map period_unit (o0 :: orest)), (Permutation_length Hpairs),
        calendar_pairs_length.
      apply Nat.mul_le_mono_l, Nat.eq_le_incl, Permutation_length, NoDup_Permutation;
        [apply distinct_nodup|apply distinct_nodup|].
      intros u. symmetry. apply Hunits.
    - exact Hincl. }
  apply (sorted_perm_unique period_major).
  - apply sorted_text_rows. apply Forall_forall. intros r Hr.
    apply Hincl in Hr. destruct (Hrows r Hr) as (m & s & Hm & Erm & Ers).
    destruct (index_of_in m MONTHS_2025 0 Hm) as [i Hi].
    exists i, s. split; [rewrite Erm; exact Hi|exact Ers].
  - exact Hsorted1.
  - rewrite js_sort_perm. exact Hperm.
  - intros a b Ha Hb Hab Hba.
    apply (Permutation_in _ (js_sort_perm compare_rows second)) in Ha, Hb.
    apply Hincl in Ha, Hb.
    destruct (Hrows a Ha) as (ma & sa & Hma & Ema & Esa).
    destruct (Hrows b Hb) as (mb & sb & Hmb & Emb & Esb).
    apply (nodup_map_inj period_unit (o0 :: orest) a b Hnd Ha Hb).
    exact (period_major_antisym a b ma mb sa sb Hma Hmb Ema Emb Esa Esb Hab Hba).
Qed.

Lemma fillMissingMonths_idempotent_witness :
  fillMissingMonths (fillMissingMonths text_series) = fillMissingMonths text_series.
Proof.
  apply (fillMissingMonths_idempotent
           (series_row "Marzo 2025" (VStr "Princess Mundo Imperial") 4)
           [series_row "Enero 2025" (VStr "Palacio Mundo Imperial") 2;
            series_row "Acumulado 2024" (VStr "Palacio Mundo Imperial") 9]);
    try reflexivity.
  intros r [<-|[<-|[<-|[]]]]; eexists; reflexivity.
Defined.

(** ** The pivot tables in the grid *)

(** A row built by assigning [f u] under every unit name holds [f] of a
    name under that name and is unchanged elsewhere. *)
Lemma obj_get_fold_names (f : value -> value) (names : list string) (acc : row)
    (k : string) :
  obj_get (fold_left (fun r v => obj_set r (to_string v) (f v)) (map VStr names) acc) k
  = if in_dec string_dec k names then Some (f (VStr k)) else obj_get acc k.
Proof.
  revert acc. induction names as [|n names IH]; intros acc; [reflexivity|].
  cbn [map fold_left]. rewrite IH. cbn [to_string].
  destruct (in_dec string_dec k names) as [Hin|Hin].
  - destruct (in_dec string_dec k (n :: names)) as [_|Hn]; [reflexivity|].
    exfalso. apply Hn. right. exact Hin.
  - destruct (string_dec n k) as [->|Hne].
    + rewrite obj_get_set_same.
      destruct (in_dec string_dec k (k :: names)) as [_|Hn]; [reflexivity|].
      exfalso. apply Hn. left. reflexivity.
    + rewrite obj_get_set_other by exact Hne.
      destruct (in_dec string_dec k (n :: names)) as [[E|Hn]|_];
        [contradiction|contradiction|reflexivity].
Qed.

Lemma in_dec_true (k : string) (names : list string) {B : Type} (x y : B) :
  In k names -> (if in_dec string_dec k names then x else y) = x.
Proof. intros H. destruct (in_dec string_dec k names); [reflexivity|contradiction]. Qed.

Lemma in_dec_false (k : string) (names : list string) {B : Type} (x y : B) :
  ~ In k names -> (if in_dec string_dec k names then x else y) = y.
Proof. intros H. destruct (in_dec string_dec k names); [contradiction|reflexivity]. Qed.

Lemma keys_fold_set_nonempty {B : Type} (step : row -> B -> row) (l : list B) (acc : row) :
  (forall r b, keys r <> [] -> keys (step r b) <> []) ->
  keys acc <> [] -> keys (fold_left step l acc) <> [].
Proof.
  intros Hstep. revert acc. induction l as [|b l IH]; intros acc Hacc; [exact Hacc|].
  cbn [fold_left]. apply IH, Hstep, Hacc.
Qed.

Lemma keys_set_nonempty (r : row) (k : string) (v : value) : keys (obj_set r k v) <> [].
Proof.
  intros E. assert (H : obj_has (obj_set r k v) k = true).
  { unfold obj_has. rewrite obj_get_set_same. reflexivity. }
  apply obj_has_keys in H. rewrite E in H. destruct H.
Qed.

(** The line of a row of a pivot table that has the period label [label]
    and a cell [f u] for every unit. *)
Lemma pivot_line_assigned (f : value -> value) (names : list string) (label : value) :
  ~ In "Mes" names -> ~ In "pivot_title" names ->
  pivot_line (map VStr names)
    (fold_left (fun r v => obj_set r (to_string v) (f v)) (map VStr names)
               [("Mes", label)])
  = Cell (if truthy label then label else VStr "")
    :: map (fun u => Cell (f u)) (map VStr names).
Proof.
  intros Hmes Htitle. unfold pivot_line.
  set (r := fold_left _ _ _).
  assert (Hget : forall k, obj_get r k
                 = if in_dec string_dec k names then Some (f (VStr k))
                   else obj_get [("Mes", label)] k)
    by (intros k; apply obj_get_fold_names).
  assert (Hk : keys r <> []).
  { intros E. assert (H : obj_has r "Mes" = true).
    { unfold obj_has. rewrite Hget, in_dec_false by exact Hmes. reflexivity. }
    apply obj_has_keys in H. rewrite E in H. destruct H. }
  destruct (keys r) as [|k0 ks]; [contradiction|].
  assert (Ht : get r "pivot_title" = VUndef).
  { unfold get. rewrite Hget, in_dec_false by exact Htitle. reflexivity. }
  assert (Hm : get r "Mes" = label).
  { unfold get. rewrite Hget, in_dec_false by exact Hmes. reflexivity. }
  rewrite Ht, Hm. cbn [truthy]. f_equal.
  rewrite !map_map. apply map_ext_in. intros n Hn. cbn [to_string].
  unfold read. rewrite Hget, in_dec_true by exact Hn. reflexivity.
Qed.

(** X12. How the grid shows the pivot table of a metric whose unit columns
    are texts other than [Mes], [pivot_title] and [__proto__]: a spacer, the
    title, the header of the unit names, one line per period with the cell
    of every unit, and the totals line, whose cells follow from the column
    of the unit. *)
Theorem pivot_table_lines (data : list row) (names : list string) (m0 : value)
    (ms : list value) (metric : string) :
  In metric known_metrics ->
  ~ In "Mes" names -> ~ In "pivot_title" names -> ~ In "__proto__" names ->
  let units := map VStr names in
  let months := m0 :: ms in
  map (pivot_line units) (pivot_table data units months metric)
  = ([] :: [Cell (VStr ("COMPARATIVA: " ++ metric))]
        :: (Cell (VStr "Mes") :: map Cell units)
        :: map (fun m => Cell (if truthy m then m else VStr "")
                         :: map (fun u => Cell (pivot_cell data metric m u)) units)
               months
        ++ [Cell (VStr "TOTAL")
            :: map (fun u => Cell (total_cell metric (pivot_cell data metric m0 u)
                                     (map (fun m => pivot_cell data metric m u) months)))
                   units])%list.
Proof.
  intros _ Hmes Htitle _ units months.
  assert (Hcell : forall m n, In n names ->
            get (period_row data metric units m) n = pivot_cell data metric m (VStr n)).
  { intros m n Hn. unfold get, period_row, units.
    rewrite (obj_get_fold_names (pivot_cell data metric m)), in_dec_true by exact Hn.
    reflexivity. }
  assert (Hspacer : pivot_line units [] = []) by reflexivity.
  assert (Htitle_line :
            pivot_line units [("pivot_title", VStr ("COMPARATIVA: " ++ metric))]
            = [Cell (VStr ("COMPARATIVA: " ++ metric))]) by reflexivity.
  assert (Hheader : pivot_line units (column_header units)
                    = Cell (VStr "Mes") :: map Cell units).
  { unfold column_header, units.
    rewrite (pivot_line_assigned (fun u => u) names (VStr "Mes") Hmes Htitle).
    cbn [truthy]. reflexivity. }
  unfold pivot_table. cbn [map]. rewrite Hspacer, Htitle_line, Hheader.
  do 3 f_equal.
  rewrite map_app. cbn [map]. f_equal.
  - unfold table_rows. rewrite map_map. apply map_ext. intros m.
    unfold period_row, units.
    apply (pivot_line_assigned (pivot_cell data metric m) names m Hmes Htitle).
  - f_equal. unfold total_row, table_rows, months. cbn [map].
    set (first := period_row data metric units m0).
    set (others := map (period_row data metric units) ms).
    change (fold_left (total_step metric (first :: others)) units [("Mes", VStr "TOTAL")])
      with (fold_left (fun r v => obj_set r (to_string v)
                         (total_cell metric (get first (to_string v))
                            (column (first :: others) (to_string v))))
                      units [("Mes", VStr "TOTAL")]).
    unfold units at 1 2.
    rewrite (pivot_line_assigned
               (fun v => total_cell metric (get first (to_string v))
                           (column (first :: others) (to_string v)))
               names (VStr "TOTAL") Hmes Htitle).
    cbn [truthy]. f_equal. unfold units. rewrite !map_map.
    apply map_ext_in. intros n Hn. cbn [to_string]. f_equal. f_equal.
    + unfold first. apply Hcell. exact Hn.
    + unfold column, first, others. cbn [map]. f_equal; [apply Hcell; exact Hn|].
      rewrite map_map. apply map_ext. intros m. apply Hcell. exact Hn.
Qed.

Lemma pivot_table_lines_witness :
  map (pivot_line pivot_units)
      (pivot_table pivot_series pivot_units pivot_months Cantidad_Tickets)
  = [[]; [Cell (VStr "COMPARATIVA: Cantidad_Tickets")];
     [Cell (VStr "Mes"); Cell (VStr "Palacio Mundo Imperial")];
     [Cell (VStr "Enero 2025");
      Cell (pivot_cell pivot_series Cantidad_Tickets (VStr "Enero 2025")
              (VStr "Palacio Mundo Imperial"))];
     [Cell (VStr "Febrero 2025");
      Cell (pivot_cell pivot_series Cantidad_Tickets (VStr "Febrero 2025")
              (VStr "Palacio Mundo Imperial"))];
     [Cell (VStr "TOTAL");
      Cell (total_cell Cantidad_Tickets
              (pivot_cell pivot_series Cantidad_Tickets (VStr "Enero 2025")
                 (VStr "Palacio Mundo Imperial"))
              [pivot_cell pivot_series Cantidad_Tickets (VStr "Enero 2025")
                 (VStr "Palacio Mundo Imperial");
               pivot_cell pivot_series Cantidad_Tickets (VStr "Febrero 2025")
                 (VStr "Palacio Mundo Imperial")])]].
Proof.
  apply (pivot_table_lines pivot_series ["Palacio Mundo Imperial"]
           (VStr "Enero 2025") [VStr "Febrero 2025"] Cantidad_Tickets).
  - left. reflexivity.
  - intros [E|[]]. discriminate.
  - intros [E|[]]. discriminate.
  - intros [E|[]]. discriminate.
Defined.

(** ** The pivot tables of a filled series *)

(** X13. In a pivot table of a filled series the cell of a period of the
    calendar and a unit of the input holds the metric of the first row of
    the input with that unit and period, or the default of the column where
    the input has no such row; 0 stands for a metric that is not set. *)
Theorem pivot_cell_filled (r0 : row) (rest : list row) (metric month : string)
    (unit : value) :
  obj_has r0 Mes_Anio = true -> obj_has r0 Nombre_Unidad = true ->
  In metric known_metrics ->
  In month MONTHS_2025 -> In unit (units_of (r0 :: rest)) -> unit <> VNum NaN ->
  pivot_cell (fillMissingMonths (r0 :: rest)) metric (VStr month) unit
  = match get (match find (fun x => strict_eq (get x Nombre_Unidad) unit
                                    && strict_eq (get x Mes_Anio) (VStr month))
                          (r0 :: rest) with
               | Some e => e
               | None => zeroRow (keys r0) month unit
               end) metric with
    | VUndef | VNull => vnum 0
    | v => v
    end.
Proof.
  intros Hmes Hunit _ Hmonth Hu Hnan.
  assert (Hrefl : forall v, v <> VNum NaN -> strict_eq v v = true).
  { intros v Hv. unfold strict_eq.
    destruct v as [| | |[]|]; try reflexivity; try contradiction;
      match goal with
      | |- context [value_eq_dec ?x ?y] => destruct (value_eq_dec x y); congruence
      end. }
  assert (Hp : In (VStr month, unit) (map period_unit (fillMissingMonths (r0 :: rest)))).
  { apply (Permutation_in _ (Permutation_sym (fill_periods r0 rest Hmes Hunit))).
    apply calendar_pairs_in. exists month, unit. auto. }
  apply in_map_iff in Hp. destruct Hp as (r & Er & Hr). injection Er as Erm Eru.
  unfold pivot_cell.
  destruct (find (fun x => strict_eq (get x Mes_Anio) (VStr month)
                           && strict_eq (get x Nombre_Unidad) unit)
                 (fillMissingMonths (r0 :: rest))) as [found|] eqn:Ef.
  - apply find_some in Ef. destruct Ef as [Hin Hfound].
    apply andb_true_iff in Hfound. destruct Hfound as [Em Eu].
    apply strict_eq_eq in Em, Eu.
    destruct (filled_row_origin r0 rest found Hmes Hunit Hin) as (m & u & Hpair & Hrows).
    unfold period_unit in Hpair. rewrite Em, Eu in Hpair. injection Hpair as <- <-.
    rewrite month_rows_find, find_filter in Hrows. destruct Hrows as [<-|[]].
    match goal with |- context [get ?e metric] => destruct (get e metric) end;
      reflexivity.
  - exfalso. apply (find_none _ _ Ef) in Hr. rewrite Erm, Eru in Hr.
    rewrite !Hrefl in Hr; [discriminate|exact Hnan|discriminate].
Qed.

Lemma pivot_cell_filled_witness :
  pivot_cell (fillMissingMonths text_series) "Cantidad_Tickets" (VStr "Enero 2025")
             (VStr "Palacio Mundo Imperial") = vnum 2
  /\ pivot_cell (fillMissingMonths text_series) "Cantidad_Tickets"
                (VStr "Febrero 2025") (VStr "Palacio Mundo Imperial") = vnum 0.
Proof.
  split.
  - etransitivity.
    + apply (pivot_cell_filled
               (series_row "Marzo 2025" (VStr "Princess Mundo Imperial") 4)
               [series_row "Enero 2025" (VStr "Palacio Mundo Imperial") 2;
                series_row "Acumulado 2024" (VStr "Palacio Mundo Imperial") 9]
               "Cantidad_Tickets" "Enero 2025" (VStr "Palacio Mundo Imperial"));
        try reflexivity;
        [left; reflexivity|left; reflexivity|right; left; reflexivity|discriminate].
    + reflexivity.
  - etransitivity.
    + apply (pivot_cell_filled
               (series_row "Marzo 2025" (VStr "Princess Mundo Imperial") 4)
               [series_row "Enero 2025" (VStr "Palacio Mundo Imperial") 2;
                series_row "Acumulado 2024" (VStr "Palacio Mundo Imperial") 9]
               "Cantidad_Tickets" "Febrero 2025" (VStr "Palacio Mundo Imperial"));
        try reflexivity;
        [left; reflexivity|right; left; reflexivity|right; left; reflexivity|discriminate].
    + reflexivity.
Defined.

(** ** The order of the units *)

Lemma known_index (u : string) :
  known u = true ->
  exists i, index_of u UNIT_ORDER 0 = Some i /\ nth_error UNIT_ORDER i = Some u.
Proof.
  intros H. apply existsb_eqb_in in H.
  destruct (index_of_in u UNIT_ORDER 0 H) as [i Hi]. exists i. split; [exact Hi|].
  destruct (index_of_nth _ _ _ _ Hi) as (j & -> & Hj). exact Hj.
Qed.

Lemma unknown_index (u : string) : known u = false -> index_of u UNIT_ORDER 0 = None.
Proof.
  intros H. destruct (index_of u UNIT_ORDER 0) as [i|] eqn:E; [|reflexivity].
  destruct (index_of_nth _ _ _ _ E) as (j & _ & Hj). apply nth_error_In in Hj.
  apply existsb_eqb_in in Hj. unfold known in H. congruence.
Qed.

Section SortExt.
Context {A : Type} (cmp1 cmp2 : A -> A -> Z).

Lemma sort_insert_ext_in (x : A) (l : list A) :
  (forall y, In y l -> cmp1 x y = cmp2 x y) -> sort_insert cmp1 x l = sort_insert cmp2 x l.
Proof.
  induction l as [|y l IH]; intros H; simpl; [reflexivity|].
  rewrite (H y (or_introl eq_refl)), IH; [reflexivity|].
  intros z Hz. apply H. right. exact Hz.
Qed.

Lemma js_sort_ext_in (l : list A) :
  (forall a b, In a l -> In b l -> cmp1 a b = cmp2 a b) -> js_sort cmp1 l = js_sort cmp2 l.
Proof.
  induction l as [|x l IH]; intros H; simpl; [reflexivity|].
  rewrite IH by (intros a b Ha Hb; apply H; right; assumption).
  apply sort_insert_ext_in. intros y Hy.
  apply (Permutation_in _ (js_sort_perm cmp2 l)) in Hy.
  apply H; [left; reflexivity|right; exact Hy].
Qed.
End SortExt.

Section UnitOrderFacts.
Variable localeCompare : string -> string -> Z.

Lemma compare_units_known (a b : string) (i j : nat) :
  index_of a UNIT_ORDER 0 = Some i -> index_of b UNIT_ORDER 0 = Some j ->
  compare_units localeCompare a b = Z.of_nat i - Z.of_nat j.
Proof. intros Ha Hb. unfold compare_units. rewrite Ha, Hb. reflexivity. Qed.

(** A known unit goes into the known units, before the others. *)
Lemma sort_insert_known (x : string) (ks us : list string) :
  known x = true -> Forall (fun u => known u = false) us ->
  sort_insert (compare_units localeCompare) x (ks ++ us)
  = (sort_insert (compare_units localeCompare) x ks ++ us)%list.
Proof.
  intros Hx Hus. induction ks as [|k ks IH]; simpl.
  - destruct us as [|u us]; [reflexivity|]. simpl.
    inversion Hus as [|? ? Hu _]; subst.
    destruct (known_index x Hx) as (i & Hi & _).
    unfold compare_units. rewrite Hi, (unknown_index u Hu). reflexivity.
  - destruct (compare_units localeCompare x k <=? 0); [reflexivity|].
    rewrite IH. reflexivity.
Qed.

(** Another unit goes after the known units. *)
Lemma sort_insert_unknown (x : string) (ks us : list string) :
  known x = false -> Forall (fun k => known k = true) ks ->
  sort_insert (compare_units localeCompare) x (ks ++ us)
  = (ks ++ sort_insert (compare_units localeCompare) x us)%list.
Proof.
  intros Hx Hks. induction Hks as [|k ks Hk Hks IH]; simpl; [reflexivity|].
  destruct (known_index k Hk) as (i & Hi & _).
  unfold compare_units at 1. rewrite (unknown_index x Hx), Hi. simpl.
  rewrite IH. reflexivity.
Qed.

Lemma sortUnits_split (units : list string) :
  sortUnits localeCompare units
  = (sortUnits localeCompare (filter known units)
     ++ sortUnits localeCompare (filter (fun u => negb (known u)) units))%list.
Proof.
  unfold sortUnits. induction units as [|x units IH]; simpl; [reflexivity|].
  assert (Hks : Forall (fun k => known k = true)
                  (js_sort (compare_units localeCompare) (filter known units))).
  { apply Forall_forall. intros k Hk.
    apply (Permutation_in _ (js_sort_perm _ _)) in Hk. apply filter_In in Hk. tauto. }
  assert (Hus : Forall (fun u => known u = false)
                  (js_sort (compare_units localeCompare)
                     (filter (fun u => negb (known u)) units))).
  { apply Forall_forall. intros u Hu.
    apply (Permutation_in _ (js_sort_perm _ _)) in Hu. apply filter_In in Hu.
    destruct Hu as [_ Hu]. apply negb_true_iff in Hu. exact Hu. }
  rewrite IH. destruct (known x) eqn:Hx; simpl.
  - apply sort_insert_known; assumption.
  - apply sort_insert_unknown; assumption.
Qed.

Lemma unit_order_sorted (b1 b2 b3 : bool) :
  StronglySorted (fun a b => compare_units localeCompare a b <= 0)
    (filter (fun k => match index_of k UNIT_ORDER 0 with
                      | Some 0%nat => b1
                      | Some 1%nat => b2
                      | _ => b3
                      end) UNIT_ORDER).
Proof.
  destruct b1, b2, b3; cbn;
    repeat (constructor; [|repeat (constructor; [vm_compute; discriminate|]); constructor]);
    constructor.
Qed.

(** X14. [sortUnits] puts the units of [UNIT_ORDER] first, in the order of
    that list, and the other units after them, in the order of the
    collation. *)
Theorem sortUnits_known_first (units : list string) :
  NoDup units ->
  sortUnits localeCompare units
  = (filter (fun k => existsb (String.eqb k) units) UNIT_ORDER
     ++ js_sort localeCompare (filter (fun u => negb (known u)) units))%list.
Proof.
  intros Hnd. rewrite sortUnits_split. f_equal.
  - unfold sortUnits.
    apply (sorted_perm_unique (fun a b => compare_units localeCompare a b <= 0)).
    + apply (js_sort_sorted (compare_units localeCompare) (fun u => known u = true)).
      * intros a b Ha Hb.
        destruct (known_index a Ha) as (i & Hi & _), (known_index b Hb) as (j & Hj & _).
        rewrite (compare_units_known a b i j Hi Hj), (compare_units_known b a j i Hj Hi).
        lia.
      * intros a b c Ha Hb Hc.
        destruct (known_index a Ha) as (i & Hi & _), (known_index b Hb) as (j & Hj & _),
          (known_index c Hc) as (k & Hk & _).
        rewrite (compare_units_known a b i j Hi Hj), (compare_units_known b c j k Hj Hk),
          (compare_units_known a c i k Hi Hk).
        lia.
      * apply Forall_forall. intros u Hu. apply filter_In in Hu. tauto.
    + rewrite (filter_ext_in (fun k => existsb (String.eqb k) units)
                 (fun k => match index_of k UNIT_ORDER 0 with
                           | Some 0%nat => existsb (String.eqb "Palacio Mundo Imperial") units
                           | Some 1%nat => existsb (String.eqb "Princess Mundo Imperial") units
                           | _ => existsb (String.eqb "Pierre Mundo Imperial") units
                           end)).
      * apply unit_order_sorted.
      * intros k [<-|[<-|[<-|[]]]]; reflexivity.
    + rewrite js_sort_perm. apply NoDup_Permutation.
      * apply NoDup_filter. exact Hnd.
      * apply NoDup_filter. repeat constructor; simpl; intuition discriminate.
      * intros u. rewrite !filter_In, existsb_eqb_in. unfold known.
        rewrite existsb_eqb_in. tauto.
    + intros a b Ha Hb Hab Hba.
      apply (Permutation_in _ (js_sort_perm _ _)) in Ha, Hb.
      apply filter_In in Ha, Hb. destruct Ha as [_ Ha], Hb as [_ Hb].
      destruct (known_index a Ha) as (i & Hi & Ni), (known_index b Hb) as (j & Hj & Nj).
      rewrite (compare_units_known a b i j Hi Hj) in Hab.
      rewrite (compare_units_known b a j i Hj Hi) in Hba.
      assert (i = j) by lia. subst j. congruence.
  - unfold sortUnits. apply js_sort_ext_in. intros a b Ha Hb.
    apply filter_In in Ha, Hb. destruct Ha as [_ Ha], Hb as [_ Hb].
    apply negb_true_iff in Ha, Hb.
    unfold compare_units. rewrite (unknown_index a Ha), (unknown_index b Hb). reflexivity.
Qed.
End UnitOrderFacts.

Lemma sortUnits_known_first_witness :
  sortUnits code_order
    ["Zafiro"; "Pierre Mundo Imperial"; "Ancla"; "Palacio Mundo Imperial"]
  = ["Palacio Mundo Imperial"; "Pierre Mundo Imperial"; "Ancla"; "Zafiro"].
Proof.
  apply (sortUnits_known_first code_order
           ["Zafiro"; "Pierre Mundo Imperial"; "Ancla"; "Palacio Mundo Imperial"]).
  repeat constructor; simpl; intuition discriminate.
Defined.

(** ** The sections of the query file *)

Lemma title_push (sections : list query_section) (t : string) (q : list string) :
  map title (push_section sections (Some t) q) = (map title sections ++ [t])%list.
Proof. unfold push_section. rewrite map_app. reflexivity. Qed.

Lemma is_set_current (c : option string) :
  is_set c = true -> exists t, c = Some t /\ t <> "" /\ current c = [t].
Proof.
  destruct c as [[|a t]|]; try discriminate. intros _.
  exists (String a t). repeat split. discriminate.
Qed.

Lemma not_set_current (c : option string) : is_set c = false -> current c = [].
Proof. destruct c as [[|a t]|]; try discriminate; reflexivity. Qed.

Lemma headings_snoc (lines : list string) (x : string) :
  headings (lines ++ [x])
  = (headings lines
     ++ if is_separator x then current (Some (heading x)) else [])%list.
Proof.
  unfold headings. rewrite filter_app, map_app, filter_app. f_equal. simpl.
  destruct (is_separator x); [|reflexivity]. simpl.
  destruct (heading x); reflexivity.
Qed.

(** The state of the loop after the lines read so far. *)
Lemma read_lines_state (lines : list string) :
  let '(sections, currentTitle, currentSql) := fold_left read_line lines ([], None, []) in
  (map title sections ++ current currentTitle)%list = headings lines
  /\ (is_set currentTitle = true ->
      (currentSql = [] <-> is_separator (last lines "") = true))
  /\ (is_separator (last lines "") = true -> currentTitle = Some (heading (last lines "")))
  /\ Forall (fun s => title s <> "") sections.
Proof.
  induction lines as [|x lines IH] using rev_ind.
  - simpl. repeat split; try discriminate; constructor.
  - rewrite fold_left_app. cbn [fold_left].
    destruct (fold_left read_line lines ([], None, [])) as [[sections cur] sqls].
    destruct IH as (Ha & Hb & Hc & Hd).
    rewrite last_last, headings_snoc. unfold read_line.
    destruct (is_separator x) eqn:Ex.
    + split; [|split; [|split]].
      * destruct (is_set cur) eqn:Ecur.
        -- destruct (is_set_current cur Ecur) as (t & -> & Ht & Et).
           rewrite title_push. rewrite Et in Ha. rewrite Ha. reflexivity.
        -- rewrite (not_set_current cur Ecur), app_nil_r in Ha. rewrite Ha. reflexivity.
      * intros _. split; reflexivity.
      * intros _. reflexivity.
      * destruct (is_set cur) eqn:Ecur; [|exact Hd].
        destruct (is_set_current cur Ecur) as (t & -> & Ht & Et).
        unfold push_section. apply Forall_app. split; [exact Hd|].
        constructor; [exact Ht|constructor].
    + destruct (is_set cur) eqn:Ecur.
      * split; [|split; [|split]].
        -- rewrite app_nil_r. exact Ha.
        -- intros _. split; [|discriminate]. intros E. destruct sqls; discriminate.
        -- discriminate.
        -- exact Hd.
      * split; [|split; [|split]].
        -- rewrite app_nil_r. exact Ha.
        -- intros E. congruence.
        -- discriminate.
        -- exact Hd.
Qed.

(** X15. The titles of the sections read are, in order, the titles of the
    separator lines that are not empty, except that a title on the last
    line of the file is dropped. *)
Theorem read_sections_titles (lines : list string) :
  map title (read_sections lines)
  = if is_separator (last lines "") && negb (String.eqb (heading (last lines "")) "")
    then removelast (headings lines)
    else headings lines.
Proof.
  unfold read_sections. pose proof (read_lines_state lines) as H.
  destruct (fold_left read_line lines ([], None, [])) as [[sections cur] sqls].
  destruct H as (Ha & Hb & Hc & _). unfold last_push.
  destruct (is_set cur) eqn:Ecur.
  - destruct (is_set_current cur Ecur) as (t & -> & Ht & Et). rewrite Et in Ha.
    specialize (Hb eq_refl). destruct (is_separator (last lines "")) eqn:Es.
    + specialize (Hc eq_refl). injection Hc as <-.
      assert (E : String.eqb t "" = false) by (apply String.eqb_neq; exact Ht).
      rewrite E. rewrite (proj2 Hb eq_refl). simpl.
      rewrite <- Ha, removelast_last. reflexivity.
    + cbn [andb]. destruct sqls as [|q sqls].
      * destruct Hb as [Hb _]. specialize (Hb eq_refl). discriminate.
      * cbn [List.length Nat.ltb Nat.leb]. rewrite title_push. exact Ha.
  - rewrite (not_set_current cur Ecur), app_nil_r in Ha. simpl.
    destruct (is_separator (last lines "")) eqn:Es; [|exact Ha].
    specialize (Hc eq_refl). subst cur. simpl.
    destruct (heading (last lines "")); [exact Ha|discriminate].
Qed.

Lemma read_body (body : list string) (sections : list query_section) (t : string)
    (q : list string) :
  t <> "" -> Forall (fun l => is_separator l = false) body ->
  fold_left read_line body (sections, Some t, q) = (sections, Some t, (q ++ body)%list).
Proof.
  intros Ht Hbody. revert q. induction Hbody as [|x body Hx _ IH]; intros q.
  - rewrite app_nil_r. reflexivity.
  - cbn [fold_left]. unfold read_line at 2. rewrite Hx.
    destruct t as [|c t]; [contradiction|]. cbn [is_set].
    rewrite IH, <- app_assoc. reflexivity.
Qed.

(** The sections pushed stay. *)
Lemma read_lines_keep (lines : list string) (st : reader) (s : query_section) :
  In s (fst (fst st)) -> In s (fst (fst (fold_left read_line lines st))).
Proof.
  revert st. induction lines as [|x lines IH]; intros st H; [exact H|].
  cbn [fold_left]. apply IH. destruct st as [[sections cur] sqls]. unfold read_line.
  destruct (is_separator x); [|destruct (is_set cur); exact H].
  destruct (is_set cur); [|exact H]. simpl in *.
  unfold push_section. destruct cur; [apply in_or_app; left; exact H|exact H].
Qed.

Lemma last_push_keep (st : reader) (s : query_section) :
  In s (fst (fst st)) -> In s (last_push st).
Proof.
  destruct st as [[sections cur] sqls]. simpl. intros H.
  destruct (is_set cur && (0 <? List.length sqls)%nat); [|exact H].
  unfold push_section. destruct cur; [apply in_or_app; left; exact H|exact H].
Qed.

(** X16. The lines between the separator line of a title and the next
    separator line, or the end of the file, are the statement of the section
    of that title, joined by line feeds; the section is read whatever comes
    before, provided it has a line when it is the last. *)
Theorem read_sections_block (before body after : list string) (sep : string) :
  is_separator sep = true -> heading sep <> "" ->
  Forall (fun l => is_separator l = false) body ->
  match after with
  | [] => body <> []
  | next :: _ => is_separator next = true
  end ->
  In {| title := heading sep; sql := join_lines body |}
     (read_sections (before ++ sep :: body ++ after)).
Proof.
  intros Hsep Hhead Hbody Hafter. unfold read_sections.
  rewrite fold_left_app. cbn [fold_left].
  destruct (fold_left read_line before ([], None, [])) as [[sections cur] sqls].
  unfold read_line at 2. rewrite Hsep.
  set (pushed := if is_set cur then push_section sections cur sqls else sections).
  rewrite fold_left_app, (read_body body pushed (heading sep) [] Hhead Hbody).
  cbn [app]. destruct after as [|next after].
  - cbn [fold_left last_push]. destruct (heading sep) as [|c t] eqn:E; [contradiction|].
    cbn [is_set]. destruct body as [|b body]; [contradiction|].
    cbn [List.length Nat.ltb Nat.leb andb push_section].
    apply in_or_app. right. left. reflexivity.
  - cbn [fold_left]. apply last_push_keep, read_lines_keep.
    unfold read_line. rewrite Hafter.
    destruct (heading sep) as [|c t] eqn:E; [contradiction|].
    cbn [is_set fst push_section]. apply in_or_app. right. left. reflexivity.
Qed.

Lemma read_sections_block_witness :
  In {| title := "Tickets por mes"; sql := join_lines ["SELECT 1;"; ""] |}
     (read_sections ["-- consultas"; "Tickets por mes --------------------------";
                     "SELECT 1;"; ""]).
Proof.
  apply (read_sections_block ["-- consultas"] ["SELECT 1;"; ""] []
           "Tickets por mes --------------------------").
  - reflexivity.
  - discriminate.
  - repeat constructor.
  - discriminate.
Defined.

(** *** From a title to a sheet name *)

Lemma alnum_allowed (c : ascii) : is_alnum c = true -> forbidden c = false.
Proof.
  destruct c as [[] [] [] [] [] [] [] []]; vm_compute; intros H;
    first [reflexivity|discriminate].
Qed.

Lemma replace_forbidden_safe (s : string) :
  replace_forbidden (replace_non_alnum s) = replace_non_alnum s.
Proof.
  induction s as [|c s IH]; simpl; [reflexivity|]. rewrite IH.
  destruct (is_alnum c) eqn:E; [rewrite (alnum_allowed c E)|]; reflexivity.
Qed.

Lemma replace_non_alnum_safe (s : string) :
  string_forall (fun c => is_alnum c || Ascii.eqb c "_") (replace_non_alnum s) = true.
Proof.
  induction s as [|c s IH]; simpl; [reflexivity|]. rewrite IH, andb_true_r.
  destruct (is_alnum c) eqn:E; [rewrite E|]; reflexivity.
Qed.

Lemma replace_non_alnum_length (s : string) :
  String.length (replace_non_alnum s) = String.length s.
Proof. induction s as [|c s IH]; simpl; congruence. Qed.

Lemma substring_app_head (a b : string) : substring 0 (String.length a) (a ++ b) = a.
Proof. induction a as [|c a IH]; simpl; [destruct b; reflexivity|]. rewrite IH. reflexivity. Qed.

Lemma substring_app_tail (a b : string) (n : nat) :
  substring (String.length a) n (a ++ b) = substring 0 n b.
Proof. induction a as [|c a IH]; simpl; [reflexivity|exact IH]. Qed.

Lemma string_length_app (a b : string) :
  String.length (a ++ b) = (String.length a + String.length b)%nat.
Proof. induction a as [|c a IH]; simpl; congruence. Qed.

Lemma strip_json_suffix (a : string) : strip_json (a ++ ".json") = a.
Proof.
  unfold strip_json. rewrite string_length_app. cbn [String.length].
  replace (String.length a + 5 - 5)%nat with (String.length a) by lia.
  rewrite substring_app_tail, substring_app_head.
  replace (5 <=? String.length a + 5)%nat with true by (symmetry; apply Nat.leb_le; lia).
  reflexivity.
Qed.

Lemma substring0_short (n : nat) (s : string) :
  (String.length s <= n)%nat -> substring0 n s = s.
Proof.
  unfold substring0. revert n. induction s as [|c s IH]; intros [|n] H; simpl in *;
    try reflexivity; try lia.
  rewrite IH by lia. reflexivity.
Qed.

(** X17. The file written for a section read from the query file gives a
    sheet named by the first 31 characters of its safe title: the name is
    not empty and is made of letters, digits and underscores. *)
Theorem section_sheet_name (lines : list string) (s : query_section) :
  In s (read_sections lines) ->
  cleanSheetName (filename s) = substring0 MAX_SHEET_NAME_LENGTH (safeTitle s)
  /\ cleanSheetName (filename s) <> ""
  /\ string_forall (fun c => is_alnum c || Ascii.eqb c "_") (cleanSheetName (filename s))
     = true.
Proof.
  intros Hs.
  assert (Htitle : title s <> "").
  { unfold read_sections in Hs. pose proof (read_lines_state lines) as H.
    destruct (fold_left read_line lines ([], None, [])) as [[sections cur] sqls].
    destruct H as (_ & _ & _ & Hd). rewrite Forall_forall in Hd.
    unfold last_push in Hs.
    destruct (is_set cur) eqn:Ecur; [|apply Hd; exact Hs].
    destruct (0 <? List.length sqls)%nat; [|apply Hd; exact Hs]. simpl in Hs.
    destruct (is_set_current cur Ecur) as (t & -> & Ht & _).
    unfold push_section in Hs. apply in_app_or in Hs.
    destruct Hs as [Hs|[<-|[]]]; [apply Hd; exact Hs|exact Ht]. }
  assert (Hclean : cleanSheetName (filename s)
                   = substring0 MAX_SHEET_NAME_LENGTH (safeTitle s)).
  { unfold cleanSheetName, filename, safeTitle.
    rewrite strip_json_suffix, replace_forbidden_safe.
    destruct (MAX_SHEET_NAME_LENGTH <? String.length (replace_non_alnum (title s)))%nat
      eqn:E; [reflexivity|].
    apply Nat.ltb_ge in E. symmetry. apply substring0_short. exact E. }
  rewrite Hclean. repeat apply conj.
  - reflexivity.
  - unfold safeTitle. destruct (title s) as [|c t]; [contradiction|]. discriminate.
  - apply string_forall_substring, replace_non_alnum_safe.
Qed.

Lemma section_sheet_name_witness :
  cleanSheetName "Tickets_por_mes.json" = "Tickets_por_mes"
  /\ cleanSheetName "Tickets_por_mes.json" <> ""
  /\ string_forall (fun c => is_alnum c || Ascii.eqb c "_")
       (cleanSheetName "Tickets_por_mes.json") = true.
Proof.
  apply (section_sheet_name
           ["Tickets por mes --------------------------"; "SELECT 1;"]
           {| title := "Tickets por mes"; sql := "SELECT 1;" |}).
  left. reflexivity.
Defined.

(** ** Synthesized rows in the accumulation *)

Lemma zeroRow_get_any (ks : list string) (month : string) (unit : value) (k : string) :
  get (zeroRow ks month unit) k
  = if in_dec string_dec k ks then zero_value month unit k else VUndef.
Proof. unfold zeroRow. apply (get_fold_assign (zero_value month unit)). Qed.

Lemma zero_duration : parseDuration (VStr "00:00:00") = zero.
Proof. num_eq. Qed.

Lemma zeroRow_count (ks : list string) (month : string) (unit : value) :
  or0 (to_number (get (zeroRow ks month unit) Cantidad_Tickets)) = zero.
Proof.
  rewrite zeroRow_get_any. destruct (in_dec string_dec Cantidad_Tickets ks); reflexivity.
Qed.

Lemma zeroRow_duration (ks : list string) (month : string) (unit : value) (k : string) :
  k = Total_Tiempo_Productivo \/ k = Promedio_Tiempo_Estimado ->
  parseDuration (get (zeroRow ks month unit) k) = zero.
Proof.
  intros Hk. rewrite zeroRow_get_any. destruct (in_dec string_dec k ks); [|reflexivity].
  destruct Hk as [-> | ->]; exact zero_duration.
Qed.

Lemma fold_left_skip {A B : Type} (f : A -> B -> A) (before after : list B) (z : B)
    (a : A) :
  (forall acc, f acc z = acc) ->
  fold_left f (before ++ z :: after) a = fold_left f (before ++ after) a.
Proof. intros H. rewrite !fold_left_app. cbn [fold_left]. rewrite H. reflexivity. Qed.

(** X18. A synthesized row counts for nothing in the Tickets-General
    accumulation: with or without it, wherever it stands in the group, the
    accumulation row is the same. *)
Theorem tickets_general_zero_rows (summaryRow : row) (ks : list string)
    (month : string) (unit : value) (before after : list row) :
  processTicketsGeneral summaryRow (before ++ zeroRow ks month unit :: after)
  = processTicketsGeneral summaryRow (before ++ after).
Proof.
  assert (Hcount : sum_column Cantidad_Tickets (before ++ zeroRow ks month unit :: after)
                   = sum_column Cantidad_Tickets (before ++ after)).
  { unfold sum_column. apply fold_left_skip. intros acc.
    rewrite zeroRow_count. apply num_add_zero_r. }
  assert (Hprod : totalTimeProdSec (before ++ zeroRow ks month unit :: after)
                  = totalTimeProdSec (before ++ after)).
  { unfold totalTimeProdSec. apply fold_left_skip. intros acc.
    rewrite zeroRow_duration by (left; reflexivity). apply num_add_zero_r. }
  assert (Hest : totalEstSec (before ++ zeroRow ks month unit :: after)
                 = totalEstSec (before ++ after)).
  { unfold totalEstSec. apply fold_left_skip. intros acc. cbv zeta.
    rewrite zeroRow_duration by (right; reflexivity). rewrite zeroRow_count.
    replace (num_mul zero zero) with zero by (symmetry; num_eq).
    apply num_add_zero_r. }
  unfold processTicketsGeneral. rewrite Hcount, Hprod, Hest. reflexivity.
Qed.

Lemma column_is_numeric_skip (key : string) (before after : list row) (z : row) :
  column_is_numeric key (before ++ z :: after)
  = negb (num_is_nan (to_number (get z key))) && column_is_numeric key (before ++ after).
Proof.
  unfold column_is_numeric. rewrite !forallb_app. cbn [forallb].
  destruct (forallb _ before), (negb _), (forallb _ after); reflexivity.
Qed.

(** X19. A synthesized row in a group of Generic Counts: it leaves the
    accumulated value of a column of the first row of the series as it is
    when the default of the column is 0 or 0.00, and turns it into the empty
    text when the default is 00:00:00, as it does for a column the first row
    of the series does not have. (A column named [__proto__], which a
    synthesized row cannot take, is left aside.) *)
Theorem generic_counts_zero_rows (ks : list string) (month : string) (unit : value)
    (before after : list row) (key : string) :
  privileged key = false -> key <> "__proto__" ->
  let z := zeroRow ks month unit in
  (In key ks -> zero_value month unit key <> VStr "00:00:00" ->
   generic_value (before ++ z :: after) key = generic_value (before ++ after) key)
  /\ (In key ks -> zero_value month unit key = VStr "00:00:00" ->
      generic_value (before ++ z :: after) key = VStr "")
  /\ (~ In key ks -> generic_value (before ++ z :: after) key = VStr "").
Proof.
  intros Hkey _ z. unfold privileged in Hkey. apply orb_false_iff in Hkey.
  destruct Hkey as [Hm Hu].
  assert (Hdefault : zero_value month unit key = vnum 0
                     \/ zero_value month unit key = VStr "00:00:00"
                     \/ zero_value month unit key = VStr "0.00").
  { unfold zero_value. rewrite Hm, Hu.
    destruct (startsWith key "Cantidad" || startsWith key "Total_Tickets"
              || String.eqb key "insertId" || String.eqb key "affectedRows");
      [left; reflexivity|].
    destruct (includes key "Tiempo"); [right; left; reflexivity|].
    destruct (includes key "Porcentaje"); [right; right|left]; reflexivity. }
  unfold generic_value. repeat apply conj.
  - intros Hin Hne. rewrite column_is_numeric_skip. unfold z.
    rewrite zeroRow_get by exact Hin.
    assert (Hzero : to_number (zero_value month unit key) = zero).
    { destruct Hdefault as [E|[E|E]]; [| contradiction |]; rewrite E;
        [reflexivity|].
      vm_compute. apply f_equal, Qc_is_canon. reflexivity. }
    rewrite Hzero. cbn [num_is_nan zero negb andb].
    unfold sum_column.
    rewrite (fold_left_skip _ before after (zeroRow ks month unit)); [reflexivity|].
    intros acc. rewrite zeroRow_get by exact Hin. rewrite Hzero.
    replace (or0 zero) with zero by reflexivity. apply num_add_zero_r.
  - intros Hin E. rewrite column_is_numeric_skip. unfold z.
    rewrite zeroRow_get by exact Hin. rewrite E. reflexivity.
  - intros Hnot. rewrite column_is_numeric_skip. unfold z.
    rewrite zeroRow_get_any. destruct (in_dec string_dec key ks); [contradiction|].
    reflexivity.
Qed.

Lemma generic_counts_zero_rows_witness :
  generic_value
    [counts_row "Enero 2025" (vnum 4) (VStr "Sistemas");
     zeroRow ["Mes_Anio"; "Nombre_Unidad"; "Total_Tickets_TI"; "Tiempo_Total"]
       "Febrero 2025" (VStr "Pierre Mundo Imperial")]
    "Total_Tickets_TI"
  = generic_value [counts_row "Enero 2025" (vnum 4) (VStr "Sistemas")] "Total_Tickets_TI".
Proof.
  apply (generic_counts_zero_rows
           ["Mes_Anio"; "Nombre_Unidad"; "Total_Tickets_TI"; "Tiempo_Total"]
           "Febrero 2025" (VStr "Pierre Mundo Imperial")
           [counts_row "Enero 2025" (vnum 4) (VStr "Sistemas")] [] "Total_Tickets_TI").
  - reflexivity.
  - discriminate.
  - right. right. left. reflexivity.
  - discriminate.
Defined.

(** ** Sheet names within the limit *)

(** X20. In a workbook of at most 98 sheets the name a file gets is within
    the 31 characters of a sheet name. *)
Theorem finalSheetName_within_limit (sheetNames : list string) (file name : string) :
  (List.length sheetNames <= 98)%nat ->
  finalSheetName sheetNames (cleanSheetName file) = Some name ->
  (String.length name <= MAX_SHEET_NAME_LENGTH)%nat.
Proof.
  intros Hlen H. unfold finalSheetName in H.
  destruct (collision_loop_shape _ _ _ _ _ _ H) as [->|(c & Hc & ->)].
  - unfold cleanSheetName.
    destruct (MAX_SHEET_NAME_LENGTH
              <? String.length (replace_forbidden (strip_json file)))%nat eqn:E.
    + apply substring0_length.
    + apply Nat.ltb_ge in E. exact E.
  - apply suffixed_within_limit. lia.
Qed.

Lemma finalSheetName_within_limit_witness :
  (String.length "Tickets_1" <= MAX_SHEET_NAME_LENGTH)%nat.
Proof.
  apply (finalSheetName_within_limit ["Tickets"] "Tickets.json" "Tickets_1").
  - simpl. lia.
  - reflexivity.
Defined.
